(** * certparse: the certdata.txt scanner and trust resolver of gwatts/rootcerts

    A shallow embedding of package [certparse] (the value scanner
    [MozScanner], the object assembler, [findTrusted] and
    [ReadTrustedCerts]) together with the properties its specification
    states about them.

    Conventions of the embedding:
    - a Go [string] is a sequence of bytes: Rocq's [string] (a list of 8-bit
      [ascii]); [[]byte(s)] and [string(v)] are the identity;
    - a Go [int] is a [Z];
    - a [map[string]string] is a [gmap string string]; reading a missing key
      gives the empty string, as in Go;
    - [*MozScanner] is mutated in place by its methods: every method takes the
      scanner state and returns the new one;
    - a run-time panic (a slice expression out of range) is the outcome
      [Panic]; a loop that has not finished within its fuel is [OutOfFuel];
    - a Go result pair [(v, err)] whose two shapes are [(v, nil)] and
      [(nil, err)] is a [result]. *)

From Stdlib Require Import ZArith Ascii String List Bool Lia.
From stdpp Require Import gmap strings list fin_maps.
Import ListNotations.

Local Open Scope Z_scope.

(** ** Outcomes and errors *)

Inductive outcome (A : Type) : Type :=
| Ret (a : A)
| Panic
| OutOfFuel.
Arguments Ret {A} a.
Arguments Panic {A}.
Arguments OutOfFuel {A}.

Definition bind {A B} (m : outcome A) (k : A -> outcome B) : outcome B :=
  match m with
  | Ret a => k a
  | Panic => Panic
  | OutOfFuel => OutOfFuel
  end.

Notation "'let*' p ':=' m 'in' k" := (bind m (fun p => k))
  (at level 10, p pattern, m at level 100, k at level 200).

(** The error values the package creates. *)
Inductive error : Type :=
| ErrNoBeginData                (* "BEGINDATA line not found in certdata input" *)
| ErrUnexpectedEOF              (* "unexpected EOF in multiline value" *)
| ErrNumError (num : string)    (* the *strconv.NumError of ParseInt on [num] *)
| ErrUnknownTrust (arg : string). (* fmt.Errorf("unknown trust level %q referenced", arg) *)

Inductive result (A : Type) : Type :=
| Ok (a : A)                    (* (a, nil) *)
| Err (e : error).              (* (nil, e) *)
Arguments Ok {A} a.
Arguments Err {A} e.

(** ** Go strings *)

Module GoString.

Definition len (str : string) : Z := Z.of_nat (String.length str).

(** [str[lo:hi]]; [None] is the run-time panic "slice bounds out of range",
    raised unless [0 <= lo <= hi <= len(str)]. *)
Definition slice (str : string) (lo hi : Z) : option string :=
  if (0 <=? lo) && (lo <=? hi) && (hi <=? len str)
  then Some (String.substring (Z.to_nat lo) (Z.to_nat (hi - lo)) str)
  else None.

(** [str[lo:]] *)
Definition slice_from (str : string) (lo : Z) : option string :=
  slice str lo (len str).

(** [strings.HasPrefix(str, p)] *)
Definition HasPrefix (str p : string) : bool := String.prefix p str.

Definition space : ascii := Ascii.ascii_of_nat 32.

(** The text before and after the first space of [str], if it has one. *)
Fixpoint Cut (str : string) : option (string * string) :=
  match str with
  | EmptyString => None
  | String c rest =>
      if Ascii.eqb c space then Some (EmptyString, rest)
      else match Cut rest with
           | Some (a, b) => Some (String c a, b)
           | None => None
           end
  end.

(** [strings.SplitN(str, " ", n)] for [n >= 0]: at most [n] substrings,
    the last one the unsplit remainder. *)
Fixpoint SplitN (str : string) (n : nat) : list string :=
  match n with
  | O => []
  | S O => [str]
  | S n' =>
      match Cut str with
      | None => [str]
      | Some (a, rest) => a :: SplitN rest n'
      end
  end.

(** [strings.Join(v, "\n")] *)
Definition newline : ascii := Ascii.ascii_of_nat 10.

Fixpoint JoinNL (v : list string) : string :=
  match v with
  | [] => EmptyString
  | [x] => x
  | x :: tl => String.append x (String newline (JoinNL tl))
  end.

End GoString.

(** ** strconv.ParseInt(str, 8, 16) *)

Module Strconv.

(** The value of an octal digit; any other byte is a syntax error. *)
Definition octal_digit (c : ascii) : option Z :=
  let n := Z.of_N (Ascii.N_of_ascii c) in
  if (48 <=? n) && (n <=? 55) then Some (n - 48) else None.

(** The digit loop of ParseUint in base 8, [acc] being the value so far. *)
Fixpoint digits8 (str : string) (acc : Z) : option Z :=
  match str with
  | EmptyString => Some acc
  | String c rest =>
      match octal_digit c with
      | Some d => digits8 rest (acc * 8 + d)
      | None => None
      end
  end.

Definition ParseUint8 (str : string) : option Z :=
  match str with
  | EmptyString => None
  | _ => digits8 str 0
  end.

(** [ParseInt(str, 8, 16)]: an optional sign, then at least one octal digit;
    the value must fit a signed 16-bit integer.  [None] is any error
    (syntax or range): the caller only tests [err != nil]. *)
Definition ParseInt (str : string) : option Z :=
  match str with
  | EmptyString => None
  | String c rest =>
      let plus := Ascii.ascii_of_nat 43 in
      let minus := Ascii.ascii_of_nat 45 in
      let neg := Ascii.eqb c minus in
      let body := if Ascii.eqb c plus || neg then rest else str in
      match ParseUint8 body with
      | None => None
      | Some un =>
          let cutoff := 32768 in
          if negb neg && (cutoff <=? un) then None
          else if neg && (cutoff <? un) then None
          else Some (if neg then - un else un)
      end
  end.

(** [byte(n)] for an integer [n]: truncation to the low eight bits. *)
Definition byte (n : Z) : ascii := Ascii.ascii_of_N (Z.to_N (n mod 256)).

End Strconv.

(** ** bufio.Scanner with the default split function (ScanLines) *)

Module Bufio.

Definition cr : ascii := Ascii.ascii_of_nat 13.

(** The text cut at every newline; a last piece with no newline after it
    is a line when it is not empty. *)
Fixpoint rawLines (text : string) : list string :=
  match text with
  | EmptyString => []
  | String c rest =>
      if Ascii.eqb c GoString.newline then EmptyString :: rawLines rest
      else match rawLines rest with
           | [] => [String c EmptyString]
           | l :: ls => String c l :: ls
           end
  end.

(** dropCR: one trailing carriage return is removed from a line. *)
Fixpoint dropCR (line : string) : string :=
  match line with
  | EmptyString => EmptyString
  | String c EmptyString => if Ascii.eqb c cr then EmptyString else line
  | String c rest => String c (dropCR rest)
  end.

(** MaxScanTokenSize: a line has to fit the 64 KiB buffer together with
    its newline, otherwise Scan stops for good (ErrTooLong). *)
Definition fits (raw : string) : bool :=
  (N.of_nat (String.length raw) <? 65536)%N.

Fixpoint untilTooLong (raws : list string) : list string :=
  match raws with
  | [] => []
  | r :: tl => if fits r then r :: untilTooLong tl else []
  end.

(** The successive values of [Text()] after each successful [Scan()]. *)
Definition ScanLines (text : string) : list string :=
  List.map dropCR (untilTooLong (rawLines text)).

End Bufio.

(** ** Data model *)

Record TrustLevel : Type := mkTrustLevel {
  ServerTrustedDelegator : bool;
  EmailTrustedDelegator : bool;
  CodeTrustedDelegator : bool }.

Record MozValue : Type := mkMozValue {
  Field : string;
  Type' : string;
  Value : string }.

Definition zeroValue : MozValue := mkMozValue EmptyString EmptyString EmptyString.

(** [s] holds the lines the underlying bufio.Scanner has still to deliver. *)
Record MozScanner : Type := mkMozScanner {
  s : list string;
  ln : Z;
  skippedHeader : bool;
  lastValue : MozValue;
  valueError : option error;
  lastObject : gmap string string;
  objectError : option error }.

Definition NewMozScanner (f : string) : MozScanner :=
  mkMozScanner (Bufio.ScanLines f) 0 false zeroValue None ∅ None.

(** Field updates of the scanner. *)
Definition set_stream (ms : MozScanner) (lines : list string) (n : Z) : MozScanner :=
  mkMozScanner lines n (skippedHeader ms) (lastValue ms) (valueError ms)
               (lastObject ms) (objectError ms).

Definition set_skippedHeader (ms : MozScanner) (b : bool) : MozScanner :=
  mkMozScanner (s ms) (ln ms) b (lastValue ms) (valueError ms)
               (lastObject ms) (objectError ms).

Definition set_lastValue (ms : MozScanner) (v : MozValue) : MozScanner :=
  mkMozScanner (s ms) (ln ms) (skippedHeader ms) v (valueError ms)
               (lastObject ms) (objectError ms).

Definition set_valueError (ms : MozScanner) (e : option error) : MozScanner :=
  mkMozScanner (s ms) (ln ms) (skippedHeader ms) (lastValue ms) e
               (lastObject ms) (objectError ms).

Definition set_lastObject (ms : MozScanner) (o : gmap string string) : MozScanner :=
  mkMozScanner (s ms) (ln ms) (skippedHeader ms) (lastValue ms) (valueError ms)
               o (objectError ms).

Definition set_objectError (ms : MozScanner) (e : option error) : MozScanner :=
  mkMozScanner (s ms) (ln ms) (skippedHeader ms) (lastValue ms) (valueError ms)
               (lastObject ms) e.

Definition LineNumber (ms : MozScanner) : Z := ln ms.
Definition ScanValueError (ms : MozScanner) : option error := valueError ms.
Definition ScannerValue (ms : MozScanner) : MozValue := lastValue ms.
Definition ScanObjectError (ms : MozScanner) : option error := objectError ms.
Definition Object (ms : MozScanner) : gmap string string := lastObject ms.

Section Scanner.

(** strconv.Unquote: [None] when it returns an error. *)
Variable Unquote : string -> option string.

(** *** skipHeader *)

Fixpoint skipHeader_loop (lines : list string) (n : Z) : list string * Z * bool :=
  match lines with
  | [] => ([], n, false)
  | line :: rest =>
      if String.eqb line "BEGINDATA" then (rest, n + 1, true)
      else skipHeader_loop rest (n + 1)
  end.

Definition skipHeader (ms : MozScanner) : option error * MozScanner :=
  match skipHeader_loop (s ms) (ln ms) with
  | (rest, n, true) => (None, set_skippedHeader (set_stream ms rest n) true)
  | (rest, n, false) => (Some ErrNoBeginData, set_stream ms rest n)
  end.

(** *** readMultiline

    [process] is a closure over a local variable of the caller; the
    variable is the accumulator [acc] threaded here.  The result is the
    returned error, the accumulator and the stream after the call. *)
Fixpoint readMultiline_loop {A : Type}
    (process : string -> A -> outcome (option error * A))
    (lines : list string) (n : Z) (acc : A)
    : outcome (option error * A * (list string * Z)) :=
  match lines with
  | [] => Ret (Some ErrUnexpectedEOF, acc, ([], n))
  | line :: rest =>
      if String.eqb line "END" then Ret (None, acc, (rest, n + 1))
      else
        let* r := process line acc in
        match r with
        | (Some e, acc') => Ret (Some e, acc', (rest, n + 1))
        | (None, acc') => readMultiline_loop process rest (n + 1) acc'
        end
  end.

Definition readMultiline {A : Type}
    (process : string -> A -> outcome (option error * A))
    (ms : MozScanner) (acc : A) : outcome (option error * A * MozScanner) :=
  let* r := readMultiline_loop process (s ms) (ln ms) acc in
  match r with
  | (e, acc', (rest, n)) => Ret (e, acc', set_stream ms rest n)
  end.

(** The closure of readMultilineGeneric: [v = append(v, line)]. *)
Definition genericProcess (line : string) (v : list string)
    : outcome (option error * list string) :=
  Ret (None, v ++ [line]).

(** readMultilineGeneric: the error of readMultiline is not looked at and
    the error returned is always nil. *)
Definition readMultilineGeneric (ms : MozScanner)
    : outcome (string * option error * MozScanner) :=
  let* r := readMultiline genericProcess ms [] in
  match r with
  | (_, v, ms') => Ret (GoString.JoinNL v, None, ms')
  end.

(** The loop [for i := 0; i < len(line); i += 4] of the closure of
    readMultilineOctal, on [rest = line[i:]]: the byte [line[i]] is not
    looked at, [line[i+1:i+4]] panics when fewer than three bytes follow. *)
Fixpoint octalGroups (rest : string) (v : string) : outcome (option error * string) :=
  match rest with
  | EmptyString => Ret (None, v)
  | String _ (String c1 (String c2 (String c3 rest'))) =>
      let group := String c1 (String c2 (String c3 EmptyString)) in
      match Strconv.ParseInt group with
      | None => Ret (Some (ErrNumError group), v)
      | Some n => octalGroups rest' (String.append v (String (Strconv.byte n) EmptyString))
      end
  | String _ _ => Panic
  end.

Definition octalProcess (line : string) (v : string) : outcome (option error * string) :=
  octalGroups line v.

(** readMultilineOctal: as for the generic reader, the error of
    readMultiline is dropped and nil is returned. *)
Definition readMultilineOctal (ms : MozScanner)
    : outcome (string * option error * MozScanner) :=
  let* r := readMultiline octalProcess ms EmptyString in
  match r with
  | (_, v, ms') => Ret (v, None, ms')
  end.

(** *** ScanValue *)

Definition emit (ms : MozScanner) (field ftype value : string)
    : outcome (option (bool * MozScanner)) :=
  Ret (Some (true, set_lastValue ms (mkMozValue field ftype value))).

Definition fail (ms : MozScanner) (e : error) : outcome (option (bool * MozScanner)) :=
  Ret (Some (false, set_valueError ms (Some e))).

(** The body of the scanning loop for one line, the line already taken
    from the stream of [ms]; [Ret None] stands for [continue]. *)
Definition scanLine (line : string) (ms : MozScanner)
    : outcome (option (bool * MozScanner)) :=
  match line with
  | EmptyString => Ret None
  | String c0 _ =>
      if Ascii.eqb c0 (Ascii.ascii_of_nat 35) then Ret None
      else
        match GoString.SplitN line 3 with
        | field :: ftype :: inline =>
            match String.eqb ftype "UTF8", inline with
            | true, p2 :: _ =>
                match Unquote p2 with
                | Some value => emit ms field ftype value
                | None =>
                    match GoString.slice p2 1 (GoString.len p2 - 1) with
                    | Some value => emit ms field ftype value
                    | None => Panic
                    end
                end
            | _, _ =>
                if GoString.HasPrefix ftype "MULTILINE"
                then
                  match GoString.slice_from ftype (GoString.len "MULTILINE_") with
                  | None => Panic
                  | Some mltype =>
                      if String.eqb mltype "OCTAL"
                      then
                        let* r := readMultilineOctal ms in
                        match r with
                        | (_, Some e, ms') => fail ms' e
                        | (value, None, ms') => emit ms' field ftype value
                        end
                      else
                        let* r := readMultilineGeneric ms in
                        match r with
                        | (_, Some e, ms') => fail ms' e
                        | (_, None, ms') => emit ms' field ftype EmptyString
                        end
                  end
                else
                  match inline with
                  | p2 :: _ => emit ms field ftype p2
                  | [] => emit ms field ftype EmptyString
                  end
            end
        | _ => Ret None
        end
  end.

Fixpoint ScanValue_loop (lines : list string) (ms : MozScanner)
    : outcome (bool * MozScanner) :=
  match lines with
  | [] => Ret (false, ms)
  | line :: rest =>
      let ms1 := set_stream ms rest (ln ms + 1) in
      let* r := scanLine line ms1 in
      match r with
      | None => ScanValue_loop rest ms1
      | Some res => Ret res
      end
  end.

Definition ScanValue (ms : MozScanner) : outcome (bool * MozScanner) :=
  let ms0 := set_valueError ms None in
  if skippedHeader ms0
  then ScanValue_loop (s ms0) ms0
  else
    match skipHeader ms0 with
    | (Some err, ms1) => Ret (false, set_valueError ms1 (Some err))
    | (None, ms1) => ScanValue_loop (s ms1) ms1
    end.

(** The results of [n] successive calls of ScanValue and the scanner
    after them. *)
Fixpoint ScanValue_calls (n : nat) (ms : MozScanner)
    : outcome (list bool * MozScanner) :=
  match n with
  | O => Ret ([], ms)
  | S n' =>
      let* r := ScanValue ms in
      match r with
      | (b, ms') =>
          let* r' := ScanValue_calls n' ms' in
          match r' with
          | (bs, ms'') => Ret (b :: bs, ms'')
          end
      end
  end.

(** *** ScanObject

    Both loops call ScanValue until it returns false; a call that returns
    true has taken at least one line from the stream, so the number of
    lines left, plus one, bounds the number of iterations. *)

(** [for value.Field != "CKA_CLASS" && ms.ScanValue() { value = ms.Value() }] *)
Fixpoint seekClass (fuel : nat) (value : MozValue) (ms : MozScanner)
    : outcome (MozValue * MozScanner) :=
  if String.eqb (Field value) "CKA_CLASS" then Ret (value, ms)
  else
    match fuel with
    | O => OutOfFuel
    | S fuel' =>
        let* r := ScanValue ms in
        match r with
        | (true, ms') => seekClass fuel' (ScannerValue ms') ms'
        | (false, ms') => Ret (value, ms')
        end
    end.

(** The second loop: [true] when it is left by the [return true] of a
    CKA_CLASS value, [false] when ScanValue returned false. *)
Fixpoint foldFields (fuel : nat) (object : gmap string string) (ms : MozScanner)
    : outcome (bool * gmap string string * MozScanner) :=
  match fuel with
  | O => OutOfFuel
  | S fuel' =>
      let* r := ScanValue ms in
      match r with
      | (true, ms') =>
          let value := ScannerValue ms' in
          if String.eqb (Field value) "CKA_CLASS" then Ret (true, object, ms')
          else foldFields fuel' (<[Field value := Value value]> object) ms'
      | (false, ms') => Ret (false, object, ms')
      end
  end.

Definition ScanObject (ms : MozScanner) : outcome (bool * MozScanner) :=
  let value := ScannerValue ms in
  let ms0 := set_objectError ms None in
  let* r1 := seekClass (S (length (s ms0))) value ms0 in
  match r1 with
  | (value, ms1) =>
      match ScanValueError ms1 with
      | Some _ => Ret (false, set_objectError ms1 (valueError ms1))
      | None =>
          if negb (String.eqb (Field value) "CKA_CLASS") then Ret (false, ms1)
          else
            let object : gmap string string := <[Field value := Value value]> ∅ in
            let* r2 := foldFields (S (length (s ms1))) object ms1 in
            match r2 with
            | (true, object, ms2) => Ret (true, set_lastObject ms2 object)
            | (false, object, ms2) =>
                match ScanValueError ms2 with
                | Some err => Ret (false, set_objectError ms2 (Some err))
                | None => Ret (true, set_lastObject ms2 object)
                end
            end
      end
  end.

(** *** ReadObjects

    [for scanner.ScanObject() { objects = append(objects, scanner.Object()) }]
    has no bound of its own: [fuel] is the number of ScanObject calls
    allowed. *)
Fixpoint ReadObjects_loop (fuel : nat) (scanner : MozScanner)
    (objects : list (gmap string string))
    : outcome (MozScanner * list (gmap string string)) :=
  match fuel with
  | O => OutOfFuel
  | S fuel' =>
      let* r := ScanObject scanner in
      match r with
      | (true, scanner') => ReadObjects_loop fuel' scanner' (objects ++ [Object scanner'])
      | (false, scanner') => Ret (scanner', objects)
      end
  end.

Definition ReadObjects (fuel : nat) (f : string)
    : outcome (result (list (gmap string string))) :=
  let* r := ReadObjects_loop fuel (NewMozScanner f) [] in
  match r with
  | (scanner, objects) =>
      match ScanObjectError scanner with
      | Some err => Ret (Err err)
      | None => Ret (Ok objects)
      end
  end.

End Scanner.

(** ** Trust resolution *)

Definition knownTrustLevels : list string :=
  ["CKT_NSS_TRUSTED_DELEGATOR"; "CKT_NSS_MUST_VERIFY_TRUST"; "CKT_NSS_NOT_TRUSTED"].

Definition trustedDelegator : string := "CKT_NSS_TRUSTED_DELEGATOR".

Fixpoint contains (val : string) (set : list string) : bool :=
  match set with
  | [] => false
  | v :: tl => if String.eqb v val then true else contains val tl
  end.

(** [obj[key]]: the empty string when the key is missing. *)
Definition obj_get (obj : gmap string string) (key : string) : string :=
  default EmptyString (obj !! key).

(** The body of the loop of findTrusted for one object: the map after it, or
    the error returned. *)
Definition findTrusted_step (trusted : gmap string TrustLevel)
    (obj : gmap string string) : result (gmap string TrustLevel) :=
  if negb (String.eqb (obj_get obj "CKA_CLASS") "CKO_NSS_TRUST") then Ok trusted
  else
    let serverTrust := obj_get obj "CKA_TRUST_SERVER_AUTH" in
    let emailTrust := obj_get obj "CKA_TRUST_EMAIL_PROTECTION" in
    let codeTrust := obj_get obj "CKA_TRUST_CODE_SIGNING" in
    if negb (contains serverTrust knownTrustLevels) then Err (ErrUnknownTrust serverTrust)
    else if negb (contains emailTrust knownTrustLevels) then Err (ErrUnknownTrust serverTrust)
    else if negb (contains codeTrust knownTrustLevels) then Err (ErrUnknownTrust serverTrust)
    else if String.eqb serverTrust "CKT_NSS_NOT_TRUSTED"
            || String.eqb emailTrust "CKT_NSS_NOT_TRUSTED"
            || String.eqb codeTrust "CKT_NSS_NOT_TRUSTED"
    then Ok trusted
    else
      let trust := mkTrustLevel (String.eqb serverTrust "CKT_NSS_TRUSTED_DELEGATOR")
                                (String.eqb emailTrust "CKT_NSS_TRUSTED_DELEGATOR")
                                (String.eqb codeTrust "CKT_NSS_TRUSTED_DELEGATOR") in
      if ServerTrustedDelegator trust || EmailTrustedDelegator trust
         || CodeTrustedDelegator trust
      then Ok (<[obj_get obj "CKA_LABEL" := trust]> trusted)
      else Ok trusted.

Fixpoint findTrusted_loop (objects : list (gmap string string))
    (trusted : gmap string TrustLevel) : result (gmap string TrustLevel) :=
  match objects with
  | [] => Ok trusted
  | obj :: rest =>
      match findTrusted_step trusted obj with
      | Ok trusted' => findTrusted_loop rest trusted'
      | Err e => Err e
      end
  end.

Definition findTrusted (objects : list (gmap string string))
    : result (gmap string TrustLevel) :=
  findTrusted_loop objects ∅.

(** ** Certificate extraction *)

Section Extractor.

Variable Unquote : string -> option string.

(** *x509.Certificate, and x509.ParseCertificate: [None] when it returns
    an error, the certificate it points to otherwise. *)
Variable Certificate : Type.
Variable ParseCertificate : string -> option Certificate.

(** [Cert'] is the pointer field Cert: [None] is nil. *)
Record Cert : Type := mkCert {
  Label : string;
  Data : string;
  Trust : TrustLevel;
  Cert' : option Certificate }.

(** The body of the loop over the objects in ReadTrustedCerts. *)
Definition extract_step (trusted : gmap string TrustLevel) (certs : list Cert)
    (obj : gmap string string) : list Cert :=
  if negb (String.eqb (obj_get obj "CKA_CLASS") "CKO_CERTIFICATE") then certs
  else
    match trusted !! obj_get obj "CKA_LABEL" with
    | None => certs
    | Some trust =>
        match ParseCertificate (obj_get obj "CKA_VALUE") with
        | None => certs
        | Some cert =>
            certs ++ [mkCert (obj_get obj "CKA_LABEL") (obj_get obj "CKA_VALUE") trust (Some cert)]
        end
    end.

Definition ReadTrustedCerts (fuel : nat) (f : string) : outcome (result (list Cert)) :=
  let* r := ReadObjects Unquote fuel f in
  match r with
  | Err err => Ret (Err err)
  | Ok objects =>
      match findTrusted objects with
      | Err err => Ret (Err err)
      | Ok trusted => Ret (Ok (fold_left (extract_step trusted) objects []))
      end
  end.

End Extractor.

Arguments Label {Certificate} _.
Arguments Data {Certificate} _.
Arguments Trust {Certificate} _.
Arguments Cert' {Certificate} _.
Arguments mkCert {Certificate} _ _ _ _.

(** ** Predicates on objects and trust levels *)

Definition isTrustDecl (obj : gmap string string) : Prop :=
  obj_get obj "CKA_CLASS" = "CKO_NSS_TRUST".

(** One of the three trust fields is outside the vocabulary (a missing
    field reads as the empty string, which is outside too). *)
Definition unknownLevel (obj : gmap string string) : Prop :=
  ~ In (obj_get obj "CKA_TRUST_SERVER_AUTH") knownTrustLevels \/
  ~ In (obj_get obj "CKA_TRUST_EMAIL_PROTECTION") knownTrustLevels \/
  ~ In (obj_get obj "CKA_TRUST_CODE_SIGNING") knownTrustLevels.

(** One of the three trust fields is the explicit distrust code. *)
Definition vetoed (obj : gmap string string) : Prop :=
  obj_get obj "CKA_TRUST_SERVER_AUTH" = "CKT_NSS_NOT_TRUSTED" \/
  obj_get obj "CKA_TRUST_EMAIL_PROTECTION" = "CKT_NSS_NOT_TRUSTED" \/
  obj_get obj "CKA_TRUST_CODE_SIGNING" = "CKT_NSS_NOT_TRUSTED".

Definition hasPurpose (t : TrustLevel) : bool :=
  ServerTrustedDelegator t || EmailTrustedDelegator t || CodeTrustedDelegator t.

(** What the data model asks of an emitted record: the certificate pointer
    is not nil and is what ParseCertificate made of the record's data, and
    the trust level has a purpose bit set. *)
Definition validRecord {Certificate : Type}
    (ParseCertificate : string -> option Certificate) (c : Cert Certificate) : Prop :=
  (exists x, Cert' c = Some x /\ ParseCertificate (Data c) = Some x) /\
  hasPurpose (Trust c) = true.

(** ** The textual form of an octal block

    The package has no encoder; this one writes the form the specification
    describes: four characters for every byte, a backslash and the three
    octal digits of the byte, with no separator. *)

Definition octalDigit (d : N) : ascii := Ascii.ascii_of_N (48 + d)%N.

Definition encodeByte (b : ascii) (tl : string) : string :=
  let n := Ascii.N_of_ascii b in
  String (Ascii.ascii_of_nat 92)
    (String (octalDigit (n / 64)%N)
       (String (octalDigit ((n / 8) mod 8)%N)
          (String (octalDigit (n mod 8)%N) tl))).

Fixpoint encodeOctal (bytes : string) : string :=
  match bytes with
  | EmptyString => EmptyString
  | String b tl => encodeByte b (encodeOctal tl)
  end.

(** The computation did not stop for lack of fuel. *)
Definition finished {A : Type} (m : outcome A) : Prop := m <> OutOfFuel.

(** The bytes of several chunks, one after the other. *)
Definition allBytes (chunks : list string) : string :=
  fold_right String.append EmptyString chunks.

(** ** Predicates on field names *)

Fixpoint noSpace (str : string) : bool :=
  match str with
  | EmptyString => true
  | String c rest => negb (Ascii.eqb c GoString.space) && noSpace rest
  end.

(** The first byte is the comment mark [#]. *)
Definition isComment (str : string) : bool :=
  match str with
  | String c _ => Ascii.eqb c (Ascii.ascii_of_nat 35)
  | EmptyString => false
  end.

(** ** Sample inputs *)

(** The text made of the given lines, each ended by a newline. *)
Fixpoint text (lines : list string) : string :=
  match lines with
  | [] => EmptyString
  | l :: tl => String.append l (String GoString.newline (text tl))
  end.

(** [str] between two double quotes. *)
Definition quoted (str : string) : string :=
  String (Ascii.ascii_of_nat 34) (String.append str (String (Ascii.ascii_of_nat 34) EmptyString)).

(** A stand-in for strconv.Unquote in examples: it accepts a text between
    two double quotes that holds neither a quote, a backslash nor a newline,
    and rejects everything else. *)
Definition plainByte (c : ascii) : bool :=
  negb (Ascii.eqb c (Ascii.ascii_of_nat 34) || Ascii.eqb c (Ascii.ascii_of_nat 92)
        || Ascii.eqb c GoString.newline).

Fixpoint plainBody (str : string) : option string :=
  match str with
  | EmptyString => None
  | String c EmptyString =>
      if Ascii.eqb c (Ascii.ascii_of_nat 34) then Some EmptyString else None
  | String c rest =>
      if plainByte c
      then match plainBody rest with
           | Some b => Some (String c b)
           | None => None
           end
      else None
  end.

Definition UnquotePlain (str : string) : option string :=
  match str with
  | String c rest =>
      if Ascii.eqb c (Ascii.ascii_of_nat 34) then plainBody rest else None
  | EmptyString => None
  end.

(** A stand-in for x509.ParseCertificate in examples: a certificate is its
    DER text, accepted when it starts with the SEQUENCE tag 0x30. *)
Definition ParseCertificateTag (der : string) : option string :=
  match der with
  | String c _ => if Ascii.eqb c (Ascii.ascii_of_nat 48) then Some der else None
  | EmptyString => None
  end.

(** The four bytes 0x30 0x03 0x01 0x02. *)
Definition sampleDER : string :=
  String (Ascii.ascii_of_nat 48)
    (String (Ascii.ascii_of_nat 3)
       (String (Ascii.ascii_of_nat 1)
          (String (Ascii.ascii_of_nat 2) EmptyString))).

(** One certificate and its trust declaration. *)
Definition sampleTrusted : string :=
  text [ "# preamble"; "BEGINDATA";
         "CKA_CLASS CK_OBJECT_CLASS CKO_CERTIFICATE";
         String.append "CKA_LABEL UTF8 " (quoted "Acme Root");
         "CKA_VALUE MULTILINE_OCTAL";
         "\060\003\001\002";
         "END";
         "CKA_CLASS CK_OBJECT_CLASS CKO_NSS_TRUST";
         String.append "CKA_LABEL UTF8 " (quoted "Acme Root");
         "CKA_TRUST_SERVER_AUTH CK_TRUST CKT_NSS_TRUSTED_DELEGATOR";
         "CKA_TRUST_EMAIL_PROTECTION CK_TRUST CKT_NSS_MUST_VERIFY_TRUST";
         "CKA_TRUST_CODE_SIGNING CK_TRUST CKT_NSS_MUST_VERIFY_TRUST" ].

(** The input of the test TestValueScanErr: no BEGINDATA line. *)
Definition sampleNoBegin : string :=
  String.append "no begin" (String GoString.newline "line").

(** An octal block and a block of another encoding that the end of the
    input cuts short. *)
Definition sampleOpenOctal : string :=
  text [ "BEGINDATA"; "CKA_VALUE MULTILINE_OCTAL"; "\101\102" ].

Definition sampleOpenGeneric : string :=
  text [ "BEGINDATA"; "CKA_VALUE MULTILINE_HEX"; "4142" ].

(** An octal block whose second group has the digit 8. *)
Definition sampleBadGroup : string :=
  text [ "BEGINDATA"; "CKA_VALUE MULTILINE_OCTAL"; "\101\108\103"; "END" ].

(** An octal block whose line has six characters. *)
Definition sampleShortGroup : string :=
  text [ "BEGINDATA"; "CKA_VALUE MULTILINE_OCTAL"; "\101\1"; "END" ].

(** A UTF8 value of one character. *)
Definition sampleShortInline : string :=
  text [ "BEGINDATA"; "CKA_LABEL UTF8 x" ].

(** An input whose last value is a CKA_CLASS value. *)
Definition sampleLoneClass : string :=
  text [ "BEGINDATA"; "CKA_CLASS CK_OBJECT_CLASS CKO_CERTIFICATE" ].

(** Two objects, after a value that belongs to none. *)
Definition sampleTwoObjects : string :=
  text [ "BEGINDATA"; "CKA_PRIVATE CK_BBOOL CK_FALSE";
         "CKA_CLASS CK_OBJECT_CLASS CKO_CERTIFICATE"; "CKA_TOKEN CK_BBOOL CK_TRUE";
         "CKA_CLASS CK_OBJECT_CLASS CKO_NSS_TRUST"; "CKA_TOKEN CK_BBOOL CK_FALSE" ].

(** Values, none of them a CKA_CLASS value. *)
Definition sampleNoClass : string :=
  text [ "BEGINDATA"; "CKA_TOKEN CK_BBOOL CK_TRUE"; "CKA_PRIVATE CK_BBOOL CK_FALSE" ].

(** A trust declaration whose e-mail field is not in the vocabulary. *)
Definition sampleUnknown : string :=
  text [ "BEGINDATA";
         "CKA_CLASS CK_OBJECT_CLASS CKO_NSS_TRUST";
         String.append "CKA_LABEL UTF8 " (quoted "Acme Root");
         "CKA_TRUST_SERVER_AUTH CK_TRUST CKT_NSS_TRUSTED_DELEGATOR";
         "CKA_TRUST_EMAIL_PROTECTION CK_TRUST CKT_NSS_BOGUS";
         "CKA_TRUST_CODE_SIGNING CK_TRUST CKT_NSS_MUST_VERIFY_TRUST" ].

Definition trustDecl (label server email code : string) : gmap string string :=
  <["CKA_TRUST_CODE_SIGNING" := code]>
    (<["CKA_TRUST_EMAIL_PROTECTION" := email]>
       (<["CKA_TRUST_SERVER_AUTH" := server]>
          (<["CKA_LABEL" := label]> (<["CKA_CLASS" := "CKO_NSS_TRUST"]> ∅)))).

Definition unknownDecl : gmap string string :=
  trustDecl "Acme Root" "CKT_NSS_TRUSTED_DELEGATOR" "CKT_NSS_BOGUS"
            "CKT_NSS_MUST_VERIFY_TRUST".

Definition vetoedDecl : gmap string string :=
  trustDecl "Acme Root" "CKT_NSS_TRUSTED_DELEGATOR" "CKT_NSS_NOT_TRUSTED"
            "CKT_NSS_MUST_VERIFY_TRUST".

Definition grantingDecl : gmap string string :=
  trustDecl "Other Root" "CKT_NSS_TRUSTED_DELEGATOR" "CKT_NSS_MUST_VERIFY_TRUST"
            "CKT_NSS_MUST_VERIFY_TRUST".

(** ** Values in a row *)

(** [ScansValues Unquote ms values ms']: from [ms], as many calls of
    ScanValue as [values] has elements all return true, give these values
    in turn and leave the scanner [ms']. *)
Inductive ScansValues (Unquote : string -> option string)
    : MozScanner -> list MozValue -> MozScanner -> Prop :=
| ScansValues_nil (ms : MozScanner) : ScansValues Unquote ms [] ms
| ScansValues_cons (ms ms1 ms' : MozScanner) (values : list MozValue) :
    ScanValue Unquote ms = Ret (true, ms1) ->
    ScansValues Unquote ms1 values ms' ->
    ScansValues Unquote ms (ScannerValue ms1 :: values) ms'.

(** [object[value.Field] = value.Value] for the values in turn. *)
Definition insertAll (object : gmap string string) (values : list MozValue)
    : gmap string string :=
  fold_left (fun o v => <[Field v := Value v]> o) values object.

Definition notClass (value : MozValue) : Prop := Field value <> "CKA_CLASS".

(** A scanner past the header that stands after a CKA_CLASS value, with
    two values of one field and the next CKA_CLASS value ahead. *)
Definition sampleAfterClass : MozScanner :=
  mkMozScanner [ "CKA_TOKEN CK_BBOOL CK_TRUE"; "CKA_TOKEN CK_BBOOL CK_FALSE";
                 "CKA_CLASS CK_OBJECT_CLASS CKO_NSS_TRUST"; "CKA_MODIFIABLE CK_BBOOL CK_FALSE" ]
               2 true (mkMozValue "CKA_CLASS" "CK_OBJECT_CLASS" "CKO_CERTIFICATE")
               None ∅ None.

(** The same lines seen from a scanner whose last value is no CKA_CLASS
    value. *)
Definition sampleBeforeClass : MozScanner :=
  mkMozScanner [ "CKA_TOKEN CK_BBOOL CK_TRUE"; "CKA_TOKEN CK_BBOOL CK_FALSE";
                 "CKA_CLASS CK_OBJECT_CLASS CKO_NSS_TRUST"; "CKA_MODIFIABLE CK_BBOOL CK_FALSE" ]
               2 true (mkMozValue "CKA_PRIVATE" "CK_BBOOL" "CK_FALSE")
               None ∅ None.

(** ** The trust level of a declaration *)

(** The TrustLevel findTrusted builds from the three trust fields. *)
Definition levelOf (obj : gmap string string) : TrustLevel :=
  mkTrustLevel (String.eqb (obj_get obj "CKA_TRUST_SERVER_AUTH") "CKT_NSS_TRUSTED_DELEGATOR")
               (String.eqb (obj_get obj "CKA_TRUST_EMAIL_PROTECTION") "CKT_NSS_TRUSTED_DELEGATOR")
               (String.eqb (obj_get obj "CKA_TRUST_CODE_SIGNING") "CKT_NSS_TRUSTED_DELEGATOR").

(** The tests an object passes on its way to [trusted[label] = trust]: it
    is a trust declaration, none of its three fields is CKT_NSS_NOT_TRUSTED
    and one of them at least is CKT_NSS_TRUSTED_DELEGATOR. *)
Definition grants (obj : gmap string string) : bool :=
  String.eqb (obj_get obj "CKA_CLASS") "CKO_NSS_TRUST"
  && negb (String.eqb (obj_get obj "CKA_TRUST_SERVER_AUTH") "CKT_NSS_NOT_TRUSTED"
           || String.eqb (obj_get obj "CKA_TRUST_EMAIL_PROTECTION") "CKT_NSS_NOT_TRUSTED"
           || String.eqb (obj_get obj "CKA_TRUST_CODE_SIGNING") "CKT_NSS_NOT_TRUSTED")
  && hasPurpose (levelOf obj).

(** ** gencerts: hasNeg *)

Section HasNeg.

Variable Certificate : Type.

(** [cert.SerialNumber.Sign()] of a parsed certificate. *)
Variable Sign : Certificate -> Z.

(** hasNeg; reading [cert.Cert.SerialNumber] through a nil pointer is a
    panic. *)
Fixpoint hasNeg (certs : list (Cert Certificate)) : outcome bool :=
  match certs with
  | [] => Ret false
  | cert :: rest =>
      match Cert' cert with
      | None => Panic
      | Some x => if Sign x <? 0 then Ret true else hasNeg rest
      end
  end.

End HasNeg.

(** ** gencerts: fmt16name *)

Module Filepath.

Definition slash : ascii := Ascii.ascii_of_nat 47.
Definition dot : ascii := Ascii.ascii_of_nat 46.

(** The loop of filepath.Ext, [for i := len(path) - 1; i >= 0 &&
    !os.IsPathSeparator(path[i]); i--], with the slash as the path
    separator: [before] holds [path[:i+1]] from its last byte to its
    first, [acc] is [path[i+1:]]. *)
Fixpoint ExtLoop (before : list ascii) (acc : string) : string :=
  match before with
  | [] => EmptyString
  | c :: before' =>
      if Ascii.eqb c slash then EmptyString
      else if Ascii.eqb c dot then String c acc
      else ExtLoop before' (String c acc)
  end.

Definition Ext (path : string) : string :=
  ExtLoop (List.rev (list_ascii_of_string path)) EmptyString.

End Filepath.

Definition fmt16name (name : string) : outcome string :=
  let ext := Filepath.Ext name in
  if negb (String.eqb ext EmptyString)
  then
    match GoString.slice name 0 (GoString.len name - GoString.len ext) with
    | Some stem => Ret (stem +:+ "_16" +:+ ext)
    | None => Panic
    end
  else Ret EmptyString.

(** No byte of the text is a dot or a slash. *)
Fixpoint plainName (str : string) : bool :=
  match str with
  | EmptyString => true
  | String c rest =>
      negb (Ascii.eqb c Filepath.slash) && negb (Ascii.eqb c Filepath.dot) && plainName rest
  end.

(** ** The generated package: CertsByTrust

    The text gencerts writes (template "main") declares a TrustLevel of
    type int with one bit for every purpose, and selects certificates by
    these bits. *)

Module Generated.

Definition ServerTrustedDelegator : Z := Z.shiftl 1 0.
Definition EmailTrustedDelegator : Z := Z.shiftl 1 1.
Definition CodeTrustedDelegator : Z := Z.shiftl 1 2.

Record Cert : Type := mkCert {
  Label : string;
  Serial : string;
  Trust : Z;
  DER : string }.

(** CertsByTrust over the generated list [certs]. *)
Fixpoint CertsByTrust (certs : list Cert) (t : Z) : list Cert :=
  match certs with
  | [] => []
  | c :: rest =>
      if Z.land (Trust c) t =? t
      then c :: CertsByTrust rest t
      else CertsByTrust rest t
  end.

End Generated.

(** ** gencerts: indentBytes *)

Module Fmt.

(** A digit of [%x]. *)
Definition hexDigit (d : N) : ascii :=
  if (d <? 10)%N then Ascii.ascii_of_N (48 + d) else Ascii.ascii_of_N (87 + d).

(** A byte as [%#v] prints it inside a byte slice: [0x] and the hexadecimal
    digits of its value, with no leading zero. *)
Definition hexByte (b : ascii) : string :=
  let n := Ascii.N_of_ascii b in
  String (Ascii.ascii_of_nat 48) (String (Ascii.ascii_of_nat 120)
    (if (n <? 16)%N then String (hexDigit n) EmptyString
     else String (hexDigit (n / 16)) (String (hexDigit (n mod 16)) EmptyString))).

(** The elements, a comma and a space between two of them. *)
Fixpoint elements (data : string) : string :=
  match data with
  | EmptyString => EmptyString
  | String b EmptyString => hexByte b
  | String b rest => hexByte b +:+ ", " +:+ elements rest
  end.

(** [fmt.Sprintf("%#v", data)] for a byte slice that is not nil. *)
Definition SprintfSharpV (data : string) : string :=
  "[]byte{" +:+ elements data +:+ "}".

End Fmt.

Module Strings.

(** [strings.IndexByte(str, c)]: the index of the first [c], or -1. *)
Fixpoint IndexByte (str : string) (c : ascii) : Z :=
  match str with
  | EmptyString => -1
  | String x rest =>
      if Ascii.eqb x c then 0
      else let i := IndexByte rest c in if i <? 0 then -1 else i + 1
  end.

(** The white space of ASCII: tab, newline, vertical tab, form feed,
    carriage return and space. *)
Definition isSpace (c : ascii) : bool :=
  let n := Ascii.N_of_ascii c in
  ((9 <=? n) && (n <=? 13) || (n =? 32))%N.

Fixpoint trimLeft (str : string) : string :=
  match str with
  | EmptyString => EmptyString
  | String c rest => if isSpace c then trimLeft rest else str
  end.

Fixpoint trimRight (str : string) : string :=
  match str with
  | EmptyString => EmptyString
  | String c rest =>
      match trimRight rest with
      | EmptyString => if isSpace c then EmptyString else String c EmptyString
      | kept => String c kept
      end
  end.

(** [strings.TrimSpace(str)] for a text of ASCII bytes, as the texts
    indentBytes gives it are. *)
Definition TrimSpace (str : string) : string := trimRight (trimLeft str).

(** [strings.Repeat(str, count)] *)
Fixpoint Repeat (str : string) (count : nat) : string :=
  match count with
  | O => EmptyString
  | S count' => str +:+ Repeat str count'
  end.

End Strings.

Definition indent : nat := 3.
Definition indentWrap : Z := 64.

Definition idt : string := Strings.Repeat (String (Ascii.ascii_of_nat 9) EmptyString) indent.

(** The loop of indentBytes: [str] is the text still to be written, [out]
    the text written.  Each turn takes at least 65 bytes off [str]; [fuel]
    bounds the number of turns. *)
Fixpoint indentLoop (fuel : nat) (line : Z) (str out : string)
    : outcome (string * string) :=
  if GoString.len str >? indentWrap
  then
    match fuel with
    | O => OutOfFuel
    | S fuel' =>
        match GoString.slice_from str indentWrap with
        | None => Panic
        | Some tail =>
            let sp := Strings.IndexByte tail (Ascii.ascii_of_nat 44) in
            if sp >? -1
            then
              let out1 := if line >? 0 then out +:+ idt else out in
              match GoString.slice str 0 (indentWrap + sp + 1) with
              | None => Panic
              | Some chunk =>
                  let out2 := out1 +:+ Strings.TrimSpace chunk
                              +:+ String GoString.newline EmptyString in
                  match GoString.slice_from str (indentWrap + sp + 1) with
                  | None => Panic
                  | Some rest => indentLoop fuel' (line + 1) rest out2
                  end
              end
            else Ret (str, out)
        end
    end
  else Ret (str, out).

Definition indentBytes (data : string) : outcome string :=
  let str := Fmt.SprintfSharpV data in
  let* r := indentLoop (String.length str) 0 str EmptyString in
  match r with
  | (str', out) => Ret (out +:+ idt +:+ Strings.TrimSpace str')
  end.

(** The text without its white space. *)
Fixpoint stripSpace (str : string) : string :=
  match str with
  | EmptyString => EmptyString
  | String c rest => if Strings.isSpace c then stripSpace rest else String c (stripSpace rest)
  end.







(** ** The value scanner: results and termination

    ScanValue has no loop without a bound: it returns or panics.  A call
    that returns true has shortened the stream, and the only error a call
    ever stores is the one of skipHeader. *)

Lemma octalGroups_finished (n : nat) :
  forall rest v, (String.length rest <= n)%nat -> finished (octalGroups rest v).
Proof.
  unfold finished. induction n as [|n IH]; intros rest v Hlen.
  - destruct rest; [discriminate | simpl in Hlen; lia].
  - destruct rest as [|c0 [|c1 [|c2 [|c3 rest']]]]; cbn [octalGroups]; try discriminate.
    destruct (Strconv.ParseInt _); [|discriminate].
    apply IH. simpl in Hlen. lia.
Qed.

Lemma readMultiline_loop_finished {A : Type}
    (process : string -> A -> outcome (option error * A)) :
  (forall line acc, finished (process line acc)) ->
  forall lines n acc, finished (readMultiline_loop process lines n acc).
Proof.
  unfold finished. intros Hp. induction lines as [|line rest IH]; intros n acc;
    cbn [readMultiline_loop]; [discriminate|].
  destruct (String.eqb line "END"); [discriminate|].
  specialize (Hp line acc).
  destruct (process line acc) as [[[e|] acc']| |]; cbn [bind];
    [discriminate | apply IH | discriminate | contradiction].
Qed.

Lemma readMultiline_loop_length {A : Type}
    (process : string -> A -> outcome (option error * A)) :
  forall lines n acc e acc' rest' n',
  readMultiline_loop process lines n acc = Ret (e, acc', (rest', n')) ->
  (length rest' <= length lines)%nat.
Proof.
  induction lines as [|line rest IH]; intros n acc e acc' rest' n';
    cbn [readMultiline_loop].
  - intros [= <- <- <- <-]. reflexivity.
  - destruct (String.eqb line "END").
    + intros [= <- <- <- <-]. simpl. lia.
    + destruct (process line acc) as [[[e0|] acc0]| |]; cbn [bind]; try discriminate.
      * intros [= <- <- <- <-]. simpl. lia.
      * intros H. apply IH in H. simpl. lia.
Qed.

Lemma readMultilineOctal_spec (ms : MozScanner) :
  finished (readMultilineOctal ms) /\
  forall v e ms', readMultilineOctal ms = Ret (v, e, ms') ->
    e = None /\ (length (s ms') <= length (s ms))%nat /\
    valueError ms' = valueError ms.
Proof.
  unfold readMultilineOctal, readMultiline, finished.
  pose proof (readMultiline_loop_finished octalProcess
                (fun line acc => octalGroups_finished _ line acc (le_n _))
                (s ms) (ln ms) EmptyString) as Hf.
  pose proof (readMultiline_loop_length octalProcess (s ms) (ln ms) EmptyString) as Hl.
  destruct (readMultiline_loop octalProcess (s ms) (ln ms) EmptyString)
    as [[[e0 acc0] [rest0 n0]]| |]; cbn [bind].
  - split; [discriminate|]. intros v e ms' [= <- <- <-].
    split; [reflexivity|]. split; [|reflexivity].
    simpl. eapply Hl. reflexivity.
  - split; [discriminate|]. discriminate.
  - exfalso. apply Hf. reflexivity.
Qed.

Lemma readMultilineGeneric_spec (ms : MozScanner) :
  finished (readMultilineGeneric ms) /\
  forall v e ms', readMultilineGeneric ms = Ret (v, e, ms') ->
    e = None /\ (length (s ms') <= length (s ms))%nat /\
    valueError ms' = valueError ms.
Proof.
  unfold readMultilineGeneric, readMultiline, finished.
  pose proof (readMultiline_loop_finished genericProcess
                (fun line acc => ltac:(discriminate) : finished (genericProcess line acc))
                (s ms) (ln ms) []) as Hf.
  pose proof (readMultiline_loop_length genericProcess (s ms) (ln ms) []) as Hl.
  destruct (readMultiline_loop genericProcess (s ms) (ln ms) [])
    as [[[e0 acc0] [rest0 n0]]| |]; cbn [bind].
  - split; [discriminate|]. intros v e ms' [= <- <- <-].
    split; [reflexivity|]. split; [|reflexivity].
    simpl. eapply Hl. reflexivity.
  - split; [discriminate|]. discriminate.
  - exfalso. apply Hf. reflexivity.
Qed.

(** What a line that is not skipped does to the scanner: the result is
    true (the error branches after the two multiline readers are never
    taken), the stream has not grown and no error has been stored. *)
Lemma scanLine_spec (Unquote : string -> option string) (line : string) (ms : MozScanner) :
  finished (scanLine Unquote line ms) /\
  forall b ms', scanLine Unquote line ms = Ret (Some (b, ms')) ->
    b = true /\ (length (s ms') <= length (s ms))%nat /\
    valueError ms' = valueError ms.
Proof.
  assert (Hemit : forall m field ftype value,
             finished (emit m field ftype value) /\
             forall b ms', emit m field ftype value = Ret (Some (b, ms')) ->
               b = true /\ (length (s ms') <= length (s m))%nat /\
               valueError ms' = valueError m).
  { intros m field ftype value. split; [discriminate|].
    intros b ms' [= <- <-]. simpl. auto. }
  unfold scanLine.
  destruct line as [|c0 line']; [split; [discriminate|discriminate]|].
  destruct (Ascii.eqb c0 _); [split; [discriminate|discriminate]|].
  destruct (GoString.SplitN _ 3) as [|field [|ftype inline]];
    try (split; [discriminate|discriminate]).
  assert (Hrest :
    finished
      (if GoString.HasPrefix ftype "MULTILINE"
       then match GoString.slice_from ftype (GoString.len "MULTILINE_") with
            | None => Panic
            | Some mltype =>
                if String.eqb mltype "OCTAL"
                then bind (readMultilineOctal ms)
                       (fun r => match r with
                                 | (_, Some e, ms') => fail ms' e
                                 | (value, None, ms') => emit ms' field ftype value
                                 end)
                else bind (readMultilineGeneric ms)
                       (fun r => match r with
                                 | (_, Some e, ms') => fail ms' e
                                 | (_, None, ms') => emit ms' field ftype EmptyString
                                 end)
            end
       else match inline with
            | p2 :: _ => emit ms field ftype p2
            | [] => emit ms field ftype EmptyString
            end) /\
    forall b ms',
      (if GoString.HasPrefix ftype "MULTILINE"
       then match GoString.slice_from ftype (GoString.len "MULTILINE_") with
            | None => Panic
            | Some mltype =>
                if String.eqb mltype "OCTAL"
                then bind (readMultilineOctal ms)
                       (fun r => match r with
                                 | (_, Some e, ms') => fail ms' e
                                 | (value, None, ms') => emit ms' field ftype value
                                 end)
                else bind (readMultilineGeneric ms)
                       (fun r => match r with
                                 | (_, Some e, ms') => fail ms' e
                                 | (_, None, ms') => emit ms' field ftype EmptyString
                                 end)
            end
       else match inline with
            | p2 :: _ => emit ms field ftype p2
            | [] => emit ms field ftype EmptyString
            end) = Ret (Some (b, ms')) ->
      b = true /\ (length (s ms') <= length (s ms))%nat /\
      valueError ms' = valueError ms).
  { destruct (GoString.HasPrefix ftype "MULTILINE").
    - destruct (GoString.slice_from ftype _) as [mltype|];
        [|split; [discriminate|discriminate]].
      destruct (String.eqb mltype "OCTAL").
      + destruct (readMultilineOctal_spec ms) as [Hf Hr].
        destruct (readMultilineOctal ms) as [[[v e] ms1]| |]; cbn [bind].
        * destruct (Hr v e ms1 eq_refl) as (-> & Hlen & Hve).
          split; [discriminate|]. intros b ms' [= <- <-]. simpl. auto.
        * split; [discriminate|discriminate].
        * exfalso. apply Hf. reflexivity.
      + destruct (readMultilineGeneric_spec ms) as [Hf Hr].
        destruct (readMultilineGeneric ms) as [[[v e] ms1]| |]; cbn [bind].
        * destruct (Hr v e ms1 eq_refl) as (-> & Hlen & Hve).
          split; [discriminate|]. intros b ms' [= <- <-]. simpl. auto.
        * split; [discriminate|discriminate].
        * exfalso. apply Hf. reflexivity.
    - destruct inline; apply Hemit. }
  destruct (String.eqb ftype "UTF8"); [|exact Hrest].
  destruct inline as [|p2 tl]; [exact Hrest|].
  destruct (Unquote p2); [apply Hemit|].
  destruct (GoString.slice p2 1 _); [apply Hemit|].
  split; [discriminate|discriminate].
Qed.

Lemma ScanValue_loop_spec (Unquote : string -> option string) :
  forall lines ms, s ms = lines ->
  finished (ScanValue_loop Unquote lines ms) /\
  forall b ms', ScanValue_loop Unquote lines ms = Ret (b, ms') ->
    valueError ms' = valueError ms /\
    (length (s ms') <= length lines)%nat /\
    (b = true -> (length (s ms') < length lines)%nat) /\
    (b = false -> s ms' = []).
Proof.
  induction lines as [|line rest IH]; intros ms Hs; cbn [ScanValue_loop].
  - split; [discriminate|]. intros b ms' [= <- <-].
    rewrite Hs. split; [reflexivity|]. split; [reflexivity|].
    split; [discriminate | reflexivity].
  - set (ms1 := set_stream ms rest (ln ms + 1)).
    destruct (scanLine_spec Unquote line ms1) as [Hf Hr].
    destruct (scanLine Unquote line ms1) as [[[b1 ms2]|]| |]; cbn [bind].
    + destruct (Hr b1 ms2 eq_refl) as (-> & Hlen & Hve).
      split; [discriminate|]. intros b ms' [= <- <-].
      change (s ms1) with rest in Hlen. change (valueError ms1) with (valueError ms) in Hve.
      simpl length. split; [exact Hve|]. split; [lia|].
      split; [intros _; lia | discriminate].
    + destruct (IH ms1 eq_refl) as [Hf' Hr']. split; [exact Hf'|].
      intros b ms' H. destruct (Hr' b ms' H) as (Hve & Hlen & Ht & Hfalse).
      change (valueError ms1) with (valueError ms) in Hve. simpl length.
      split; [exact Hve|]. split; [lia|].
      split; [intros Hb; specialize (Ht Hb); lia | exact Hfalse].
    + split; [discriminate|discriminate].
    + exfalso. apply Hf. reflexivity.
Qed.

Lemma skipHeader_loop_length (lines : list string) :
  forall n rest n' b, skipHeader_loop lines n = (rest, n', b) ->
  (length rest <= length lines)%nat.
Proof.
  induction lines as [|line tl IH]; intros n rest n' b; cbn [skipHeader_loop].
  - intros [= <- <- <-]. reflexivity.
  - destruct (String.eqb line "BEGINDATA").
    + intros [= <- <- <-]. simpl. lia.
    + intros H. apply IH in H. simpl. lia.
Qed.

(** ScanValue has a result or panics; a call that returns true has taken at
    least one line; the only error it ever stores is the one of skipHeader. *)
Lemma ScanValue_spec (Unquote : string -> option string) (ms : MozScanner) :
  finished (ScanValue Unquote ms) /\
  forall b ms', ScanValue Unquote ms = Ret (b, ms') ->
    (length (s ms') <= length (s ms))%nat /\
    (b = true -> (length (s ms') < length (s ms))%nat /\ valueError ms' = None) /\
    (forall e, valueError ms' = Some e ->
               e = ErrNoBeginData /\ skippedHeader ms = false /\ b = false).
Proof.
  unfold ScanValue.
  change (skippedHeader (set_valueError ms None)) with (skippedHeader ms).
  change (s (set_valueError ms None)) with (s ms).
  destruct (skippedHeader ms) eqn:Hsk.
  - destruct (ScanValue_loop_spec Unquote (s ms) (set_valueError ms None) eq_refl)
      as [Hf Hr].
    split; [exact Hf|]. intros b ms' H.
    destruct (Hr b ms' H) as (Hve & Hlen & Ht & _). simpl in Hve.
    split; [exact Hlen|]. split; [auto|].
    intros e He. congruence.
  - unfold skipHeader.
    change (s (set_valueError ms None)) with (s ms).
    change (ln (set_valueError ms None)) with (ln ms).
    pose proof (skipHeader_loop_length (s ms) (ln ms)) as Hsl.
    destruct (skipHeader_loop (s ms) (ln ms)) as [[rest n] found].
    specialize (Hsl rest n found eq_refl).
    destruct found.
    + set (ms1 := set_skippedHeader (set_stream (set_valueError ms None) rest n) true).
      destruct (ScanValue_loop_spec Unquote (s ms1) ms1 eq_refl) as [Hf Hr].
      split; [exact Hf|]. intros b ms' H.
      destruct (Hr b ms' H) as (Hve & Hlen & Ht & _).
      change (s ms1) with rest in Hlen, Ht. simpl in Hve.
      split; [lia|]. split.
      * intros Hb. specialize (Ht Hb). split; [lia | exact Hve].
      * intros e He. congruence.
    + split; [discriminate|]. intros b ms' [= <- <-]. simpl.
      split; [exact Hsl|]. split; [discriminate|].
      intros e [= <-]. auto.
Qed.

(** The error ScanValue stores is never one of a multiline value: after the
    header has been found no call leaves an error behind, whatever the
    block it reads looks like. *)
Lemma ScanValue_after_header_no_error (Unquote : string -> option string)
    (ms : MozScanner) (b : bool) (ms' : MozScanner) :
  skippedHeader ms = true ->
  ScanValue Unquote ms = Ret (b, ms') ->
  ScanValueError ms' = None.
Proof.
  intros Hsk H. destruct (ScanValue_spec Unquote ms) as [_ Hr].
  destruct (Hr b ms' H) as (_ & _ & He).
  unfold ScanValueError. destruct (valueError ms') as [e|]; [|reflexivity].
  destruct (He e eq_refl) as (_ & Hf & _). congruence.
Qed.

(** ** The value scanner: the header *)

Lemma skipHeader_loop_missing (lines : list string) (n : Z) :
  ~ In "BEGINDATA" lines ->
  skipHeader_loop lines n = ([], n + Z.of_nat (length lines), false).
Proof.
  revert n. induction lines as [|line rest IH]; intros n Hno; simpl skipHeader_loop.
  - f_equal. f_equal. simpl. lia.
  - destruct (String.eqb line "BEGINDATA") eqn:E.
    + apply String.eqb_eq in E. exfalso. apply Hno. left. exact E.
    + rewrite IH by (intros H; apply Hno; right; exact H).
      f_equal. f_equal. simpl length. lia.
Qed.

(** Without a BEGINDATA line ScanValue takes every line, stores the error
    and returns false. *)
Lemma ScanValue_header_missing (Unquote : string -> option string) (ms : MozScanner) :
  skippedHeader ms = false -> ~ In "BEGINDATA" (s ms) ->
  ScanValue Unquote ms =
  Ret (false,
       mkMozScanner [] (ln ms + Z.of_nat (length (s ms))) false (lastValue ms)
                    (Some ErrNoBeginData) (lastObject ms) (objectError ms)).
Proof.
  intros Hsk Hno. unfold ScanValue, skipHeader. simpl.
  rewrite (skipHeader_loop_missing _ _ Hno). rewrite Hsk.
  unfold set_valueError, set_stream. simpl. rewrite Hsk. reflexivity.
Qed.

(** C6. On an input with no line equal to BEGINDATA the first ScanValue
    returns false and ScanValueError gives an error; the value of the
    scanner is still the zero value, and the scanner is then in a state that
    ScanValue maps to itself with the result false, so that any number of
    further calls return false without producing a value. *)
Theorem ScanValue_no_BEGINDATA (Unquote : string -> option string) (f : string) :
  ~ In "BEGINDATA" (Bufio.ScanLines f) ->
  exists ms1,
    ScanValue Unquote (NewMozScanner f) = Ret (false, ms1) /\
    ScanValueError ms1 = Some ErrNoBeginData /\
    ScannerValue ms1 = zeroValue /\
    ScanValue Unquote ms1 = Ret (false, ms1) /\
    forall n, ScanValue_calls Unquote n ms1 = Ret (repeat false n, ms1).
Proof.
  intros Hno.
  set (ms1 := mkMozScanner [] (0 + Z.of_nat (length (Bufio.ScanLines f))) false zeroValue
                (Some ErrNoBeginData) ∅ None).
  assert (Hfix : ScanValue Unquote ms1 = Ret (false, ms1)).
  { rewrite ScanValue_header_missing; [|reflexivity|simpl; tauto].
    simpl. rewrite Z.add_0_r. reflexivity. }
  exists ms1. split; [|split; [|split; [|split]]].
  - rewrite ScanValue_header_missing; [reflexivity|reflexivity|exact Hno].
  - reflexivity.
  - reflexivity.
  - exact Hfix.
  - induction n as [|n IH]; [reflexivity|].
    cbn [ScanValue_calls]. rewrite Hfix. cbn [bind]. rewrite IH. reflexivity.
Qed.

Lemma ScanValue_no_BEGINDATA_witness :
  exists ms1,
    ScanValue UnquotePlain (NewMozScanner sampleNoBegin) = Ret (false, ms1) /\
    ScanValueError ms1 = Some ErrNoBeginData /\
    ScannerValue ms1 = zeroValue /\
    ScanValue UnquotePlain ms1 = Ret (false, ms1) /\
    forall n, ScanValue_calls UnquotePlain n ms1 = Ret (repeat false n, ms1).
Proof.
  apply (ScanValue_no_BEGINDATA UnquotePlain sampleNoBegin).
  vm_compute. intros [H|[H|[]]]; discriminate H.
Defined.

(** ** The value scanner: multiline values *)

(** C4. An octal block, and a block of another encoding, that the end of the
    input cuts short: readMultiline returns its end-of-input error, the two
    readers drop it, and ScanValue returns true with a value made of the
    bytes read so far (the empty string for the other encoding) and no
    error to retrieve. *)
Theorem ScanValue_unterminated_multiline (Unquote : string -> option string) :
  ScanValue Unquote (NewMozScanner sampleOpenOctal) =
    Ret (true, mkMozScanner [] 3 true
                 (mkMozValue "CKA_VALUE" "MULTILINE_OCTAL" "AB") None ∅ None) /\
  ScanValue Unquote (NewMozScanner sampleOpenGeneric) =
    Ret (true, mkMozScanner [] 3 true
                 (mkMozValue "CKA_VALUE" "MULTILINE_HEX" EmptyString) None ∅ None).
Proof. split; reflexivity. Qed.

(** C5. An octal block whose second group is not octal: the closure returns
    the error of ParseInt, readMultilineOctal drops it, and ScanValue returns
    true with the one byte decoded before it and no error; the rest of the
    block stays in the stream, and the next call reaches the end of the
    input, again with no error. *)
Theorem ScanValue_malformed_octal_group (Unquote : string -> option string) :
  let ms1 := mkMozScanner ["END"] 3 true
               (mkMozValue "CKA_VALUE" "MULTILINE_OCTAL" "A") None ∅ None in
  ScanValue Unquote (NewMozScanner sampleBadGroup) = Ret (true, ms1) /\
  ScanValueError ms1 = None /\
  exists ms2, ScanValue Unquote ms1 = Ret (false, ms2) /\ ScanValueError ms2 = None.
Proof.
  split; [reflexivity|]. split; [reflexivity|].
  eexists. split; reflexivity.
Qed.

(** ** The value scanner: the UTF8 branch *)

Lemma Cut_first_space (a b : string) :
  noSpace a = true ->
  GoString.Cut (a +:+ String GoString.space b) = Some (a, b).
Proof.
  induction a as [|c a IH]; simpl; intros H.
  - reflexivity.
  - apply andb_true_iff in H as [Hc Ha].
    apply negb_true_iff in Hc. rewrite Hc. rewrite (IH Ha). reflexivity.
Qed.

Lemma SplitN_utf8_line (field inline : string) :
  noSpace field = true ->
  GoString.SplitN (field +:+ " UTF8 " +:+ inline) 3 = [field; "UTF8"; inline].
Proof.
  intros H. cbn [GoString.SplitN].
  change (" UTF8 " +:+ inline) with (String GoString.space ("UTF8 " +:+ inline)).
  rewrite (Cut_first_space _ _ H). reflexivity.
Qed.

Lemma slice_short_panics (inline : string) :
  (String.length inline < 2)%nat ->
  GoString.slice inline 1 (GoString.len inline - 1) = None.
Proof.
  destruct inline as [|c1 [|c2 tl]]; simpl; intros H; try reflexivity; lia.
Qed.

Lemma scanLine_short_utf8 (Unquote : string -> option string)
    (field inline : string) (ms : MozScanner) :
  noSpace field = true -> isComment field = false ->
  (String.length inline < 2)%nat -> Unquote inline = None ->
  scanLine Unquote (field +:+ " UTF8 " +:+ inline) ms = Panic.
Proof.
  intros Hns Hc Hlen Hu. unfold scanLine.
  rewrite (SplitN_utf8_line _ _ Hns).
  replace (String.eqb "UTF8" "UTF8") with true by reflexivity.
  rewrite Hu, (slice_short_panics _ Hlen).
  destruct field as [|c f]; simpl.
  - reflexivity.
  - simpl in Hc. rewrite Hc. reflexivity.
Qed.

(** C9. A line [<field> UTF8 <inline>] whose inline text has fewer than two
    characters and is rejected by Unquote: the slice that strips the quotes
    is out of range and ScanValue panics. *)
Theorem ScanValue_short_utf8_panics (Unquote : string -> option string)
    (ms : MozScanner) (field inline : string) (rest : list string) :
  skippedHeader ms = true ->
  s ms = (field +:+ " UTF8 " +:+ inline) :: rest ->
  noSpace field = true -> isComment field = false ->
  (String.length inline < 2)%nat ->
  Unquote inline = None ->
  ScanValue Unquote ms = Panic.
Proof.
  intros Hsk Hs Hns Hc Hlen Hu. unfold ScanValue.
  change (skippedHeader (set_valueError ms None)) with (skippedHeader ms).
  change (s (set_valueError ms None)) with (s ms).
  rewrite Hsk, Hs. cbn [ScanValue_loop].
  rewrite (scanLine_short_utf8 Unquote _ _ _ Hns Hc Hlen Hu). reflexivity.
Qed.

Lemma ScanValue_short_utf8_panics_witness :
  ScanValue UnquotePlain
    (mkMozScanner ["CKA_LABEL UTF8 x"] 1 true zeroValue None ∅ None) = Panic /\
  ScanValue UnquotePlain (NewMozScanner sampleShortInline) = Panic.
Proof.
  split; [|reflexivity].
  apply (ScanValue_short_utf8_panics UnquotePlain _ "CKA_LABEL" "x" []).
  - reflexivity.
  - reflexivity.
  - reflexivity.
  - reflexivity.
  - simpl. lia.
  - reflexivity.
Defined.

(** ** The octal decoder on encoded text *)

Lemma append_empty_r (str : string) : str +:+ EmptyString = str.
Proof.
  induction str as [|c str IH]; [reflexivity|].
  change (String c (str +:+ EmptyString) = String c str). f_equal. exact IH.
Qed.

Lemma append_snoc (v : string) (b : ascii) (tl : string) :
  (v +:+ String b EmptyString) +:+ tl = v +:+ String b tl.
Proof.
  induction v as [|c v IH]; [reflexivity|].
  change (String c ((v +:+ String b EmptyString) +:+ tl) = String c (v +:+ String b tl)).
  f_equal. exact IH.
Qed.

Lemma append_assoc (a b c : string) : (a +:+ b) +:+ c = a +:+ (b +:+ c).
Proof.
  induction a as [|x a IH]; [reflexivity|].
  change (String x ((a +:+ b) +:+ c) = String x (a +:+ (b +:+ c))).
  f_equal. exact IH.
Qed.

Lemma octalGroups_encodeByte (b : ascii) (tl v : string) :
  octalGroups (encodeByte b tl) v = octalGroups tl (v +:+ String b EmptyString).
Proof. destruct b as [[] [] [] [] [] [] [] []]; reflexivity. Qed.

Lemma octalGroups_encodeOctal (bytes v : string) :
  octalGroups (encodeOctal bytes) v = Ret (None, v +:+ bytes).
Proof.
  revert v. induction bytes as [|b tl IH]; intros v; cbn [encodeOctal].
  - rewrite append_empty_r. reflexivity.
  - rewrite octalGroups_encodeByte, IH, append_snoc. reflexivity.
Qed.

Lemma encodeOctal_length (bytes : string) :
  String.length (encodeOctal bytes) = (4 * String.length bytes)%nat.
Proof.
  induction bytes as [|b tl IH]; [reflexivity|].
  cbn [encodeOctal encodeByte String.length]. rewrite IH. lia.
Qed.

Lemma encodeOctal_not_END (bytes : string) :
  String.eqb (encodeOctal bytes) "END" = false.
Proof. destruct bytes; reflexivity. Qed.

Lemma readMultiline_loop_encoded (chunks : list string) (rest : list string) :
  forall (n : Z) (v : string),
  readMultiline_loop octalProcess (map encodeOctal chunks ++ "END" :: rest) n v =
  Ret (None, v +:+ allBytes chunks, (rest, n + Z.of_nat (length chunks) + 1)).
Proof.
  induction chunks as [|c chunks IH]; intros n v.
  - cbn [map app readMultiline_loop allBytes fold_right length].
    replace (String.eqb "END" "END") with true by reflexivity.
    rewrite append_empty_r. do 3 f_equal. lia.
  - cbn [map app readMultiline_loop]. rewrite encodeOctal_not_END.
    unfold octalProcess at 1. rewrite octalGroups_encodeOctal. cbn [bind].
    rewrite IH. cbn [allBytes fold_right]. rewrite append_assoc.
    do 3 f_equal. cbn [length]. lia.
Qed.

(** C8. The text of a byte sequence has four characters for every byte, and
    the closure of the octal reader decodes it to the sequence itself.  For a
    block whose lines are the texts of the chunks of a sequence, followed by
    END, readMultilineOctal returns the bytes of all chunks in order, and
    ScanValue gives the value made of them.  Decoding the text of a decoded
    value therefore gives that value again. *)
Theorem octal_decode_encode :
  (forall bytes, String.length (encodeOctal bytes) = (4 * String.length bytes)%nat) /\
  (forall bytes v, octalProcess (encodeOctal bytes) v = Ret (None, v +:+ bytes)) /\
  (forall ms chunks rest n,
      readMultilineOctal (set_stream ms (map encodeOctal chunks ++ "END" :: rest) n) =
      Ret (allBytes chunks, None,
           set_stream ms rest (n + Z.of_nat (length chunks) + 1))) /\
  (forall Unquote chunks rest n lv ve lo oe,
      ScanValue Unquote
        (mkMozScanner ("CKA_VALUE MULTILINE_OCTAL" :: map encodeOctal chunks ++ "END" :: rest)
                      n true lv ve lo oe) =
      Ret (true,
           mkMozScanner rest (n + 1 + Z.of_nat (length chunks) + 1) true
                        (mkMozValue "CKA_VALUE" "MULTILINE_OCTAL" (allBytes chunks))
                        None lo oe)).
Proof.
  assert (Hrd : forall ms chunks rest n,
      readMultilineOctal (set_stream ms (map encodeOctal chunks ++ "END" :: rest) n) =
      Ret (allBytes chunks, None,
           set_stream ms rest (n + Z.of_nat (length chunks) + 1))).
  { intros ms chunks rest n. unfold readMultilineOctal, readMultiline.
    cbn [s ln set_stream]. rewrite readMultiline_loop_encoded. reflexivity. }
  split; [exact encodeOctal_length|].
  split; [intros bytes v; apply octalGroups_encodeOctal|].
  split; [exact Hrd|].
  intros Unquote chunks rest n lv ve lo oe.
  unfold ScanValue. cbn [set_valueError skippedHeader s ScanValue_loop].
  match goal with
  | |- context [scanLine ?U ?l ?m] =>
      assert (Hl : scanLine U l m =
                   bind (readMultilineOctal m)
                        (fun r => match r with
                                  | (_, Some e, ms') => fail ms' e
                                  | (value, None, ms') =>
                                      emit ms' "CKA_VALUE" "MULTILINE_OCTAL" value
                                  end)) by reflexivity;
      rewrite Hl; clear Hl
  end.
  cbn [ln lastValue valueError lastObject objectError skippedHeader].
  unfold set_stream at 1. cbn [ln lastValue valueError lastObject objectError skippedHeader s].
  match goal with
  | |- context [readMultilineOctal ?m] =>
      change m with (set_stream m (map encodeOctal chunks ++ "END" :: rest) (n + 1))
  end.
  rewrite Hrd. reflexivity.
Qed.

(** ** Octal lines with a short last group *)

(** A line whose length is not a multiple of four is never decoded to the
    end: the closure panics, unless a group before the short one already
    made it return an error. *)
Lemma octalGroups_ragged_line (n : nat) :
  forall line v, (String.length line <= n)%nat ->
  (String.length line mod 4 <> 0)%nat ->
  octalGroups line v = Panic \/ exists e v', octalGroups line v = Ret (Some e, v').
Proof.
  induction n as [|n IH]; intros line v Hlen Hmod.
  - destruct line; [exfalso; apply Hmod; reflexivity | simpl in Hlen; lia].
  - destruct line as [|c0 [|c1 [|c2 [|c3 rest]]]]; cbn [octalGroups];
      try (left; reflexivity).
    + exfalso. apply Hmod. reflexivity.
    + destruct (Strconv.ParseInt _); [|right; eauto].
      apply IH.
      * simpl in Hlen. lia.
      * intros H. apply Hmod.
        change (String.length (String c0 (String c1 (String c2 (String c3 rest)))))
          with (4 + String.length rest)%nat.
        rewrite <- (Nat.Div0.add_mod_idemp_l 4 _ 4).
        change (4 mod 4)%nat with 0%nat. exact H.
Qed.

(** Well-formed groups followed by one, two or three characters: the slice
    of the last group is out of range. *)
Lemma octalGroups_short_tail (bytes tail : string) :
  (0 < String.length tail < 4)%nat ->
  forall v, octalGroups (encodeOctal bytes +:+ tail) v = Panic.
Proof.
  intros Hlen. induction bytes as [|b bytes IH]; intros v.
  - change (encodeOctal EmptyString +:+ tail) with tail.
    destruct tail as [|c0 [|c1 [|c2 [|c3 tl]]]]; simpl in Hlen; try lia; reflexivity.
  - change (encodeOctal (String b bytes) +:+ tail)
      with (encodeByte b (encodeOctal bytes +:+ tail)).
    rewrite octalGroups_encodeByte. apply IH.
Qed.

(** C10. An octal block with a line made of well-formed groups and a last
    group of fewer than four characters: the slice [line[i+1:i+4]] of that
    group is out of range and ScanValue panics. *)
Theorem ScanValue_short_octal_group_panics (Unquote : string -> option string)
    (ms : MozScanner) (bytes tail : string) (rest : list string) :
  skippedHeader ms = true ->
  s ms = "CKA_VALUE MULTILINE_OCTAL" :: (encodeOctal bytes +:+ tail) :: rest ->
  (0 < String.length tail < 4)%nat ->
  encodeOctal bytes +:+ tail <> "END" ->
  ScanValue Unquote ms = Panic.
Proof.
  intros Hsk Hs Hlen Hend. unfold ScanValue.
  change (skippedHeader (set_valueError ms None)) with (skippedHeader ms).
  change (s (set_valueError ms None)) with (s ms).
  rewrite Hsk, Hs. cbn [ScanValue_loop].
  match goal with
  | |- context [scanLine ?U ?l ?m] =>
      assert (Hl : scanLine U l m =
                   bind (readMultilineOctal m)
                        (fun r => match r with
                                  | (_, Some e, ms') => fail ms' e
                                  | (value, None, ms') =>
                                      emit ms' "CKA_VALUE" "MULTILINE_OCTAL" value
                                  end)) by reflexivity;
      rewrite Hl; clear Hl
  end.
  unfold readMultilineOctal, readMultiline.
  cbn [s ln set_stream readMultiline_loop].
  apply String.eqb_neq in Hend. rewrite Hend.
  unfold octalProcess. rewrite (octalGroups_short_tail _ _ Hlen). reflexivity.
Qed.

Lemma ScanValue_short_octal_group_panics_witness :
  ScanValue UnquotePlain
    (mkMozScanner ["CKA_VALUE MULTILINE_OCTAL"; "\101\1"; "END"] 1 true
                  zeroValue None ∅ None) = Panic /\
  ScanValue UnquotePlain (NewMozScanner sampleShortGroup) = Panic.
Proof.
  split; [|reflexivity].
  apply (ScanValue_short_octal_group_panics UnquotePlain _ "A" "\1" ["END"]).
  - reflexivity.
  - reflexivity.
  - simpl. lia.
  - vm_compute. discriminate.
Defined.

(** ** The object assembler

    A call of ScanValue that returns true has taken at least one line, so
    the fuel ScanObject gives its two loops is never used up. *)

Lemma seekClass_spec (Unquote : string -> option string) (fuel : nat) :
  forall value ms, (length (s ms) < fuel)%nat ->
  finished (seekClass Unquote fuel value ms) /\
  forall value' ms', seekClass Unquote fuel value ms = Ret (value', ms') ->
    (length (s ms') <= length (s ms))%nat.
Proof.
  induction fuel as [|fuel IH]; intros value ms Hlen; [lia|].
  cbn [seekClass].
  destruct (String.eqb (Field value) "CKA_CLASS").
  - split; [discriminate|]. intros value' ms' [= <- <-]. reflexivity.
  - destruct (ScanValue_spec Unquote ms) as [Hf Hr].
    destruct (ScanValue Unquote ms) as [[[] ms1]| |]; cbn [bind].
    + destruct (Hr true ms1 eq_refl) as (_ & Ht & _).
      destruct (Ht eq_refl) as [Hlt _].
      destruct (IH (ScannerValue ms1) ms1 ltac:(lia)) as [Hf' Hr'].
      split; [exact Hf'|]. intros value' ms' H. specialize (Hr' value' ms' H). lia.
    + destruct (Hr false ms1 eq_refl) as (Hle & _).
      split; [discriminate|]. intros value' ms' [= <- <-]. exact Hle.
    + split; [discriminate|discriminate].
    + exfalso. apply Hf. reflexivity.
Qed.

Lemma foldFields_finished (Unquote : string -> option string) (fuel : nat) :
  forall object ms, (length (s ms) < fuel)%nat ->
  finished (foldFields Unquote fuel object ms).
Proof.
  induction fuel as [|fuel IH]; intros object ms Hlen; [lia|].
  cbn [foldFields].
  destruct (ScanValue_spec Unquote ms) as [Hf Hr].
  destruct (ScanValue Unquote ms) as [[[] ms1]| |]; cbn [bind].
  - destruct (Hr true ms1 eq_refl) as (_ & Ht & _).
    destruct (Ht eq_refl) as [Hlt _].
    destruct (String.eqb _ "CKA_CLASS"); [discriminate|].
    apply IH. lia.
  - discriminate.
  - discriminate.
  - exfalso. apply Hf. reflexivity.
Qed.

(** ScanObject always returns or panics: its loops end within their fuel. *)
Lemma ScanObject_finished (Unquote : string -> option string) (ms : MozScanner) :
  finished (ScanObject Unquote ms).
Proof.
  unfold ScanObject.
  set (ms0 := set_objectError ms None).
  destruct (seekClass_spec Unquote (S (length (s ms0))) (ScannerValue ms) ms0
              ltac:(lia)) as [Hf _].
  destruct (seekClass Unquote (S (length (s ms0))) (ScannerValue ms) ms0)
    as [[value ms1]| |]; cbn [bind].
  - destruct (ScanValueError ms1); [discriminate|].
    destruct (negb _); [discriminate|].
    pose proof (foldFields_finished Unquote (S (length (s ms1)))
                  (<[Field value := Value value]> ∅) ms1 ltac:(lia)) as Hf2.
    destruct (foldFields Unquote (S (length (s ms1))) _ ms1)
      as [[[[] object] ms2]| |]; cbn [bind].
    + discriminate.
    + destruct (ScanValueError ms2); discriminate.
    + discriminate.
    + exfalso. apply Hf2. reflexivity.
  - discriminate.
  - exfalso. apply Hf. reflexivity.
Qed.

(** The CKA_CLASS value that ends the first object starts the second one;
    the object in progress at the end of the input is returned. *)
Example ReadObjects_two_objects (Unquote : string -> option string) :
  ReadObjects Unquote 3 sampleTwoObjects =
  Ret (Ok [ <["CKA_TOKEN" := "CK_TRUE"]> (<["CKA_CLASS" := "CKO_CERTIFICATE"]> ∅);
            <["CKA_TOKEN" := "CK_FALSE"]> (<["CKA_CLASS" := "CKO_NSS_TRUST"]> ∅) ]).
Proof. reflexivity. Qed.

(** Without a CKA_CLASS value there is no object. *)
Example ReadObjects_no_class (Unquote : string -> option string) :
  ReadObjects Unquote 1 sampleNoClass = Ret (Ok []).
Proof. reflexivity. Qed.

(** A call of ScanValue that returns false has used up the stream. *)
Lemma skipHeader_loop_not_found (lines : list string) :
  forall n rest n', skipHeader_loop lines n = (rest, n', false) -> rest = [].
Proof.
  induction lines as [|line tl IH]; intros n rest n'; cbn [skipHeader_loop].
  - intros [= <- <-]. reflexivity.
  - destruct (String.eqb line "BEGINDATA"); [discriminate | apply IH].
Qed.

Lemma ScanValue_false_at_end (Unquote : string -> option string) (ms ms' : MozScanner) :
  ScanValue Unquote ms = Ret (false, ms') -> s ms' = [].
Proof.
  unfold ScanValue.
  change (skippedHeader (set_valueError ms None)) with (skippedHeader ms).
  destruct (skippedHeader ms).
  - intros H.
    destruct (ScanValue_loop_spec Unquote _ (set_valueError ms None) eq_refl) as [_ Hr].
    destruct (Hr false ms' H) as (_ & _ & _ & Hf). exact (Hf eq_refl).
  - unfold skipHeader.
    change (s (set_valueError ms None)) with (s ms).
    change (ln (set_valueError ms None)) with (ln ms).
    pose proof (skipHeader_loop_not_found (s ms) (ln ms)) as Hnf.
    destruct (skipHeader_loop (s ms) (ln ms)) as [[rest n] found].
    destruct found.
    + intros H.
      set (ms1 := set_skippedHeader (set_stream (set_valueError ms None) rest n) true) in *.
      destruct (ScanValue_loop_spec Unquote (s ms1) ms1 eq_refl) as [_ Hr].
      destruct (Hr false ms' H) as (_ & _ & _ & Hf). exact (Hf eq_refl).
    + intros [= <-]. simpl. exact (Hnf rest n eq_refl).
Qed.

(** The first loop of ScanObject ends on a CKA_CLASS value (the one it was
    given, or the one just scanned), or at the end of the input. *)
Lemma seekClass_result (Unquote : string -> option string) (fuel : nat) :
  forall value ms value' ms',
  seekClass Unquote fuel value ms = Ret (value', ms') ->
  (Field value' = "CKA_CLASS" /\
   ((value' = value /\ ms' = ms) \/ (value' = lastValue ms' /\ valueError ms' = None))) \/
  (Field value' <> "CKA_CLASS" /\ s ms' = []).
Proof.
  induction fuel as [|fuel IH]; intros value ms value' ms'; cbn [seekClass].
  - destruct (String.eqb (Field value) "CKA_CLASS") eqn:E; [|discriminate].
    intros [= <- <-]. apply String.eqb_eq in E. left. auto.
  - destruct (String.eqb (Field value) "CKA_CLASS") eqn:E.
    + intros [= <- <-]. apply String.eqb_eq in E. left. auto.
    + apply String.eqb_neq in E.
      destruct (ScanValue_spec Unquote ms) as [_ Hr].
      destruct (ScanValue Unquote ms) as [[[] ms1]| |] eqn:Es; cbn [bind];
        try discriminate.
      * intros H. destruct (Hr true ms1 eq_refl) as (_ & Ht & _).
        destruct (Ht eq_refl) as [_ Hve].
        destruct (IH _ _ _ _ H) as [[Hf [[-> ->]|[Hv He]]]|[Hf Hs]].
        -- left. split; [exact Hf|]. right. split; [reflexivity | exact Hve].
        -- left. split; [exact Hf|]. right. split; assumption.
        -- right. split; assumption.
      * intros [= <- <-]. right. split; [exact E|].
        eapply ScanValue_false_at_end. exact Es.
Qed.

(** The second loop: the CKA_CLASS entry of the object is not touched; the
    loop is left on a CKA_CLASS value, kept as the last value of the scanner,
    or at the end of the input. *)
Lemma foldFields_result (Unquote : string -> option string) (fuel : nat) :
  forall (object : gmap string string) ms sealed (object' : gmap string string) ms',
  foldFields Unquote fuel object ms = Ret (sealed, object', ms') ->
  object' !! "CKA_CLASS" = object !! "CKA_CLASS" /\
  (sealed = true -> Field (lastValue ms') = "CKA_CLASS" /\ valueError ms' = None) /\
  (sealed = false -> s ms' = []).
Proof.
  induction fuel as [|fuel IH]; intros object ms sealed object' ms';
    cbn [foldFields]; [discriminate|].
  destruct (ScanValue_spec Unquote ms) as [_ Hr].
  destruct (ScanValue Unquote ms) as [[[] ms1]| |] eqn:Es; cbn [bind]; try discriminate.
  - destruct (Hr true ms1 eq_refl) as (_ & Ht & _). destruct (Ht eq_refl) as [_ Hve].
    unfold ScannerValue.
    destruct (String.eqb (Field (lastValue ms1)) "CKA_CLASS") eqn:E.
    + intros [= <- <- <-]. apply String.eqb_eq in E.
      split; [reflexivity|]. split; [auto | discriminate].
    + apply String.eqb_neq in E. intros H.
      destruct (IH _ _ _ _ _ H) as (Hl & Hsealed & Hend).
      split; [|split; assumption].
      rewrite Hl. apply lookup_insert_ne. exact E.
  - intros [= <- <- <-]. split; [reflexivity|]. split; [discriminate|].
    intros _. eapply ScanValue_false_at_end. exact Es.
Qed.

(** The objects ScanObject returns.  Each has a CKA_CLASS entry.  When the
    call starts on a scanner whose last value is a CKA_CLASS value (the one
    that ended the object before), that value is the CKA_CLASS entry of the
    new object.  The call ends with a CKA_CLASS value as the last value of
    the scanner, kept for the next object, or at the end of the input. *)
Lemma ScanObject_true_result (Unquote : string -> option string) (ms ms' : MozScanner) :
  ScanObject Unquote ms = Ret (true, ms') ->
  (exists v, Object ms' !! "CKA_CLASS" = Some v) /\
  (Field (lastValue ms) = "CKA_CLASS" ->
   Object ms' !! "CKA_CLASS" = Some (Value (lastValue ms))) /\
  (Field (lastValue ms') = "CKA_CLASS" \/ s ms' = []) /\
  ScanValueError ms' = None.
Proof.
  unfold ScanObject, ScannerValue.
  set (ms0 := set_objectError ms None).
  destruct (seekClass Unquote (S (length (s ms0))) (lastValue ms) ms0)
    as [[value ms1]| |] eqn:Esk; cbn [bind]; try discriminate.
  unfold ScanValueError.
  destruct (valueError ms1) eqn:Eve1; [discriminate|].
  destruct (String.eqb (Field value) "CKA_CLASS") eqn:Ef; cbn [negb]; [|discriminate].
  apply String.eqb_eq in Ef.
  assert (Hsame : Field (lastValue ms) = "CKA_CLASS" -> value = lastValue ms).
  { intros Hf. cbn [seekClass] in Esk. rewrite Hf in Esk.
    replace (String.eqb "CKA_CLASS" "CKA_CLASS") with true in Esk by reflexivity.
    injection Esk as <- _. reflexivity. }
  destruct (foldFields Unquote (S (length (s ms1))) _ ms1)
    as [[[sealed object] ms2]| |] eqn:Eff; cbn [bind]; try discriminate.
  destruct (foldFields_result Unquote _ _ _ _ _ _ Eff) as (Hl & Hsealed & Hend).
  rewrite Ef in Hl. rewrite lookup_insert_eq in Hl.
  assert (Hres : valueError ms2 = None ->
                 (exists v, Object (set_lastObject ms2 object) !! "CKA_CLASS" = Some v) /\
                 (Field (lastValue ms) = "CKA_CLASS" ->
                  Object (set_lastObject ms2 object) !! "CKA_CLASS" =
                  Some (Value (lastValue ms))) /\
                 (Field (lastValue (set_lastObject ms2 object)) = "CKA_CLASS" \/
                  s (set_lastObject ms2 object) = []) /\
                 valueError (set_lastObject ms2 object) = None).
  { intros Hve. cbn [Object set_lastObject lastObject lastValue s valueError].
    split; [eauto|]. split; [|split; [|exact Hve]].
    - intros Hf. rewrite Hl, (Hsame Hf). reflexivity.
    - destruct sealed; [left; apply Hsealed; reflexivity | right; apply Hend; reflexivity]. }
  destruct sealed.
  - intros [= <-]. apply Hres. apply Hsealed. reflexivity.
  - destruct (valueError ms2) eqn:Eve2; [discriminate|].
    intros [= <-]. apply Hres. reflexivity.
Qed.

(** At the end of the input ScanValue returns false. *)
Lemma ScanValue_at_end (Unquote : string -> option string) (ms : MozScanner) :
  s ms = [] -> exists ms', ScanValue Unquote ms = Ret (false, ms').
Proof.
  intros Hs. destruct (ScanValue Unquote ms) as [[b ms']| |] eqn:E.
  - destruct (ScanValue_spec Unquote ms) as [_ Hr].
    destruct (Hr b ms' E) as (_ & Ht & _).
    destruct b; [|eauto].
    destruct (Ht eq_refl) as [Hlt _]. rewrite Hs in Hlt. simpl in Hlt. lia.
  - exfalso. revert E. unfold ScanValue, skipHeader.
    change (skippedHeader (set_valueError ms None)) with (skippedHeader ms).
    change (s (set_valueError ms None)) with (s ms).
    rewrite Hs. cbn. destruct (skippedHeader ms); discriminate.
  - exfalso. destruct (ScanValue_spec Unquote ms) as [Hfin _]. apply Hfin. exact E.
Qed.

(** At the end of the input, with a last value that is not a CKA_CLASS
    value, ScanObject returns false: an object that the end of the input
    closed after a field other than CKA_CLASS is returned once. *)
Lemma ScanObject_at_end_stops (Unquote : string -> option string) (ms : MozScanner) :
  s ms = [] -> Field (lastValue ms) <> "CKA_CLASS" ->
  exists ms', ScanObject Unquote ms = Ret (false, ms').
Proof.
  intros Hs Hf. apply String.eqb_neq in Hf.
  destruct (ScanValue_at_end Unquote (set_objectError ms None) Hs) as [ms1 Es].
  assert (E : ScanObject Unquote ms =
              match ScanValueError ms1 with
              | Some _ => Ret (false, set_objectError ms1 (valueError ms1))
              | None => Ret (false, ms1)
              end).
  { unfold ScanObject, ScannerValue.
    change (s (set_objectError ms None)) with (s ms). rewrite Hs.
    cbn [length seekClass]. rewrite Hf, Es. cbn [bind].
    destruct (ScanValueError ms1); [reflexivity|]. rewrite Hf. reflexivity. }
  rewrite E. destruct (ScanValueError ms1); eauto.
Qed.

(** At the end of the input, a scanner whose last value is a CKA_CLASS value
    returns an object made of that value, and keeps doing so. *)
Lemma ScanObject_at_end_repeats (Unquote : string -> option string) (ms : MozScanner) :
  s ms = [] -> skippedHeader ms = true -> valueError ms = None ->
  Field (lastValue ms) = "CKA_CLASS" ->
  let ms' := mkMozScanner [] (ln ms) true (lastValue ms) None
               (<["CKA_CLASS" := Value (lastValue ms)]> ∅) None in
  ScanObject Unquote ms = Ret (true, ms') /\
  ScanObject Unquote ms' = Ret (true, ms').
Proof.
  intros Hs Hsk Hve Hf ms'.
  assert (H : forall m, s m = [] -> skippedHeader m = true -> valueError m = None ->
                        Field (lastValue m) = "CKA_CLASS" ->
                        ScanObject Unquote m =
                        Ret (true, mkMozScanner [] (ln m) true (lastValue m) None
                                     (<["CKA_CLASS" := Value (lastValue m)]> ∅) None)).
  { intros m Hs' Hsk' Hve' Hf'.
    destruct m as [s0 ln0 sk0 lv0 ve0 lo0 oe0]. simpl in Hs', Hsk', Hve', Hf'.
    subst s0 sk0 ve0.
    unfold ScanObject, ScannerValue. cbn [lastValue set_objectError s length seekClass].
    rewrite Hf'.
    replace (String.eqb "CKA_CLASS" "CKA_CLASS") with true by reflexivity.
    cbn. rewrite Hf'. reflexivity. }
  split.
  - apply H; assumption.
  - rewrite (H ms' eq_refl eq_refl eq_refl Hf). reflexivity.
Qed.

(** A scanner that ScanObject maps to itself with the result true makes the
    loop of ReadObjects run for ever. *)
Lemma ReadObjects_loop_stuck (Unquote : string -> option string) (ms : MozScanner) :
  ScanObject Unquote ms = Ret (true, ms) ->
  forall fuel objects, ReadObjects_loop Unquote fuel ms objects = OutOfFuel.
Proof.
  intros Hfix. induction fuel as [|fuel IH]; intros objects; cbn [ReadObjects_loop].
  - reflexivity.
  - rewrite Hfix. cbn [bind]. apply IH.
Qed.

Lemma ReadObjects_loop_step (Unquote : string -> option string)
    (ms ms' : MozScanner) (fuel : nat) (objects : list (gmap string string)) :
  ScanObject Unquote ms = Ret (true, ms') ->
  ReadObjects_loop Unquote (S fuel) ms objects =
  ReadObjects_loop Unquote fuel ms' (objects ++ [Object ms']).
Proof. intros H. cbn [ReadObjects_loop]. rewrite H. reflexivity. Qed.

(** C7. On an input whose last value is a CKA_CLASS value the final object
    is not returned once only: the first ScanObject returns it, and the
    scanner is then in a state from which ScanObject returns true with the
    same object again, every time; ReadObjects never returns. *)
Theorem ScanObject_repeats_final_object (Unquote : string -> option string) :
  let ms1 := mkMozScanner [] 2 true
               (mkMozValue "CKA_CLASS" "CK_OBJECT_CLASS" "CKO_CERTIFICATE") None
               (<["CKA_CLASS" := "CKO_CERTIFICATE"]> ∅) None in
  ScanObject Unquote (NewMozScanner sampleLoneClass) = Ret (true, ms1) /\
  ScanObject Unquote ms1 = Ret (true, ms1) /\
  forall fuel, ReadObjects Unquote fuel sampleLoneClass = OutOfFuel.
Proof.
  intros ms1.
  assert (H0 : ScanObject Unquote (NewMozScanner sampleLoneClass) = Ret (true, ms1))
    by reflexivity.
  assert (H1 : ScanObject Unquote ms1 = Ret (true, ms1)) by reflexivity.
  split; [exact H0|]. split; [exact H1|].
  intros fuel. unfold ReadObjects.
  destruct fuel as [|fuel]; [reflexivity|].
  rewrite (ReadObjects_loop_step Unquote _ ms1 fuel [] H0).
  rewrite (ReadObjects_loop_stuck Unquote ms1 H1). reflexivity.
Qed.

(** ** The trust resolver *)

Lemma contains_In (val : string) (set : list string) :
  contains val set = true <-> In val set.
Proof.
  induction set as [|v tl IH]; simpl.
  - split; [discriminate | tauto].
  - destruct (String.eqb v val) eqn:E.
    + apply String.eqb_eq in E. split; auto.
    + apply String.eqb_neq in E. rewrite IH. split; [auto | intros [H|H]; [contradiction | exact H]].
Qed.

Lemma contains_false (val : string) (set : list string) :
  ~ In val set -> contains val set = false.
Proof.
  intros H. destruct (contains val set) eqn:E; [|reflexivity].
  apply contains_In in E. contradiction.
Qed.

Lemma step_unknown_fails (trusted : gmap string TrustLevel) (obj : gmap string string) :
  isTrustDecl obj -> unknownLevel obj ->
  findTrusted_step trusted obj = Err (ErrUnknownTrust (obj_get obj "CKA_TRUST_SERVER_AUTH")).
Proof.
  unfold isTrustDecl, unknownLevel, findTrusted_step. intros Hc Hu.
  rewrite Hc. cbn [negb String.eqb].
  replace (String.eqb "CKO_NSS_TRUST" "CKO_NSS_TRUST") with true by reflexivity.
  cbn [negb].
  destruct (contains (obj_get obj "CKA_TRUST_SERVER_AUTH") knownTrustLevels) eqn:E1;
    [|reflexivity].
  destruct (contains (obj_get obj "CKA_TRUST_EMAIL_PROTECTION") knownTrustLevels) eqn:E2;
    [|reflexivity].
  destruct (contains (obj_get obj "CKA_TRUST_CODE_SIGNING") knownTrustLevels) eqn:E3;
    [|reflexivity].
  apply contains_In in E1, E2, E3. tauto.
Qed.

Lemma loop_unknown_fails (objects : list (gmap string string)) (obj : gmap string string) :
  In obj objects -> isTrustDecl obj -> unknownLevel obj ->
  forall trusted, exists e, findTrusted_loop objects trusted = Err e.
Proof.
  intros Hin Hc Hu. induction objects as [|o rest IH]; [destruct Hin|].
  intros trusted. simpl.
  destruct (findTrusted_step trusted o) as [t'|e] eqn:E.
  - destruct Hin as [->|Hin].
    + rewrite (step_unknown_fails trusted obj Hc Hu) in E. discriminate.
    + apply IH; assumption.
  - exists e; reflexivity.
Qed.

Lemma step_vetoed_skips (trusted : gmap string TrustLevel) (obj : gmap string string) :
  isTrustDecl obj -> vetoed obj ->
  findTrusted_step trusted obj = Ok trusted \/
  exists e, findTrusted_step trusted obj = Err e.
Proof.
  unfold isTrustDecl, vetoed, findTrusted_step. intros Hc Hv. rewrite Hc.
  replace (String.eqb "CKO_NSS_TRUST" "CKO_NSS_TRUST") with true by reflexivity.
  cbn [negb].
  destruct (contains (obj_get obj "CKA_TRUST_SERVER_AUTH") knownTrustLevels);
    cbn [negb]; [|right; eauto].
  destruct (contains (obj_get obj "CKA_TRUST_EMAIL_PROTECTION") knownTrustLevels);
    cbn [negb]; [|right; eauto].
  destruct (contains (obj_get obj "CKA_TRUST_CODE_SIGNING") knownTrustLevels);
    cbn [negb]; [|right; eauto].
  left.
  destruct Hv as [H|[H|H]]; rewrite H;
    replace (String.eqb "CKT_NSS_NOT_TRUSTED" "CKT_NSS_NOT_TRUSTED") with true by reflexivity;
    rewrite ?orb_true_r; reflexivity.
Qed.

Lemma loop_app (pre post : list (gmap string string)) (trusted : gmap string TrustLevel) :
  findTrusted_loop (pre ++ post) trusted =
  match findTrusted_loop pre trusted with
  | Ok t => findTrusted_loop post t
  | Err e => Err e
  end.
Proof.
  revert trusted. induction pre as [|o pre IH]; intros trusted; simpl; [reflexivity|].
  destruct (findTrusted_step trusted o); [apply IH | reflexivity].
Qed.

(** A label gets an entry only from a trust declaration that carries it. *)
Lemma loop_lookup_other (objects : list (gmap string string)) (label : string) :
  (forall o, In o objects -> isTrustDecl o -> obj_get o "CKA_LABEL" <> label) ->
  forall trusted m, findTrusted_loop objects trusted = Ok m ->
  m !! label = trusted !! label.
Proof.
  induction objects as [|o rest IH]; intros Hne trusted m; simpl.
  - intros [= <-]. reflexivity.
  - destruct (findTrusted_step trusted o) as [t'|e] eqn:E; [|discriminate].
    intros Hm. rewrite (IH (fun o' H => Hne o' (or_intror H)) t' m Hm).
    clear IH Hm. unfold findTrusted_step in E.
    destruct (String.eqb (obj_get o "CKA_CLASS") "CKO_NSS_TRUST") eqn:Ec; cbn [negb] in E;
      [|injection E as <-; reflexivity].
    apply String.eqb_eq in Ec.
    repeat match type of E with
           | (if ?b then _ else _) = _ => destruct b; try discriminate
           end;
      injection E as <-; try reflexivity.
    apply lookup_insert_ne. apply Hne; [left; reflexivity | exact Ec].
Qed.

(** Every entry of the trust map has a purpose bit set. *)
Lemma step_hasPurpose (trusted t' : gmap string TrustLevel) (obj : gmap string string) :
  map_Forall (fun _ t => hasPurpose t = true) trusted ->
  findTrusted_step trusted obj = Ok t' ->
  map_Forall (fun _ t => hasPurpose t = true) t'.
Proof.
  intros Hall E. unfold findTrusted_step in E.
  repeat match type of E with
         | (if ?b then _ else _) = _ => let Hb := fresh "Hb" in destruct b eqn:Hb; try discriminate
         end;
    injection E as <-; try exact Hall.
  apply map_Forall_insert_2; [|exact Hall].
  unfold hasPurpose. assumption.
Qed.

Lemma loop_hasPurpose (objects : list (gmap string string)) :
  forall trusted m,
  map_Forall (fun _ t => hasPurpose t = true) trusted ->
  findTrusted_loop objects trusted = Ok m ->
  map_Forall (fun _ t => hasPurpose t = true) m.
Proof.
  induction objects as [|o rest IH]; intros trusted m Hall; simpl.
  - intros [= <-]. exact Hall.
  - destruct (findTrusted_step trusted o) as [t'|e] eqn:E; [|discriminate].
    apply IH. eapply step_hasPurpose; eassumption.
Qed.

(** C2. A trust declaration with a field equal to CKT_NSS_NOT_TRUSTED adds no
    entry to the trust map: the loop body leaves the map as it was (or
    returns the vocabulary error, when another field is unknown); the map
    returned for a list that holds the declaration is the map returned for
    the list without it; and when no other trust declaration of the list
    carries its label, the label is absent from the map -- whatever its
    other two fields are. *)
Theorem findTrusted_not_trusted_vetoes
    (pre post : list (gmap string string)) (obj : gmap string string) :
  isTrustDecl obj -> vetoed obj ->
  (forall trusted,
      findTrusted_step trusted obj = Ok trusted \/
      exists e, findTrusted_step trusted obj = Err e) /\
  (forall m, findTrusted (pre ++ obj :: post) = Ok m ->
             findTrusted (pre ++ post) = Ok m) /\
  (forall m, findTrusted (pre ++ obj :: post) = Ok m ->
             (forall o, In o (pre ++ post) -> isTrustDecl o ->
                        obj_get o "CKA_LABEL" <> obj_get obj "CKA_LABEL") ->
             m !! obj_get obj "CKA_LABEL" = None).
Proof.
  intros Hc Hv.
  assert (Hskip : forall m, findTrusted (pre ++ obj :: post) = Ok m ->
                            findTrusted (pre ++ post) = Ok m).
  { intros m. unfold findTrusted. rewrite !loop_app.
    destruct (findTrusted_loop pre ∅) as [t|e]; [|discriminate].
    simpl. destruct (step_vetoed_skips t obj Hc Hv) as [E|[e E]]; rewrite E.
    - trivial.
    - discriminate. }
  split; [|split].
  - intros trusted. apply step_vetoed_skips; assumption.
  - exact Hskip.
  - intros m Hm Hother. apply Hskip in Hm.
    rewrite (loop_lookup_other _ _ Hother _ _ Hm). apply lookup_empty.
Qed.

Lemma findTrusted_not_trusted_vetoes_witness :
  findTrusted [grantingDecl; vetoedDecl] = findTrusted [grantingDecl] /\
  (forall m, findTrusted ([grantingDecl] ++ vetoedDecl :: []) = Ok m ->
             (forall o, In o ([grantingDecl] ++ []) -> isTrustDecl o ->
                        obj_get o "CKA_LABEL" <> obj_get vetoedDecl "CKA_LABEL") ->
             m !! obj_get vetoedDecl "CKA_LABEL" = None).
Proof.
  split; [reflexivity|].
  apply (findTrusted_not_trusted_vetoes [grantingDecl] [] vetoedDecl).
  - reflexivity.
  - right; left; reflexivity.
Defined.

(** C3. When the object list holds a trust declaration one of whose three
    trust fields is outside the known vocabulary, findTrusted returns an
    error, and so does ReadTrustedCerts (with no certificate list) on every
    input whose objects are that list. *)
Theorem findTrusted_unknown_level_fails
    (objects : list (gmap string string)) (obj : gmap string string) :
  In obj objects -> isTrustDecl obj -> unknownLevel obj ->
  exists e,
    findTrusted objects = Err e /\
    forall Unquote (Certificate : Type) (ParseCertificate : string -> option Certificate)
           fuel f,
      ReadObjects Unquote fuel f = Ret (Ok objects) ->
      ReadTrustedCerts Unquote Certificate ParseCertificate fuel f = Ret (Err e).
Proof.
  intros Hin Hc Hu.
  destruct (loop_unknown_fails objects obj Hin Hc Hu ∅) as [e He].
  exists e. split; [exact He|].
  intros Unquote Certificate ParseCertificate fuel f Hobjs.
  unfold ReadTrustedCerts. rewrite Hobjs. simpl.
  unfold findTrusted. rewrite He. reflexivity.
Qed.

Lemma findTrusted_unknown_level_fails_witness :
  ReadObjects UnquotePlain 3 sampleUnknown = Ret (Ok [unknownDecl]) /\
  exists e,
    findTrusted [unknownDecl] = Err e /\
    forall Unquote (Certificate : Type) (ParseCertificate : string -> option Certificate)
           fuel f,
      ReadObjects Unquote fuel f = Ret (Ok [unknownDecl]) ->
      ReadTrustedCerts Unquote Certificate ParseCertificate fuel f = Ret (Err e).
Proof.
  split; [reflexivity|].
  apply (findTrusted_unknown_level_fails [unknownDecl] unknownDecl).
  - left; reflexivity.
  - reflexivity.
  - right; left. vm_compute. intros [H|[H|[H|[]]]]; discriminate H.
Defined.

(** ** The certificate extractor *)

Lemma extract_step_valid {Certificate : Type}
    (ParseCertificate : string -> option Certificate)
    (trusted : gmap string TrustLevel) (certs : list (Cert Certificate))
    (obj : gmap string string) :
  map_Forall (fun _ t => hasPurpose t = true) trusted ->
  Forall (validRecord ParseCertificate) certs ->
  Forall (validRecord ParseCertificate)
         (extract_step Certificate ParseCertificate trusted certs obj).
Proof.
  intros Hmap Hcerts. unfold extract_step.
  destruct (negb _); [exact Hcerts|].
  destruct (trusted !! obj_get obj "CKA_LABEL") as [trust|] eqn:Et; [|exact Hcerts].
  destruct (ParseCertificate (obj_get obj "CKA_VALUE")) as [cert|] eqn:Ep; [|exact Hcerts].
  apply Forall_app. split; [exact Hcerts|].
  constructor; [|constructor].
  split; simpl.
  - exists cert. split; [reflexivity | exact Ep].
  - exact (Hmap _ _ Et).
Qed.

Lemma extract_fold_valid {Certificate : Type}
    (ParseCertificate : string -> option Certificate)
    (trusted : gmap string TrustLevel) (objects : list (gmap string string)) :
  map_Forall (fun _ t => hasPurpose t = true) trusted ->
  forall certs,
  Forall (validRecord ParseCertificate) certs ->
  Forall (validRecord ParseCertificate)
         (fold_left (extract_step Certificate ParseCertificate trusted) objects certs).
Proof.
  intros Hmap. induction objects as [|o rest IH]; intros certs Hcerts; simpl.
  - exact Hcerts.
  - apply IH. apply extract_step_valid; assumption.
Qed.

(** C1. Every record of the list ReadTrustedCerts returns has a certificate
    pointer that is not nil, the result of a successful ParseCertificate of
    the record's data (the CKA_VALUE of its object), and a trust level with
    at least one of the three delegator booleans true. *)
Theorem ReadTrustedCerts_records_valid
    (Unquote : string -> option string) (Certificate : Type)
    (ParseCertificate : string -> option Certificate)
    (fuel : nat) (f : string) (certs : list (Cert Certificate)) :
  ReadTrustedCerts Unquote Certificate ParseCertificate fuel f = Ret (Ok certs) ->
  Forall (validRecord ParseCertificate) certs.
Proof.
  unfold ReadTrustedCerts. intros H.
  destruct (ReadObjects Unquote fuel f) as [[objects|e]| |]; simpl in H; try discriminate.
  destruct (findTrusted objects) as [trusted|e] eqn:Et; [|discriminate].
  injection H as <-.
  apply extract_fold_valid; [|constructor].
  unfold findTrusted in Et.
  apply (loop_hasPurpose objects ∅ trusted); [|exact Et].
  apply map_Forall_empty.
Qed.

Lemma ReadTrustedCerts_records_valid_witness :
  Forall (validRecord ParseCertificateTag)
         [mkCert "Acme Root" sampleDER (mkTrustLevel true false false)
                 (Some sampleDER)].
Proof.
  apply (ReadTrustedCerts_records_valid UnquotePlain string ParseCertificateTag
                                        4 sampleTrusted).
  vm_compute. reflexivity.
Defined.

(** * Further properties of the value scanner *)

Lemma Cut_no_space (str : string) :
  noSpace str = true -> GoString.Cut str = None.
Proof.
  induction str as [|c str IH]; cbn [noSpace GoString.Cut]; intros H; [reflexivity|].
  apply andb_true_iff in H as [Hc Hs]. apply negb_true_iff in Hc.
  rewrite Hc, (IH Hs). reflexivity.
Qed.

Lemma SplitN_three_parts (field ftype inline : string) :
  noSpace field = true -> noSpace ftype = true ->
  GoString.SplitN (field +:+ " " +:+ ftype +:+ " " +:+ inline) 3 = [field; ftype; inline].
Proof.
  intros Hf Ht. cbn [GoString.SplitN].
  change (" " +:+ ftype +:+ " " +:+ inline)
    with (String GoString.space (ftype +:+ String GoString.space inline)).
  rewrite (Cut_first_space _ _ Hf), (Cut_first_space _ _ Ht). reflexivity.
Qed.

Lemma SplitN_two_parts (field ftype : string) :
  noSpace field = true -> noSpace ftype = true ->
  GoString.SplitN (field +:+ " " +:+ ftype) 3 = [field; ftype].
Proof.
  intros Hf Ht. cbn [GoString.SplitN].
  change (" " +:+ ftype) with (String GoString.space ftype).
  rewrite (Cut_first_space _ _ Hf), (Cut_no_space _ Ht). reflexivity.
Qed.

Lemma SplitN_one_part (line : string) :
  noSpace line = true -> GoString.SplitN line 3 = [line].
Proof. intros H. cbn [GoString.SplitN]. rewrite (Cut_no_space _ H). reflexivity. Qed.

(** The first byte of a line that starts with a field name. *)
Lemma scanLine_not_comment (Unquote : string -> option string)
    (field tail : string) (ms : MozScanner) :
  isComment field = false ->
  scanLine Unquote (field +:+ String GoString.space tail) ms =
  match GoString.SplitN (field +:+ String GoString.space tail) 3 with
  | field' :: ftype :: inline =>
      match String.eqb ftype "UTF8", inline with
      | true, p2 :: _ =>
          match Unquote p2 with
          | Some value => emit ms field' ftype value
          | None =>
              match GoString.slice p2 1 (GoString.len p2 - 1) with
              | Some value => emit ms field' ftype value
              | None => Panic
              end
          end
      | _, _ =>
          if GoString.HasPrefix ftype "MULTILINE"
          then
            match GoString.slice_from ftype (GoString.len "MULTILINE_") with
            | None => Panic
            | Some mltype =>
                if String.eqb mltype "OCTAL"
                then bind (readMultilineOctal ms)
                       (fun r => match r with
                                 | (_, Some e, ms') => fail ms' e
                                 | (value, None, ms') => emit ms' field' ftype value
                                 end)
                else bind (readMultilineGeneric ms)
                       (fun r => match r with
                                 | (_, Some e, ms') => fail ms' e
                                 | (_, None, ms') => emit ms' field' ftype EmptyString
                                 end)
            end
          else
            match inline with
            | p2 :: _ => emit ms field' ftype p2
            | [] => emit ms field' ftype EmptyString
            end
      end
  | _ => Ret None
  end.
Proof.
  intros Hc. unfold scanLine.
  destruct field as [|c f].
  - reflexivity.
  - change (String c f +:+ String GoString.space tail)
      with (String c (f +:+ String GoString.space tail)).
    cbn [isComment] in Hc. cbv beta iota. rewrite Hc. reflexivity.
Qed.

(** The step of ScanValue on a scanner that is past the header. *)
Lemma ScanValue_step (Unquote : string -> option string)
    (ms : MozScanner) (line : string) (rest : list string) :
  skippedHeader ms = true -> s ms = line :: rest ->
  ScanValue Unquote ms =
  bind (scanLine Unquote line (set_stream (set_valueError ms None) rest (ln ms + 1)))
       (fun r => match r with
                 | None => ScanValue_loop Unquote rest
                             (set_stream (set_valueError ms None) rest (ln ms + 1))
                 | Some res => Ret res
                 end).
Proof.
  intros Hsk Hs. unfold ScanValue.
  change (skippedHeader (set_valueError ms None)) with (skippedHeader ms).
  change (s (set_valueError ms None)) with (s ms).
  rewrite Hsk, Hs. reflexivity.
Qed.

(** X1. Past the header, an empty line, a line that starts with [#] and a
    line with no space are skipped: ScanValue goes on with the next line,
    the line counter one higher. *)
Theorem ScanValue_skips_line (Unquote : string -> option string)
    (ms : MozScanner) (line : string) (rest : list string) :
  skippedHeader ms = true -> s ms = line :: rest ->
  line = EmptyString \/ isComment line = true \/ noSpace line = true ->
  ScanValue Unquote ms = ScanValue Unquote (set_stream ms rest (ln ms + 1)).
Proof.
  intros Hsk Hs Hline. rewrite (ScanValue_step Unquote ms line rest Hsk Hs).
  assert (Hskip : scanLine Unquote line
                    (set_stream (set_valueError ms None) rest (ln ms + 1)) = Ret None).
  { unfold scanLine. destruct line as [|c l]; [reflexivity|].
    destruct Hline as [H|[H|H]].
    - discriminate H.
    - cbn [isComment] in H. cbv beta iota. rewrite H. reflexivity.
    - cbv beta iota. destruct (Ascii.eqb c _); [reflexivity|].
      rewrite (SplitN_one_part _ H). reflexivity. }
  rewrite Hskip. cbn [bind]. unfold ScanValue.
  change (skippedHeader (set_valueError (set_stream ms rest (ln ms + 1)) None))
    with (skippedHeader ms).
  rewrite Hsk. reflexivity.
Qed.

Lemma ScanValue_skips_line_witness :
  ScanValue UnquotePlain
    (mkMozScanner ["# a comment"; "CKA_TOKEN CK_BBOOL CK_TRUE"] 1 true zeroValue None ∅ None) =
  ScanValue UnquotePlain
    (mkMozScanner ["CKA_TOKEN CK_BBOOL CK_TRUE"] 2 true zeroValue None ∅ None).
Proof.
  apply (ScanValue_skips_line UnquotePlain
           (mkMozScanner ["# a comment"; "CKA_TOKEN CK_BBOOL CK_TRUE"] 1 true
                         zeroValue None ∅ None)
           "# a comment" ["CKA_TOKEN CK_BBOOL CK_TRUE"]).
  - reflexivity.
  - reflexivity.
  - right; left; reflexivity.
Defined.

Lemma skipHeader_loop_found (pre post : list string) (n : Z) :
  ~ In "BEGINDATA" pre ->
  skipHeader_loop (pre ++ "BEGINDATA" :: post) n =
  (post, n + Z.of_nat (length pre) + 1, true).
Proof.
  revert n. induction pre as [|line pre IH]; intros n Hno.
  - cbn. do 2 f_equal. lia.
  - cbn [app skipHeader_loop].
    destruct (String.eqb line "BEGINDATA") eqn:E.
    + apply String.eqb_eq in E. exfalso. apply Hno. left. exact E.
    + rewrite IH by (intros H; apply Hno; right; exact H).
      do 2 f_equal. cbn [length]. lia.
Qed.

(** X2. The lines before the first BEGINDATA line, and that line, are passed
    over by the first ScanValue, whatever they are: the call gives what it
    gives on a scanner that is past the header and stands on the line
    after it, every line passed counted. *)
Theorem ScanValue_skips_preamble (Unquote : string -> option string)
    (ms : MozScanner) (pre post : list string) :
  skippedHeader ms = false ->
  s ms = pre ++ "BEGINDATA" :: post ->
  ~ In "BEGINDATA" pre ->
  ScanValue Unquote ms =
  ScanValue Unquote
    (set_skippedHeader (set_stream ms post (ln ms + Z.of_nat (length pre) + 1)) true).
Proof.
  intros Hsk Hs Hno. unfold ScanValue at 1, skipHeader.
  change (skippedHeader (set_valueError ms None)) with (skippedHeader ms).
  change (s (set_valueError ms None)) with (s ms).
  change (ln (set_valueError ms None)) with (ln ms).
  rewrite Hsk, Hs, (skipHeader_loop_found _ _ _ Hno).
  reflexivity.
Qed.

Lemma ScanValue_skips_preamble_witness :
  ScanValue UnquotePlain
    (mkMozScanner ["# header"; "CVS_ID x"; "BEGINDATA"; "CKA_TOKEN CK_BBOOL CK_TRUE"]
                  0 false zeroValue None ∅ None) =
  ScanValue UnquotePlain
    (mkMozScanner ["CKA_TOKEN CK_BBOOL CK_TRUE"] 3 true zeroValue None ∅ None).
Proof.
  apply (ScanValue_skips_preamble UnquotePlain
           (mkMozScanner ["# header"; "CVS_ID x"; "BEGINDATA"; "CKA_TOKEN CK_BBOOL CK_TRUE"]
                         0 false zeroValue None ∅ None)
           ["# header"; "CVS_ID x"] ["CKA_TOKEN CK_BBOOL CK_TRUE"]).
  - reflexivity.
  - reflexivity.
  - vm_compute. intros [H|[H|[]]]; discriminate H.
Defined.

(** X3. A line [<field> <type> <rest of the line>] whose type is neither UTF8
    nor starts with MULTILINE gives the value made of the field, the type and
    the rest of the line as it stands, spaces included; with no third part
    the value is the empty string. *)
Theorem ScanValue_single_line (Unquote : string -> option string)
    (ms : MozScanner) (field ftype inline : string) (rest : list string) :
  skippedHeader ms = true ->
  noSpace field = true -> isComment field = false ->
  noSpace ftype = true -> ftype <> "UTF8" ->
  GoString.HasPrefix ftype "MULTILINE" = false ->
  (s ms = (field +:+ " " +:+ ftype +:+ " " +:+ inline) :: rest ->
   ScanValue Unquote ms =
   Ret (true, mkMozScanner rest (ln ms + 1) true (mkMozValue field ftype inline)
                None (lastObject ms) (objectError ms))) /\
  (s ms = (field +:+ " " +:+ ftype) :: rest ->
   ScanValue Unquote ms =
   Ret (true, mkMozScanner rest (ln ms + 1) true (mkMozValue field ftype EmptyString)
                None (lastObject ms) (objectError ms))).
Proof.
  intros Hsk Hf Hc Ht Hu Hm. apply String.eqb_neq in Hu.
  split; intros Hs; rewrite (ScanValue_step Unquote ms _ rest Hsk Hs).
  - change (field +:+ " " +:+ ftype +:+ " " +:+ inline)
      with (field +:+ String GoString.space (ftype +:+ " " +:+ inline)).
    rewrite (scanLine_not_comment Unquote _ _ _ Hc).
    change (field +:+ String GoString.space (ftype +:+ " " +:+ inline))
      with (field +:+ " " +:+ ftype +:+ " " +:+ inline).
    rewrite (SplitN_three_parts _ _ _ Hf Ht), Hu, Hm.
    unfold emit, set_lastValue, set_stream, set_valueError. cbn. rewrite Hsk. reflexivity.
  - change (field +:+ " " +:+ ftype) with (field +:+ String GoString.space ftype).
    rewrite (scanLine_not_comment Unquote _ _ _ Hc).
    change (field +:+ String GoString.space ftype) with (field +:+ " " +:+ ftype).
    rewrite (SplitN_two_parts _ _ Hf Ht), Hu, Hm.
    unfold emit, set_lastValue, set_stream, set_valueError. cbn. rewrite Hsk. reflexivity.
Qed.

Lemma ScanValue_single_line_witness :
  ScanValue UnquotePlain
    (mkMozScanner ["FIELD_FIVE TYPE3 VALUE1 VALUE2"] 7 true zeroValue None ∅ None) =
  Ret (true, mkMozScanner [] 8 true (mkMozValue "FIELD_FIVE" "TYPE3" "VALUE1 VALUE2")
               None ∅ None).
Proof.
  apply (ScanValue_single_line UnquotePlain
           (mkMozScanner ["FIELD_FIVE TYPE3 VALUE1 VALUE2"] 7 true zeroValue None ∅ None)
           "FIELD_FIVE" "TYPE3" "VALUE1 VALUE2" []).
  - reflexivity.
  - reflexivity.
  - reflexivity.
  - reflexivity.
  - discriminate.
  - reflexivity.
  - reflexivity.
Defined.

Lemma slice_strip_ends (inline : string) :
  (2 <= String.length inline)%nat ->
  GoString.slice inline 1 (GoString.len inline - 1) =
  Some (String.substring 1 (String.length inline - 2) inline).
Proof.
  intros H. unfold GoString.slice, GoString.len.
  replace (0 <=? 1) with true by reflexivity.
  replace (1 <=? Z.of_nat (String.length inline) - 1) with true
    by (symmetry; apply Z.leb_le; lia).
  replace (Z.of_nat (String.length inline) - 1 <=? Z.of_nat (String.length inline))
    with true by (symmetry; apply Z.leb_le; lia).
  cbn [andb]. do 2 f_equal. lia.
Qed.

(** X4. A line [<field> UTF8 <inline>]: the value is what Unquote makes of
    the inline text; when Unquote rejects a text of two bytes or more, the
    value is the text without its first and its last byte, whatever these
    bytes are. *)
Theorem ScanValue_utf8_line (Unquote : string -> option string)
    (ms : MozScanner) (field inline : string) (rest : list string) :
  skippedHeader ms = true ->
  s ms = (field +:+ " UTF8 " +:+ inline) :: rest ->
  noSpace field = true -> isComment field = false ->
  (forall value, Unquote inline = Some value ->
     ScanValue Unquote ms =
     Ret (true, mkMozScanner rest (ln ms + 1) true (mkMozValue field "UTF8" value)
                  None (lastObject ms) (objectError ms))) /\
  (Unquote inline = None -> (2 <= String.length inline)%nat ->
     ScanValue Unquote ms =
     Ret (true, mkMozScanner rest (ln ms + 1) true
                  (mkMozValue field "UTF8"
                     (String.substring 1 (String.length inline - 2) inline))
                  None (lastObject ms) (objectError ms))).
Proof.
  intros Hsk Hs Hf Hc.
  assert (Hline : scanLine Unquote (field +:+ " UTF8 " +:+ inline)
                    (set_stream (set_valueError ms None) rest (ln ms + 1)) =
                  match Unquote inline with
                  | Some value =>
                      emit (set_stream (set_valueError ms None) rest (ln ms + 1))
                           field "UTF8" value
                  | None =>
                      match GoString.slice inline 1 (GoString.len inline - 1) with
                      | Some value =>
                          emit (set_stream (set_valueError ms None) rest (ln ms + 1))
                               field "UTF8" value
                      | None => Panic
                      end
                  end).
  { change (field +:+ " UTF8 " +:+ inline)
      with (field +:+ String GoString.space ("UTF8 " +:+ inline)).
    rewrite (scanLine_not_comment Unquote _ _ _ Hc).
    change (field +:+ String GoString.space ("UTF8 " +:+ inline))
      with (field +:+ " UTF8 " +:+ inline).
    rewrite (SplitN_utf8_line _ _ Hf). reflexivity. }
  rewrite (ScanValue_step Unquote ms _ rest Hsk Hs), Hline.
  split.
  - intros value Hv. rewrite Hv.
    unfold emit, set_lastValue, set_stream, set_valueError. cbn. rewrite Hsk. reflexivity.
  - intros Hv Hlen. rewrite Hv, (slice_strip_ends _ Hlen).
    unfold emit, set_lastValue, set_stream, set_valueError. cbn. rewrite Hsk. reflexivity.
Qed.

Lemma ScanValue_utf8_line_witness :
  ScanValue UnquotePlain
    (mkMozScanner ["CKA_LABEL UTF8 " +:+ quoted "Acme Root"] 1 true zeroValue None ∅ None) =
  Ret (true, mkMozScanner [] 2 true (mkMozValue "CKA_LABEL" "UTF8" "Acme Root") None ∅ None) /\
  ScanValue UnquotePlain
    (mkMozScanner ["CKA_LABEL UTF8 'Acme Root'"] 1 true zeroValue None ∅ None) =
  Ret (true, mkMozScanner [] 2 true (mkMozValue "CKA_LABEL" "UTF8" "Acme Root") None ∅ None).
Proof.
  split.
  - refine (proj1 (ScanValue_utf8_line UnquotePlain
                     (mkMozScanner ["CKA_LABEL UTF8 " +:+ quoted "Acme Root"] 1 true
                                   zeroValue None ∅ None)
                     "CKA_LABEL" (quoted "Acme Root") [] _ _ _ _) "Acme Root" _);
      reflexivity.
  - refine (proj2 (ScanValue_utf8_line UnquotePlain
                     (mkMozScanner ["CKA_LABEL UTF8 'Acme Root'"] 1 true
                                   zeroValue None ∅ None)
                     "CKA_LABEL" "'Acme Root'" [] _ _ _ _) _ _).
    + reflexivity.
    + reflexivity.
    + reflexivity.
    + reflexivity.
    + reflexivity.
    + simpl. lia.
Defined.

Lemma readMultiline_loop_generic (body rest : list string) :
  ~ In "END" body ->
  forall (n : Z) (v : list string),
  readMultiline_loop genericProcess (body ++ "END" :: rest) n v =
  Ret (None, v ++ body, (rest, n + Z.of_nat (length body) + 1)).
Proof.
  induction body as [|line body IH]; intros Hno n v.
  - cbn [app readMultiline_loop length].
    replace (String.eqb "END" "END") with true by reflexivity.
    rewrite app_nil_r. do 3 f_equal. lia.
  - cbn [app readMultiline_loop].
    destruct (String.eqb line "END") eqn:E.
    + apply String.eqb_eq in E. exfalso. apply Hno. left. exact E.
    + unfold genericProcess at 1. cbn [bind].
      rewrite IH by (intros H; apply Hno; right; exact H).
      rewrite <- app_assoc. cbn [app length]. do 3 f_equal. lia.
Qed.

Lemma substring_all (str : string) : String.substring 0 (String.length str) str = str.
Proof.
  induction str as [|c str IH]; [reflexivity|].
  cbn [String.length String.substring]. rewrite IH. reflexivity.
Qed.

Lemma slice_from_multiline (mltype : string) :
  GoString.slice_from ("MULTILINE_" +:+ mltype) (GoString.len "MULTILINE_") = Some mltype.
Proof.
  unfold GoString.slice_from, GoString.slice, GoString.len.
  change (String.length "MULTILINE_") with 10%nat.
  change (String.length ("MULTILINE_" +:+ mltype)) with (10 + String.length mltype)%nat.
  replace (0 <=? Z.of_nat 10) with true by reflexivity.
  replace (Z.of_nat 10 <=? Z.of_nat (10 + String.length mltype)) with true
    by (symmetry; apply Z.leb_le; lia).
  replace (Z.of_nat (10 + String.length mltype) <=? Z.of_nat (10 + String.length mltype))
    with true by (symmetry; apply Z.leb_le; lia).
  cbn [andb].
  replace (Z.to_nat (Z.of_nat (10 + String.length mltype) - Z.of_nat 10))
    with (String.length mltype) by lia.
  change (Z.to_nat (Z.of_nat 10)) with 10%nat.
  change (String.substring 10 (String.length mltype) ("MULTILINE_" +:+ mltype))
    with (String.substring 0 (String.length mltype) mltype).
  rewrite substring_all. reflexivity.
Qed.

(** X5. A multiline value of an encoding other than OCTAL, closed by END:
    ScanValue takes every line up to and including END and gives a value
    with the empty string as its text, whatever the lines hold. *)
Theorem ScanValue_generic_block (Unquote : string -> option string)
    (ms : MozScanner) (field mltype : string) (body rest : list string) :
  skippedHeader ms = true ->
  s ms = (field +:+ " MULTILINE_" +:+ mltype) :: body ++ "END" :: rest ->
  noSpace field = true -> isComment field = false ->
  noSpace mltype = true -> mltype <> "OCTAL" ->
  ~ In "END" body ->
  ScanValue Unquote ms =
  Ret (true, mkMozScanner rest (ln ms + 1 + Z.of_nat (length body) + 1) true
               (mkMozValue field ("MULTILINE_" +:+ mltype) EmptyString)
               None (lastObject ms) (objectError ms)).
Proof.
  intros Hsk Hs Hf Hc Hm Ho Hno. apply String.eqb_neq in Ho.
  rewrite (ScanValue_step Unquote ms _ _ Hsk Hs).
  change (field +:+ " MULTILINE_" +:+ mltype)
    with (field +:+ String GoString.space ("MULTILINE_" +:+ mltype)).
  rewrite (scanLine_not_comment Unquote _ _ _ Hc).
  change (field +:+ String GoString.space ("MULTILINE_" +:+ mltype))
    with (field +:+ " " +:+ ("MULTILINE_" +:+ mltype)).
  rewrite (SplitN_two_parts field ("MULTILINE_" +:+ mltype) Hf Hm).
  replace (String.eqb ("MULTILINE_" +:+ mltype) "UTF8") with false by reflexivity.
  replace (GoString.HasPrefix ("MULTILINE_" +:+ mltype) "MULTILINE") with true
    by reflexivity.
  rewrite slice_from_multiline, Ho.
  unfold readMultilineGeneric, readMultiline.
  cbn [s ln set_stream set_valueError].
  rewrite (readMultiline_loop_generic body rest Hno). cbn [bind].
  unfold emit, set_lastValue, set_stream, set_valueError. cbn. rewrite Hsk. reflexivity.
Qed.

Lemma ScanValue_generic_block_witness :
  ScanValue UnquotePlain
    (mkMozScanner ["FIELD_FOUR MULTILINE_UNKNOWN"; "any text"; "END"; "FIELD_FIVE TYPE3"]
                  4 true zeroValue None ∅ None) =
  Ret (true, mkMozScanner ["FIELD_FIVE TYPE3"] 7 true
               (mkMozValue "FIELD_FOUR" "MULTILINE_UNKNOWN" EmptyString) None ∅ None).
Proof.
  apply (ScanValue_generic_block UnquotePlain
           (mkMozScanner ["FIELD_FOUR MULTILINE_UNKNOWN"; "any text"; "END"; "FIELD_FIVE TYPE3"]
                         4 true zeroValue None ∅ None)
           "FIELD_FOUR" "UNKNOWN" ["any text"] ["FIELD_FIVE TYPE3"]).
  - reflexivity.
  - reflexivity.
  - reflexivity.
  - reflexivity.
  - reflexivity.
  - discriminate.
  - vm_compute. intros [H|[]]; discriminate H.
Defined.

(** X6. A line whose type is exactly MULTILINE, with no underscore and
    encoding after it: the slice [ftype[len("MULTILINE_"):]] starts one past
    the end of the type and ScanValue panics. *)
Theorem ScanValue_bare_multiline_panics (Unquote : string -> option string)
    (ms : MozScanner) (field : string) (rest : list string) :
  skippedHeader ms = true ->
  s ms = (field +:+ " MULTILINE") :: rest ->
  noSpace field = true -> isComment field = false ->
  ScanValue Unquote ms = Panic.
Proof.
  intros Hsk Hs Hf Hc.
  rewrite (ScanValue_step Unquote ms _ _ Hsk Hs).
  change (field +:+ " MULTILINE") with (field +:+ String GoString.space "MULTILINE").
  rewrite (scanLine_not_comment Unquote _ _ _ Hc).
  change (field +:+ String GoString.space "MULTILINE") with (field +:+ " " +:+ "MULTILINE").
  rewrite (SplitN_two_parts field "MULTILINE" Hf eq_refl). reflexivity.
Qed.

Lemma ScanValue_bare_multiline_panics_witness :
  ScanValue UnquotePlain
    (mkMozScanner ["CKA_VALUE MULTILINE"; "END"] 1 true zeroValue None ∅ None) = Panic.
Proof.
  apply (ScanValue_bare_multiline_panics UnquotePlain
           (mkMozScanner ["CKA_VALUE MULTILINE"; "END"] 1 true zeroValue None ∅ None)
           "CKA_VALUE" ["END"]); reflexivity.
Defined.

(** ** The line counter *)

(** The number of lines seen so far, counting those still in the stream. *)
Lemma skipHeader_loop_count (lines : list string) :
  forall n rest n' b, skipHeader_loop lines n = (rest, n', b) ->
  n' + Z.of_nat (length rest) = n + Z.of_nat (length lines).
Proof.
  induction lines as [|line tl IH]; intros n rest n' b; cbn [skipHeader_loop].
  - intros [= <- <- <-]. reflexivity.
  - destruct (String.eqb line "BEGINDATA").
    + intros [= <- <- <-]. cbn [length]. lia.
    + intros H. apply IH in H. cbn [length]. lia.
Qed.

Lemma readMultiline_loop_count {A : Type}
    (process : string -> A -> outcome (option error * A)) :
  forall lines n acc e acc' rest' n',
  readMultiline_loop process lines n acc = Ret (e, acc', (rest', n')) ->
  n' + Z.of_nat (length rest') = n + Z.of_nat (length lines).
Proof.
  induction lines as [|line rest IH]; intros n acc e acc' rest' n';
    cbn [readMultiline_loop].
  - intros [= <- <- <- <-]. reflexivity.
  - destruct (String.eqb line "END").
    + intros [= <- <- <- <-]. cbn [length]. lia.
    + destruct (process line acc) as [[[e0|] acc0]| |]; cbn [bind]; try discriminate.
      * intros [= <- <- <- <-]. cbn [length]. lia.
      * intros H. apply IH in H. cbn [length]. lia.
Qed.

Lemma readMultiline_count {A : Type}
    (process : string -> A -> outcome (option error * A))
    (ms : MozScanner) (acc : A) e acc' ms' :
  readMultiline process ms acc = Ret (e, acc', ms') ->
  ln ms' + Z.of_nat (length (s ms')) = ln ms + Z.of_nat (length (s ms)).
Proof.
  unfold readMultiline.
  destruct (readMultiline_loop process (s ms) (ln ms) acc)
    as [[[e0 acc0] [rest0 n0]]| |] eqn:E; cbn [bind]; try discriminate.
  intros [= <- <- <-]. cbn [ln s set_stream].
  eapply readMultiline_loop_count. exact E.
Qed.

Lemma scanLine_count (Unquote : string -> option string) (line : string)
    (ms : MozScanner) (b : bool) (ms' : MozScanner) :
  scanLine Unquote line ms = Ret (Some (b, ms')) ->
  ln ms' + Z.of_nat (length (s ms')) = ln ms + Z.of_nat (length (s ms)).
Proof.
  assert (Hemit : forall m field ftype value,
             emit m field ftype value = Ret (Some (b, ms')) ->
             ln ms' + Z.of_nat (length (s ms')) = ln m + Z.of_nat (length (s m))).
  { intros m field ftype value [= <- <-]. reflexivity. }
  assert (Hfail : forall m e,
             fail m e = Ret (Some (b, ms')) ->
             ln ms' + Z.of_nat (length (s ms')) = ln m + Z.of_nat (length (s m))).
  { intros m e [= <- <-]. reflexivity. }
  unfold scanLine.
  destruct line as [|c0 line']; [discriminate|].
  destruct (Ascii.eqb c0 _); [discriminate|].
  destruct (GoString.SplitN _ 3) as [|field [|ftype inline]]; try discriminate.
  assert (Hrest :
    (if GoString.HasPrefix ftype "MULTILINE"
     then match GoString.slice_from ftype (GoString.len "MULTILINE_") with
          | None => Panic
          | Some mltype =>
              if String.eqb mltype "OCTAL"
              then bind (readMultilineOctal ms)
                     (fun r => match r with
                               | (_, Some e, ms0) => fail ms0 e
                               | (value, None, ms0) => emit ms0 field ftype value
                               end)
              else bind (readMultilineGeneric ms)
                     (fun r => match r with
                               | (_, Some e, ms0) => fail ms0 e
                               | (_, None, ms0) => emit ms0 field ftype EmptyString
                               end)
          end
     else match inline with
          | p2 :: _ => emit ms field ftype p2
          | [] => emit ms field ftype EmptyString
          end) = Ret (Some (b, ms')) ->
    ln ms' + Z.of_nat (length (s ms')) = ln ms + Z.of_nat (length (s ms))).
  { destruct (GoString.HasPrefix ftype "MULTILINE").
    - destruct (GoString.slice_from ftype _) as [mltype|]; [|discriminate].
      destruct (String.eqb mltype "OCTAL").
      + unfold readMultilineOctal.
        destruct (readMultiline octalProcess ms EmptyString) as [[[e v] ms1]| |] eqn:E;
          cbn [bind]; try discriminate.
        apply readMultiline_count in E. rewrite <- E. apply Hemit.
      + unfold readMultilineGeneric.
        destruct (readMultiline genericProcess ms []) as [[[e v] ms1]| |] eqn:E;
          cbn [bind]; try discriminate.
        apply readMultiline_count in E. rewrite <- E. apply Hemit.
    - destruct inline; apply Hemit. }
  destruct (String.eqb ftype "UTF8"); [|exact Hrest].
  destruct inline as [|p2 tl]; [exact Hrest|].
  destruct (Unquote p2); [apply Hemit|].
  destruct (GoString.slice p2 1 _); [apply Hemit|discriminate].
Qed.

Lemma ScanValue_loop_count (Unquote : string -> option string) :
  forall lines ms b ms', s ms = lines ->
  ScanValue_loop Unquote lines ms = Ret (b, ms') ->
  ln ms' + Z.of_nat (length (s ms')) = ln ms + Z.of_nat (length lines).
Proof.
  induction lines as [|line rest IH]; intros ms b ms' Hs; cbn [ScanValue_loop].
  - intros [= <- <-]. rewrite Hs. reflexivity.
  - set (ms1 := set_stream ms rest (ln ms + 1)).
    destruct (scanLine Unquote line ms1) as [[[b1 ms2]|]| |] eqn:E; cbn [bind];
      try discriminate.
    + intros [= <- <-]. apply scanLine_count in E. rewrite E.
      cbn [ms1 ln s set_stream length]. lia.
    + intros H. apply (IH ms1 b ms' eq_refl) in H. rewrite H.
      cbn [ms1 ln s set_stream length]. lia.
Qed.

Lemma ScanValue_count (Unquote : string -> option string) (ms : MozScanner)
    (b : bool) (ms' : MozScanner) :
  ScanValue Unquote ms = Ret (b, ms') ->
  ln ms' + Z.of_nat (length (s ms')) = ln ms + Z.of_nat (length (s ms)).
Proof.
  unfold ScanValue.
  change (skippedHeader (set_valueError ms None)) with (skippedHeader ms).
  change (s (set_valueError ms None)) with (s ms).
  destruct (skippedHeader ms).
  - intros H.
    apply (ScanValue_loop_count Unquote (s ms) (set_valueError ms None) b ms' eq_refl) in H.
    exact H.
  - unfold skipHeader.
    change (s (set_valueError ms None)) with (s ms).
    change (ln (set_valueError ms None)) with (ln ms).
    destruct (skipHeader_loop (s ms) (ln ms)) as [[rest n] found] eqn:E.
    apply skipHeader_loop_count in E.
    destruct found.
    + intros H.
      apply (ScanValue_loop_count Unquote _
               (set_skippedHeader (set_stream (set_valueError ms None) rest n) true)
               b ms' eq_refl) in H.
      rewrite H. cbn [ln s set_stream set_skippedHeader]. exact E.
    + intros [= <- <-]. cbn [ln s set_stream set_valueError]. exact E.
Qed.

Lemma seekClass_count (Unquote : string -> option string) (fuel : nat) :
  forall value ms value' ms',
  seekClass Unquote fuel value ms = Ret (value', ms') ->
  ln ms' + Z.of_nat (length (s ms')) = ln ms + Z.of_nat (length (s ms)).
Proof.
  induction fuel as [|fuel IH]; intros value ms value' ms'; cbn [seekClass].
  - destruct (String.eqb _ _); [|discriminate]. intros [= <- <-]. reflexivity.
  - destruct (String.eqb _ _); [intros [= <- <-]; reflexivity|].
    destruct (ScanValue Unquote ms) as [[[] ms1]| |] eqn:E; cbn [bind]; try discriminate.
    + intros H. apply IH in H. apply ScanValue_count in E. lia.
    + intros [= <- <-]. apply ScanValue_count in E. exact E.
Qed.

Lemma foldFields_count (Unquote : string -> option string) (fuel : nat) :
  forall (object : gmap string string) ms sealed (object' : gmap string string) ms',
  foldFields Unquote fuel object ms = Ret (sealed, object', ms') ->
  ln ms' + Z.of_nat (length (s ms')) = ln ms + Z.of_nat (length (s ms)).
Proof.
  induction fuel as [|fuel IH]; intros object ms sealed object' ms';
    cbn [foldFields]; [discriminate|].
  destruct (ScanValue Unquote ms) as [[[] ms1]| |] eqn:E; cbn [bind]; try discriminate.
  - apply ScanValue_count in E.
    destruct (String.eqb _ _).
    + intros [= <- <- <-]. exact E.
    + intros H. apply IH in H. lia.
  - intros [= <- <- <-]. apply ScanValue_count in E. exact E.
Qed.

(** X7. LineNumber counts the lines taken from the input: over a call of
    ScanValue, and over a call of ScanObject, it grows by exactly the number
    of lines that left the stream, skipped lines and the lines of multiline
    values included. *)
Theorem LineNumber_counts_lines (Unquote : string -> option string)
    (ms : MozScanner) (b : bool) (ms' : MozScanner) :
  ScanValue Unquote ms = Ret (b, ms') \/ ScanObject Unquote ms = Ret (b, ms') ->
  LineNumber ms' - LineNumber ms =
  Z.of_nat (length (s ms)) - Z.of_nat (length (s ms')).
Proof.
  unfold LineNumber. intros [H|H].
  - apply ScanValue_count in H. lia.
  - revert H. unfold ScanObject.
    set (ms0 := set_objectError ms None).
    destruct (seekClass Unquote (S (length (s ms0))) (ScannerValue ms) ms0)
      as [[value ms1]| |] eqn:E1; cbn [bind]; try discriminate.
    apply seekClass_count in E1. change (ln ms0) with (ln ms) in E1.
    change (s ms0) with (s ms) in E1.
    destruct (ScanValueError ms1).
    { intros [= <- <-]. cbn [ln s set_objectError]. lia. }
    destruct (negb _).
    { intros [= <- <-]. lia. }
    destruct (foldFields Unquote (S (length (s ms1))) _ ms1)
      as [[[sealed object] ms2]| |] eqn:E2; cbn [bind]; try discriminate.
    apply foldFields_count in E2.
    destruct sealed.
    + intros [= <- <-]. cbn [ln s set_lastObject]. lia.
    + destruct (ScanValueError ms2); intros [= <- <-];
        cbn [ln s set_lastObject set_objectError]; lia.
Qed.

Lemma LineNumber_counts_lines_witness :
  LineNumber (mkMozScanner ["G T"] 5 true
                (mkMozValue "F" "MULTILINE_OCTAL" "ABC") None ∅ None) -
  LineNumber (NewMozScanner
                (text ["BEGINDATA"; "F MULTILINE_OCTAL"; "\101\102"; "\103"; "END"; "G T"])) =
  Z.of_nat (length (s (NewMozScanner
                (text ["BEGINDATA"; "F MULTILINE_OCTAL"; "\101\102"; "\103"; "END"; "G T"])))) -
  Z.of_nat (length (s (mkMozScanner ["G T"] 5 true
                (mkMozValue "F" "MULTILINE_OCTAL" "ABC") None ∅ None))).
Proof.
  apply (LineNumber_counts_lines UnquotePlain _ true).
  left. reflexivity.
Defined.

(** X8. What the result of ScanValue tells: a call that returns true has
    taken at least one line from the input and leaves no error to read; a
    call that leaves an error has returned false. *)
Theorem ScanValue_result_meaning (Unquote : string -> option string)
    (ms : MozScanner) (b : bool) (ms' : MozScanner) :
  ScanValue Unquote ms = Ret (b, ms') ->
  (b = true -> (length (s ms') < length (s ms))%nat /\ ScanValueError ms' = None) /\
  (forall e, ScanValueError ms' = Some e -> b = false).
Proof.
  intros H. destruct (ScanValue_spec Unquote ms) as [_ Hr].
  destruct (Hr b ms' H) as (_ & Ht & He).
  split; [exact Ht|].
  intros e Hse. destruct (He e Hse) as (_ & _ & Hb). exact Hb.
Qed.

Lemma ScanValue_result_meaning_witness :
  (length (s (mkMozScanner ["G T"] 2 true (mkMozValue "F" "T" "V") None ∅ None)) <
   length (s (mkMozScanner ["F T V"; "G T"] 1 true zeroValue None ∅ None)))%nat /\
  ScanValueError (mkMozScanner ["G T"] 2 true (mkMozValue "F" "T" "V") None ∅ None) = None.
Proof.
  refine (proj1 (ScanValue_result_meaning UnquotePlain
                   (mkMozScanner ["F T V"; "G T"] 1 true zeroValue None ∅ None) true
                   (mkMozScanner ["G T"] 2 true (mkMozValue "F" "T" "V") None ∅ None) _) _).
  - reflexivity.
  - reflexivity.
Defined.

(** * Further properties of the object assembler *)

(** ScanValue leaves the fields of ScanObject alone. *)
Lemma readMultiline_object_fields {A : Type}
    (process : string -> A -> outcome (option error * A))
    (ms : MozScanner) (acc : A) e acc' ms' :
  readMultiline process ms acc = Ret (e, acc', ms') ->
  objectError ms' = objectError ms /\ lastObject ms' = lastObject ms.
Proof.
  unfold readMultiline.
  destruct (readMultiline_loop process (s ms) (ln ms) acc)
    as [[[e0 acc0] [rest0 n0]]| |]; cbn [bind]; try discriminate.
  intros [= <- <- <-]. split; reflexivity.
Qed.

Lemma scanLine_object_fields (Unquote : string -> option string) (line : string)
    (ms : MozScanner) (b : bool) (ms' : MozScanner) :
  scanLine Unquote line ms = Ret (Some (b, ms')) ->
  objectError ms' = objectError ms /\ lastObject ms' = lastObject ms.
Proof.
  assert (Hemit : forall m field ftype value,
             emit m field ftype value = Ret (Some (b, ms')) ->
             objectError ms' = objectError m /\ lastObject ms' = lastObject m).
  { intros m field ftype value [= <- <-]. split; reflexivity. }
  unfold scanLine.
  destruct line as [|c0 line']; [discriminate|].
  destruct (Ascii.eqb c0 _); [discriminate|].
  destruct (GoString.SplitN _ 3) as [|field [|ftype inline]]; try discriminate.
  assert (Hrest :
    (if GoString.HasPrefix ftype "MULTILINE"
     then match GoString.slice_from ftype (GoString.len "MULTILINE_") with
          | None => Panic
          | Some mltype =>
              if String.eqb mltype "OCTAL"
              then bind (readMultilineOctal ms)
                     (fun r => match r with
                               | (_, Some e, ms0) => fail ms0 e
                               | (value, None, ms0) => emit ms0 field ftype value
                               end)
              else bind (readMultilineGeneric ms)
                     (fun r => match r with
                               | (_, Some e, ms0) => fail ms0 e
                               | (_, None, ms0) => emit ms0 field ftype EmptyString
                               end)
          end
     else match inline with
          | p2 :: _ => emit ms field ftype p2
          | [] => emit ms field ftype EmptyString
          end) = Ret (Some (b, ms')) ->
    objectError ms' = objectError ms /\ lastObject ms' = lastObject ms).
  { destruct (GoString.HasPrefix ftype "MULTILINE").
    - destruct (GoString.slice_from ftype _) as [mltype|]; [|discriminate].
      destruct (String.eqb mltype "OCTAL").
      + unfold readMultilineOctal.
        destruct (readMultiline octalProcess ms EmptyString) as [[[e v] ms1]| |] eqn:E;
          cbn [bind]; try discriminate.
        apply readMultiline_object_fields in E as [<- <-]. apply Hemit.
      + unfold readMultilineGeneric.
        destruct (readMultiline genericProcess ms []) as [[[e v] ms1]| |] eqn:E;
          cbn [bind]; try discriminate.
        apply readMultiline_object_fields in E as [<- <-]. apply Hemit.
    - destruct inline; apply Hemit. }
  destruct (String.eqb ftype "UTF8"); [|exact Hrest].
  destruct inline as [|p2 tl]; [exact Hrest|].
  destruct (Unquote p2); [apply Hemit|].
  destruct (GoString.slice p2 1 _); [apply Hemit|discriminate].
Qed.

Lemma ScanValue_loop_object_fields (Unquote : string -> option string) :
  forall lines ms b ms',
  ScanValue_loop Unquote lines ms = Ret (b, ms') ->
  objectError ms' = objectError ms /\ lastObject ms' = lastObject ms.
Proof.
  induction lines as [|line rest IH]; intros ms b ms'; cbn [ScanValue_loop].
  - intros [= <- <-]. split; reflexivity.
  - destruct (scanLine Unquote line (set_stream ms rest (ln ms + 1)))
      as [[[b1 ms2]|]| |] eqn:E; cbn [bind]; try discriminate.
    + intros [= <- <-]. apply scanLine_object_fields in E. exact E.
    + intros H. apply IH in H. exact H.
Qed.

Lemma ScanValue_object_fields (Unquote : string -> option string)
    (ms : MozScanner) (b : bool) (ms' : MozScanner) :
  ScanValue Unquote ms = Ret (b, ms') ->
  objectError ms' = objectError ms /\ lastObject ms' = lastObject ms.
Proof.
  unfold ScanValue.
  change (skippedHeader (set_valueError ms None)) with (skippedHeader ms).
  destruct (skippedHeader ms).
  - intros H. apply ScanValue_loop_object_fields in H. exact H.
  - unfold skipHeader.
    destruct (skipHeader_loop _ _) as [[rest n] []].
    + intros H. apply ScanValue_loop_object_fields in H. exact H.
    + intros [= <- <-]. split; reflexivity.
Qed.

Lemma set_objectError_same (ms : MozScanner) :
  objectError ms = None -> set_objectError ms None = ms.
Proof. destruct ms. cbn. intros ->. reflexivity. Qed.

Lemma ScansValues_object_fields (Unquote : string -> option string)
    (ms : MozScanner) (values : list MozValue) (ms' : MozScanner) :
  ScansValues Unquote ms values ms' ->
  objectError ms' = objectError ms /\ lastObject ms' = lastObject ms.
Proof.
  induction 1 as [ms|ms ms1 ms' values Hsv _ [IH1 IH2]]; [split; reflexivity|].
  apply ScanValue_object_fields in Hsv as [H1 H2]. split; congruence.
Qed.

Lemma ScansValues_length (Unquote : string -> option string)
    (ms : MozScanner) (values : list MozValue) (ms' : MozScanner) :
  ScansValues Unquote ms values ms' ->
  (length (s ms') + length values <= length (s ms))%nat.
Proof.
  induction 1 as [ms|ms ms1 ms' values Hsv _ IH]; [cbn; lia|].
  destruct (ScanValue_spec Unquote ms) as [_ Hr].
  destruct (Hr true ms1 Hsv) as (_ & Ht & _). destruct (Ht eq_refl) as [Hlt _].
  cbn [length]. lia.
Qed.

(** The second loop of ScanObject over values that are not CKA_CLASS
    values, up to the call of ScanValue that ends it. *)
Lemma foldFields_chain (Unquote : string -> option string)
    (ms : MozScanner) (fields : list MozValue) (ms1 : MozScanner) :
  ScansValues Unquote ms fields ms1 ->
  Forall notClass fields ->
  forall b ms2, ScanValue Unquote ms1 = Ret (b, ms2) ->
  (b = true -> Field (lastValue ms2) = "CKA_CLASS") ->
  forall fuel (object : gmap string string), (length (s ms) < fuel)%nat ->
  foldFields Unquote fuel object ms = Ret (b, insertAll object fields, ms2).
Proof.
  induction 1 as [ms|ms msa ms1 fields Hsv Hchain IH];
    intros Hnc b ms2 Hlast Hb fuel object Hfuel.
  - destruct fuel as [|fuel]; [lia|]. cbn [foldFields]. rewrite Hlast. cbn [bind].
    destruct b; [|reflexivity].
    unfold ScannerValue. rewrite (Hb eq_refl).
    replace (String.eqb "CKA_CLASS" "CKA_CLASS") with true by reflexivity. reflexivity.
  - destruct fuel as [|fuel]; [lia|]. cbn [foldFields]. rewrite Hsv. cbn [bind].
    inversion Hnc as [|v vs Hv Hvs]; subst.
    unfold notClass in Hv. apply String.eqb_neq in Hv. rewrite Hv.
    destruct (ScanValue_spec Unquote ms) as [_ Hr].
    destruct (Hr true msa Hsv) as (_ & Ht & _). destruct (Ht eq_refl) as [Hlt _].
    rewrite (IH Hvs b ms2 Hlast Hb fuel _ ltac:(lia)). reflexivity.
Qed.

Lemma last_any_default {A : Type} (x : A) (l : list A) (d d' : A) :
  List.last (x :: l) d = List.last (x :: l) d'.
Proof.
  revert x. induction l as [|y l IH]; intros x; [reflexivity|].
  change (List.last (x :: y :: l) d) with (List.last (y :: l) d).
  change (List.last (x :: y :: l) d') with (List.last (y :: l) d').
  apply IH.
Qed.

Lemma last_cons_any {A : Type} (x : A) (l : list A) (d : A) :
  List.last (x :: l) d = List.last l x.
Proof.
  destruct l as [|y l]; [reflexivity|].
  change (List.last (x :: y :: l) d) with (List.last (y :: l) d).
  apply last_any_default.
Qed.

(** The first loop of ScanObject over values that are not CKA_CLASS values. *)
Lemma seekClass_chain (Unquote : string -> option string)
    (ms : MozScanner) (skipped : list MozValue) (ms1 : MozScanner) :
  ScansValues Unquote ms skipped ms1 ->
  Forall notClass skipped ->
  forall value b ms2, notClass value ->
  ScanValue Unquote ms1 = Ret (b, ms2) ->
  (b = true -> Field (lastValue ms2) = "CKA_CLASS") ->
  forall fuel, (length (s ms) < fuel)%nat ->
  seekClass Unquote fuel value ms =
  Ret (if b then lastValue ms2 else List.last skipped value, ms2).
Proof.
  induction 1 as [ms|ms msa ms1 skipped Hsv Hchain IH];
    intros Hnc value b ms2 Hv Hlast Hb fuel Hfuel.
  - destruct fuel as [|fuel]; [lia|]. cbn [seekClass].
    unfold notClass in Hv. apply String.eqb_neq in Hv. rewrite Hv, Hlast. cbn [bind].
    destruct b; [|reflexivity].
    destruct fuel; cbn [seekClass]; unfold ScannerValue; rewrite (Hb eq_refl);
      replace (String.eqb "CKA_CLASS" "CKA_CLASS") with true by reflexivity; reflexivity.
  - destruct fuel as [|fuel]; [lia|]. cbn [seekClass].
    unfold notClass in Hv. apply String.eqb_neq in Hv. rewrite Hv, Hsv. cbn [bind].
    inversion Hnc as [|v vs Hv' Hvs]; subst.
    destruct (ScanValue_spec Unquote ms) as [_ Hr].
    destruct (Hr true msa Hsv) as (_ & Ht & _). destruct (Ht eq_refl) as [Hlt _].
    rewrite (IH Hvs (ScannerValue msa) b ms2 Hv' Hlast Hb fuel ltac:(lia)).
    destruct b; [reflexivity|].
    f_equal. f_equal. symmetry. apply last_cons_any.
Qed.

(** X9. An object is the CKA_CLASS value the scanner stands after, then the
    values that follow, each stored under its field in the order of the
    input, up to the next CKA_CLASS value or the end of the input; that next
    CKA_CLASS value is left as the last value of the scanner. *)
Theorem ScanObject_assembles (Unquote : string -> option string)
    (ms : MozScanner) (fields : list MozValue) (ms1 : MozScanner)
    (b : bool) (ms2 : MozScanner) :
  Field (lastValue ms) = "CKA_CLASS" ->
  ScanValueError ms = None -> ScanObjectError ms = None ->
  ScansValues Unquote ms fields ms1 -> Forall notClass fields ->
  ScanValue Unquote ms1 = Ret (b, ms2) ->
  (b = true -> Field (lastValue ms2) = "CKA_CLASS") ->
  (b = false -> ScanValueError ms2 = None) ->
  ScanObject Unquote ms =
  Ret (true, set_lastObject ms2
               (insertAll (<["CKA_CLASS" := Value (lastValue ms)]> ∅) fields)).
Proof.
  intros Hclass Hve Hoe Hchain Hnc Hlast Hb Hend.
  unfold ScanObject, ScannerValue. rewrite (set_objectError_same ms Hoe).
  cbn [seekClass]. rewrite Hclass.
  replace (String.eqb "CKA_CLASS" "CKA_CLASS") with true by reflexivity.
  cbn [bind]. rewrite Hve, !Hclass.
  replace (String.eqb "CKA_CLASS" "CKA_CLASS") with true by reflexivity.
  cbn [negb].
  rewrite (foldFields_chain Unquote ms fields ms1 Hchain Hnc b ms2 Hlast Hb
             (S (length (s ms))) _ ltac:(lia)).
  cbn [bind]. destruct b; [reflexivity|]. rewrite (Hend eq_refl). reflexivity.
Qed.

Lemma ScanObject_assembles_witness :
  ScanObject UnquotePlain sampleAfterClass =
  Ret (true,
       set_lastObject
         (mkMozScanner ["CKA_MODIFIABLE CK_BBOOL CK_FALSE"] 5 true
                       (mkMozValue "CKA_CLASS" "CK_OBJECT_CLASS" "CKO_NSS_TRUST")
                       None ∅ None)
         (insertAll (<["CKA_CLASS" := Value (lastValue sampleAfterClass)]> ∅)
                    [mkMozValue "CKA_TOKEN" "CK_BBOOL" "CK_TRUE";
                     mkMozValue "CKA_TOKEN" "CK_BBOOL" "CK_FALSE"])).
Proof.
  pose (m1 := mkMozScanner [ "CKA_TOKEN CK_BBOOL CK_FALSE";
                             "CKA_CLASS CK_OBJECT_CLASS CKO_NSS_TRUST";
                             "CKA_MODIFIABLE CK_BBOOL CK_FALSE" ]
                           3 true (mkMozValue "CKA_TOKEN" "CK_BBOOL" "CK_TRUE") None ∅ None).
  pose (m2 := mkMozScanner [ "CKA_CLASS CK_OBJECT_CLASS CKO_NSS_TRUST";
                             "CKA_MODIFIABLE CK_BBOOL CK_FALSE" ]
                           4 true (mkMozValue "CKA_TOKEN" "CK_BBOOL" "CK_FALSE") None ∅ None).
  apply (ScanObject_assembles UnquotePlain sampleAfterClass _ m2 true).
  - reflexivity.
  - reflexivity.
  - reflexivity.
  - apply (ScansValues_cons UnquotePlain sampleAfterClass m1 m2); [reflexivity|].
    apply (ScansValues_cons UnquotePlain m1 m2 m2); [reflexivity|].
    apply ScansValues_nil.
  - repeat constructor; discriminate.
  - reflexivity.
  - reflexivity.
  - discriminate.
Defined.

Lemma last_notClass (skipped : list MozValue) (value : MozValue) :
  notClass value -> Forall notClass skipped -> notClass (List.last skipped value).
Proof.
  intros Hv Hs. revert value Hv. induction Hs as [|x l Hx Hl IH]; intros value Hv.
  - exact Hv.
  - rewrite last_cons_any. apply IH. exact Hx.
Qed.

(** X10. Values met before a CKA_CLASS value, on a scanner that does not
    stand after one, belong to no object: ScanObject passes them over and
    gives what it gives from the CKA_CLASS value on; when the input ends
    with no CKA_CLASS value, ScanObject returns false, with the error of
    ScanValue, if any, as its own. *)
Theorem ScanObject_drops_leading_values (Unquote : string -> option string)
    (ms : MozScanner) (skipped : list MozValue) (ms1 : MozScanner)
    (b : bool) (ms2 : MozScanner) :
  notClass (lastValue ms) -> ScanObjectError ms = None ->
  ScansValues Unquote ms skipped ms1 -> Forall notClass skipped ->
  ScanValue Unquote ms1 = Ret (b, ms2) ->
  (b = true -> Field (lastValue ms2) = "CKA_CLASS") ->
  (b = true -> ScanObject Unquote ms = ScanObject Unquote ms2) /\
  (b = false -> exists ms', ScanObject Unquote ms = Ret (false, ms') /\
                            ScanObjectError ms' = ScanValueError ms2).
Proof.
  intros Hv Hoe Hchain Hnc Hlast Hb.
  pose proof (seekClass_chain Unquote ms skipped ms1 Hchain Hnc (lastValue ms) b ms2
                Hv Hlast Hb (S (length (s ms))) ltac:(lia)) as Hseek.
  destruct (ScansValues_object_fields Unquote ms skipped ms1 Hchain) as [Hoe1 _].
  destruct (ScanValue_object_fields Unquote ms1 b ms2 Hlast) as [Hoe2 _].
  assert (Hoe' : objectError ms2 = None)
    by (unfold ScanObjectError in Hoe; congruence).
  split; intros ->.
  - unfold ScanObject at 1, ScannerValue. rewrite (set_objectError_same ms Hoe), Hseek.
    unfold ScanObject, ScannerValue. rewrite (set_objectError_same ms2 Hoe').
    cbn [seekClass]. rewrite (Hb eq_refl).
    replace (String.eqb "CKA_CLASS" "CKA_CLASS") with true by reflexivity.
    reflexivity.
  - unfold ScanObject, ScannerValue. rewrite (set_objectError_same ms Hoe), Hseek.
    cbn [bind]. unfold ScanValueError, ScanObjectError.
    destruct (valueError ms2) as [e|] eqn:E.
    + eexists. split; [reflexivity|]. reflexivity.
    + pose proof (last_notClass skipped (lastValue ms) Hv Hnc) as Hl.
      unfold notClass in Hl. apply String.eqb_neq in Hl. rewrite Hl. cbn [negb].
      eexists. split; [reflexivity|]. exact Hoe'.
Qed.

Lemma ScanObject_drops_leading_values_witness :
  ScanObject UnquotePlain sampleBeforeClass =
  ScanObject UnquotePlain
    (mkMozScanner ["CKA_MODIFIABLE CK_BBOOL CK_FALSE"] 5 true
                  (mkMozValue "CKA_CLASS" "CK_OBJECT_CLASS" "CKO_NSS_TRUST") None ∅ None).
Proof.
  pose (m1 := mkMozScanner [ "CKA_TOKEN CK_BBOOL CK_FALSE";
                             "CKA_CLASS CK_OBJECT_CLASS CKO_NSS_TRUST";
                             "CKA_MODIFIABLE CK_BBOOL CK_FALSE" ]
                           3 true (mkMozValue "CKA_TOKEN" "CK_BBOOL" "CK_TRUE") None ∅ None).
  pose (m2 := mkMozScanner [ "CKA_CLASS CK_OBJECT_CLASS CKO_NSS_TRUST";
                             "CKA_MODIFIABLE CK_BBOOL CK_FALSE" ]
                           4 true (mkMozValue "CKA_TOKEN" "CK_BBOOL" "CK_FALSE") None ∅ None).
  refine (proj1 (ScanObject_drops_leading_values UnquotePlain sampleBeforeClass
                   [mkMozValue "CKA_TOKEN" "CK_BBOOL" "CK_TRUE";
                    mkMozValue "CKA_TOKEN" "CK_BBOOL" "CK_FALSE"] m2 true _ _ _ _ _ _ _)
                eq_refl).
  - discriminate.
  - reflexivity.
  - apply (ScansValues_cons UnquotePlain sampleBeforeClass m1 m2); [reflexivity|].
    apply (ScansValues_cons UnquotePlain m1 m2 m2); [reflexivity|].
    apply ScansValues_nil.
  - repeat constructor; discriminate.
  - reflexivity.
  - reflexivity.
Defined.

Lemma insertAll_app (object : gmap string string) (before after : list MozValue) :
  insertAll object (before ++ after) = insertAll (insertAll object before) after.
Proof. unfold insertAll. apply fold_left_app. Qed.

Lemma insertAll_other (values : list MozValue) (key : string) :
  Forall (fun w => Field w <> key) values ->
  forall object : gmap string string, insertAll object values !! key = object !! key.
Proof.
  induction 1 as [|w l Hw Hl IH]; intros object; [reflexivity|].
  cbn [insertAll fold_left]. change (fold_left _ l ?o) with (insertAll o l).
  rewrite IH. apply lookup_insert_ne. exact Hw.
Qed.

(** X11. Within an object the last value of a field wins: after the values
    are stored in turn, a field holds the text of the last value that
    carries it, and a key that no value carries holds what it held. *)
Theorem insertAll_last_wins (object : gmap string string)
    (before after : list MozValue) (value : MozValue) :
  Forall (fun w => Field w <> Field value) after ->
  insertAll object (before ++ value :: after) !! Field value = Some (Value value) /\
  forall key, Forall (fun w => Field w <> key) (before ++ value :: after) ->
              insertAll object (before ++ value :: after) !! key = object !! key.
Proof.
  intros Hafter. split.
  - rewrite insertAll_app. cbn [insertAll fold_left].
    change (fold_left _ after ?o) with (insertAll o after).
    rewrite (insertAll_other after _ Hafter). apply lookup_insert_eq.
  - intros key Hkey. apply insertAll_other. exact Hkey.
Qed.

Lemma insertAll_last_wins_witness :
  insertAll (<["CKA_CLASS" := "CKO_CERTIFICATE"]> ∅)
            ([mkMozValue "CKA_TOKEN" "CK_BBOOL" "CK_TRUE"] ++
             mkMozValue "CKA_TOKEN" "CK_BBOOL" "CK_FALSE" :: [])
    !! Field (mkMozValue "CKA_TOKEN" "CK_BBOOL" "CK_FALSE") =
  Some (Value (mkMozValue "CKA_TOKEN" "CK_BBOOL" "CK_FALSE")).
Proof.
  apply (insertAll_last_wins (<["CKA_CLASS" := "CKO_CERTIFICATE"]> ∅)
           [mkMozValue "CKA_TOKEN" "CK_BBOOL" "CK_TRUE"] []
           (mkMozValue "CKA_TOKEN" "CK_BBOOL" "CK_FALSE")).
  constructor.
Defined.

(** ** The missing header, end to end *)

Lemma ScanObject_header_missing (Unquote : string -> option string) (f : string) :
  ~ In "BEGINDATA" (Bufio.ScanLines f) ->
  exists ms', ScanObject Unquote (NewMozScanner f) = Ret (false, ms') /\
              ScanObjectError ms' = Some ErrNoBeginData.
Proof.
  intros Hno. unfold ScanObject, ScannerValue.
  cbn [NewMozScanner lastValue set_objectError s ln skippedHeader valueError
       lastObject objectError seekClass zeroValue Field].
  replace (String.eqb EmptyString "CKA_CLASS") with false by reflexivity.
  rewrite ScanValue_header_missing; [|reflexivity|exact Hno].
  cbn. eexists. split; reflexivity.
Qed.

(** X12. An input with no BEGINDATA line, the empty input among them, makes
    ScanObject return false with the error of the missing header, which
    ReadObjects and ReadTrustedCerts return as theirs. *)
Theorem missing_header_fails (Unquote : string -> option string)
    (Certificate : Type) (ParseCertificate : string -> option Certificate)
    (fuel : nat) (f : string) :
  ~ In "BEGINDATA" (Bufio.ScanLines f) ->
  ReadObjects Unquote (S fuel) f = Ret (Err ErrNoBeginData) /\
  ReadTrustedCerts Unquote Certificate ParseCertificate (S fuel) f =
  Ret (Err ErrNoBeginData).
Proof.
  intros Hno.
  destruct (ScanObject_header_missing Unquote f Hno) as (ms' & Hso & He).
  assert (Hro : ReadObjects Unquote (S fuel) f = Ret (Err ErrNoBeginData)).
  { unfold ReadObjects. cbn [ReadObjects_loop]. rewrite Hso. cbn [bind].
    rewrite He. reflexivity. }
  split; [exact Hro|].
  unfold ReadTrustedCerts. rewrite Hro. reflexivity.
Qed.

Lemma missing_header_fails_witness :
  ReadObjects UnquotePlain 1 EmptyString = Ret (Err ErrNoBeginData) /\
  ReadTrustedCerts UnquotePlain string ParseCertificateTag 1 EmptyString =
  Ret (Err ErrNoBeginData).
Proof.
  apply (missing_header_fails UnquotePlain string ParseCertificateTag 0 EmptyString).
  vm_compute. intros [].
Defined.

(** * Further properties of the trust resolver *)

(** The loop body of findTrusted, when it does not return an error. *)
Lemma findTrusted_step_ok (trusted trusted' : gmap string TrustLevel)
    (obj : gmap string string) :
  findTrusted_step trusted obj = Ok trusted' ->
  trusted' = if grants obj then <[obj_get obj "CKA_LABEL" := levelOf obj]> trusted
             else trusted.
Proof.
  unfold findTrusted_step, grants, levelOf, hasPurpose.
  cbn [ServerTrustedDelegator EmailTrustedDelegator CodeTrustedDelegator].
  destruct (String.eqb (obj_get obj "CKA_CLASS") "CKO_NSS_TRUST"); cbn [negb andb];
    [|intros [= <-]; reflexivity].
  repeat match goal with
         | |- (if negb ?c then _ else _) = _ -> _ => destruct c; cbn [negb]; [|discriminate]
         end.
  destruct (_ || _ || _); cbn [negb andb]; [intros [= <-]; reflexivity|].
  destruct (_ || _ || _); intros [= <-]; reflexivity.
Qed.

Lemma findTrusted_step_known (trusted : gmap string TrustLevel)
    (obj : gmap string string) :
  (isTrustDecl obj -> ~ unknownLevel obj) ->
  exists trusted', findTrusted_step trusted obj = Ok trusted'.
Proof.
  intros Hk. unfold findTrusted_step.
  destruct (String.eqb (obj_get obj "CKA_CLASS") "CKO_NSS_TRUST") eqn:Ec; cbn [negb];
    [|eauto].
  apply String.eqb_eq in Ec. specialize (Hk Ec). unfold unknownLevel in Hk.
  destruct (contains (obj_get obj "CKA_TRUST_SERVER_AUTH") knownTrustLevels) eqn:E1;
    [|exfalso; apply Hk; left; intros H; apply contains_In in H; congruence].
  destruct (contains (obj_get obj "CKA_TRUST_EMAIL_PROTECTION") knownTrustLevels) eqn:E2;
    [|exfalso; apply Hk; right; left; intros H; apply contains_In in H; congruence].
  destruct (contains (obj_get obj "CKA_TRUST_CODE_SIGNING") knownTrustLevels) eqn:E3;
    [|exfalso; apply Hk; right; right; intros H; apply contains_In in H; congruence].
  cbn [negb]. destruct (_ || _ || _); [eauto|]. destruct (_ || _ || _); eauto.
Qed.

(** X13. findTrusted fails for an unknown trust level only: when every
    trust declaration of the list has its three fields in the vocabulary,
    it returns a map. *)
Theorem findTrusted_known_levels_succeed (objects : list (gmap string string)) :
  Forall (fun obj => isTrustDecl obj -> ~ unknownLevel obj) objects ->
  exists trusted, findTrusted objects = Ok trusted.
Proof.
  unfold findTrusted. generalize (∅ : gmap string TrustLevel).
  induction objects as [|obj rest IH]; intros trusted Hk; cbn [findTrusted_loop].
  - eauto.
  - inversion Hk as [|o l Ho Hl]; subst.
    destruct (findTrusted_step_known trusted obj Ho) as [t' Ht]. rewrite Ht.
    apply IH. exact Hl.
Qed.

Lemma findTrusted_known_levels_succeed_witness :
  exists trusted, findTrusted [grantingDecl; vetoedDecl] = Ok trusted.
Proof.
  apply (findTrusted_known_levels_succeed [grantingDecl; vetoedDecl]).
  repeat constructor; intros _ [H|[H|H]]; apply H; vm_compute; tauto.
Defined.

(** X14. An object that is not a trust declaration has no part in the trust
    map: findTrusted gives for the list what it gives without it. *)
Theorem findTrusted_ignores_other_objects
    (pre post : list (gmap string string)) (obj : gmap string string) :
  ~ isTrustDecl obj ->
  findTrusted (pre ++ obj :: post) = findTrusted (pre ++ post).
Proof.
  intros Hn. unfold findTrusted. rewrite !loop_app.
  destruct (findTrusted_loop pre ∅) as [t|e]; [|reflexivity].
  cbn [findTrusted_loop]. unfold findTrusted_step at 1.
  unfold isTrustDecl in Hn. apply String.eqb_neq in Hn. rewrite Hn. reflexivity.
Qed.

Lemma findTrusted_ignores_other_objects_witness :
  findTrusted ([grantingDecl] ++ (<["CKA_CLASS" := "CKO_CERTIFICATE"]> ∅) :: [vetoedDecl]) =
  findTrusted ([grantingDecl] ++ [vetoedDecl]).
Proof.
  apply (findTrusted_ignores_other_objects [grantingDecl]
           [vetoedDecl] (<["CKA_CLASS" := "CKO_CERTIFICATE"]> ∅)).
  vm_compute. discriminate.
Defined.

Lemma findTrusted_loop_entry (objects : list (gmap string string)) :
  forall (trusted m : gmap string TrustLevel) (label : string) (t : TrustLevel),
  findTrusted_loop objects trusted = Ok m ->
  m !! label = Some t ->
  (trusted !! label = Some t /\
   Forall (fun o => grants o = true -> obj_get o "CKA_LABEL" <> label) objects) \/
  exists pre obj post,
    objects = pre ++ obj :: post /\ grants obj = true /\
    obj_get obj "CKA_LABEL" = label /\ t = levelOf obj /\
    Forall (fun o => grants o = true -> obj_get o "CKA_LABEL" <> label) post.
Proof.
  induction objects as [|o rest IH]; intros trusted m label t; cbn [findTrusted_loop].
  - intros [= <-] Hl. left. split; [exact Hl | constructor].
  - destruct (findTrusted_step trusted o) as [t'|e] eqn:Es; [|discriminate].
    apply findTrusted_step_ok in Es. intros Hm Hl.
    destruct (IH t' m label t Hm Hl) as [[Ht' Hrest]|(pre & obj & post & -> & Hg & Hlab & Ht & Hpost)].
    + subst t'. destruct (grants o) eqn:Eg.
      * destruct (String.eq_dec (obj_get o "CKA_LABEL") label) as [Heq|Hne].
        -- right. exists [], o, rest. rewrite Heq in Ht'. rewrite lookup_insert_eq in Ht'.
           injection Ht' as <-. auto.
        -- left. rewrite lookup_insert_ne in Ht' by exact Hne.
           split; [exact Ht'|]. constructor; [intros _; exact Hne | exact Hrest].
      * left. split; [exact Ht'|]. constructor; [congruence | exact Hrest].
    + right. exists (o :: pre), obj, post. auto.
Qed.

(** X15. An entry of the trust map comes from a declaration of the list:
    a trust declaration with that label, none of whose fields is
    CKT_NSS_NOT_TRUSTED; the entry has the purposes for which the
    declaration says CKT_NSS_TRUSTED_DELEGATOR, and the declaration is the
    last of the list that passes these tests for the label. *)
Theorem findTrusted_entry_origin (objects : list (gmap string string))
    (m : gmap string TrustLevel) (label : string) (t : TrustLevel) :
  findTrusted objects = Ok m -> m !! label = Some t ->
  exists pre obj post,
    objects = pre ++ obj :: post /\ grants obj = true /\
    obj_get obj "CKA_LABEL" = label /\ t = levelOf obj /\
    Forall (fun o => grants o = true -> obj_get o "CKA_LABEL" <> label) post.
Proof.
  intros Hm Hl.
  destruct (findTrusted_loop_entry objects ∅ m label t Hm Hl) as [[H _]|H];
    [|exact H].
  rewrite lookup_empty in H. discriminate.
Qed.

Lemma findTrusted_entry_origin_witness :
  exists pre obj post,
    [vetoedDecl; grantingDecl] = pre ++ obj :: post /\ grants obj = true /\
    obj_get obj "CKA_LABEL" = "Other Root" /\
    mkTrustLevel true false false = levelOf obj /\
    Forall (fun o => grants o = true -> obj_get o "CKA_LABEL" <> "Other Root") post.
Proof.
  apply (findTrusted_entry_origin [vetoedDecl; grantingDecl]
           (<["Other Root" := mkTrustLevel true false false]> ∅)).
  - reflexivity.
  - reflexivity.
Defined.

Lemma findTrusted_loop_absent (objects : list (gmap string string)) (label : string) :
  Forall (fun o => grants o = true -> obj_get o "CKA_LABEL" <> label) objects ->
  forall trusted m, findTrusted_loop objects trusted = Ok m ->
  m !! label = trusted !! label.
Proof.
  induction 1 as [|o rest Ho Hrest IH]; intros trusted m; cbn [findTrusted_loop].
  - intros [= <-]. reflexivity.
  - destruct (findTrusted_step trusted o) as [t'|e] eqn:Es; [|discriminate].
    apply findTrusted_step_ok in Es. intros Hm. rewrite (IH t' m Hm). subst t'.
    destruct (grants o); [|reflexivity].
    apply lookup_insert_ne. apply Ho. reflexivity.
Qed.

(** X16. The last declaration that grants trust for a label decides its
    entry: declarations before it are overwritten, and declarations after
    it that grant nothing -- a CKT_NSS_NOT_TRUSTED field, or no
    CKT_NSS_TRUSTED_DELEGATOR field -- leave the entry in place. *)
Theorem findTrusted_last_grant_wins
    (pre post : list (gmap string string)) (obj : gmap string string)
    (m : gmap string TrustLevel) :
  findTrusted (pre ++ obj :: post) = Ok m ->
  grants obj = true ->
  Forall (fun o => grants o = true ->
                   obj_get o "CKA_LABEL" <> obj_get obj "CKA_LABEL") post ->
  m !! obj_get obj "CKA_LABEL" = Some (levelOf obj).
Proof.
  unfold findTrusted. rewrite loop_app.
  destruct (findTrusted_loop pre ∅) as [t0|e]; [|discriminate].
  cbn [findTrusted_loop].
  destruct (findTrusted_step t0 obj) as [t1|e] eqn:Es; [|discriminate].
  apply findTrusted_step_ok in Es. intros Hm Hg Hpost.
  rewrite (findTrusted_loop_absent post _ Hpost t1 m Hm). subst t1.
  rewrite Hg. apply lookup_insert_eq.
Qed.

Lemma findTrusted_last_grant_wins_witness :
  (<["Acme Root" := mkTrustLevel false true false]> ∅ : gmap string TrustLevel)
    !! obj_get (trustDecl "Acme Root" "CKT_NSS_MUST_VERIFY_TRUST"
                          "CKT_NSS_TRUSTED_DELEGATOR" "CKT_NSS_MUST_VERIFY_TRUST")
               "CKA_LABEL" =
  Some (levelOf (trustDecl "Acme Root" "CKT_NSS_MUST_VERIFY_TRUST"
                           "CKT_NSS_TRUSTED_DELEGATOR" "CKT_NSS_MUST_VERIFY_TRUST")).
Proof.
  apply (findTrusted_last_grant_wins
           [trustDecl "Acme Root" "CKT_NSS_TRUSTED_DELEGATOR"
                      "CKT_NSS_MUST_VERIFY_TRUST" "CKT_NSS_MUST_VERIFY_TRUST"]
           [vetoedDecl]
           (trustDecl "Acme Root" "CKT_NSS_MUST_VERIFY_TRUST"
                      "CKT_NSS_TRUSTED_DELEGATOR" "CKT_NSS_MUST_VERIFY_TRUST")).
  - reflexivity.
  - reflexivity.
  - repeat constructor. vm_compute. discriminate.
Defined.

(** * Further properties of the certificate extractor *)

Lemma extract_fold_concat {Certificate : Type}
    (ParseCertificate : string -> option Certificate)
    (trusted : gmap string TrustLevel) (objects : list (gmap string string)) :
  forall certs,
  fold_left (extract_step Certificate ParseCertificate trusted) objects certs =
  certs ++ flat_map (extract_step Certificate ParseCertificate trusted []) objects.
Proof.
  induction objects as [|obj rest IH]; intros certs; cbn [fold_left flat_map].
  - rewrite app_nil_r. reflexivity.
  - rewrite IH. rewrite app_assoc. f_equal.
    unfold extract_step.
    destruct (negb _); [rewrite app_nil_r; reflexivity|].
    destruct (trusted !! _); [|rewrite app_nil_r; reflexivity].
    destruct (ParseCertificate _); [reflexivity | rewrite app_nil_r; reflexivity].
Qed.



Lemma extract_step_member {Certificate : Type}
    (ParseCertificate : string -> option Certificate)
    (trusted : gmap string TrustLevel) (obj : gmap string string)
    (c : Cert Certificate) :
  In c (extract_step Certificate ParseCertificate trusted [] obj) <->
  obj_get obj "CKA_CLASS" = "CKO_CERTIFICATE" /\
  exists t x, trusted !! obj_get obj "CKA_LABEL" = Some t /\
              ParseCertificate (obj_get obj "CKA_VALUE") = Some x /\
              c = mkCert (obj_get obj "CKA_LABEL") (obj_get obj "CKA_VALUE") t (Some x).
Proof.
  unfold extract_step.
  destruct (String.eqb (obj_get obj "CKA_CLASS") "CKO_CERTIFICATE") eqn:Ec; cbn [negb].
  - apply String.eqb_eq in Ec.
    destruct (trusted !! obj_get obj "CKA_LABEL") as [t|].
    + destruct (ParseCertificate (obj_get obj "CKA_VALUE")) as [x|].
      * cbn [app In]. split.
        -- intros [<-|[]]. split; [exact Ec|]. exists t, x. auto.
        -- intros (_ & t' & x' & [= <-] & [= <-] & ->). left. reflexivity.
      * split; [intros [] | intros (_ & t' & x' & _ & H & _); discriminate].
    + split; [intros [] | intros (_ & t' & x' & H & _); discriminate].
  - apply String.eqb_neq in Ec. split; [intros [] | intros [H _]; contradiction].
Qed.

(** X18. Which records are returned: a record is in the list exactly when
    the input has a certificate object (CKA_CLASS equal to CKO_CERTIFICATE)
    whose label is in the trust map and whose CKA_VALUE ParseCertificate
    accepts; the record then carries that label, that value, the entry of
    the trust map and the parsed certificate. *)
Theorem ReadTrustedCerts_membership
    (Unquote : string -> option string) (Certificate : Type)
    (ParseCertificate : string -> option Certificate)
    (fuel : nat) (f : string) (objects : list (gmap string string))
    (trusted : gmap string TrustLevel) (certs : list (Cert Certificate)) :
  ReadObjects Unquote fuel f = Ret (Ok objects) ->
  findTrusted objects = Ok trusted ->
  ReadTrustedCerts Unquote Certificate ParseCertificate fuel f = Ret (Ok certs) ->
  forall c,
    In c certs <->
    exists obj t x,
      In obj objects /\ obj_get obj "CKA_CLASS" = "CKO_CERTIFICATE" /\
      trusted !! obj_get obj "CKA_LABEL" = Some t /\
      ParseCertificate (obj_get obj "CKA_VALUE") = Some x /\
      c = mkCert (obj_get obj "CKA_LABEL") (obj_get obj "CKA_VALUE") t (Some x).
Proof.
  intros Hobjs Ht. unfold ReadTrustedCerts. rewrite Hobjs. cbn [bind]. rewrite Ht.
  rewrite extract_fold_concat. cbn [app]. intros [= <-] c.
  rewrite in_flat_map. split.
  - intros (obj & Hin & Hc). apply extract_step_member in Hc as (Hcl & t & x & H1 & H2 & ->).
    exists obj, t, x. auto.
  - intros (obj & t & x & Hin & Hcl & H1 & H2 & ->). exists obj. split; [exact Hin|].
    apply extract_step_member. split; [exact Hcl|]. exists t, x. auto.
Qed.

Lemma ReadTrustedCerts_membership_witness :
  In (mkCert "Acme Root" sampleDER (mkTrustLevel true false false) (Some sampleDER))
     [mkCert "Acme Root" sampleDER (mkTrustLevel true false false) (Some sampleDER)] <->
  exists obj t x,
    In obj [ <["CKA_VALUE" := sampleDER]>
               (<["CKA_LABEL" := "Acme Root"]> (<["CKA_CLASS" := "CKO_CERTIFICATE"]> ∅));
             trustDecl "Acme Root" "CKT_NSS_TRUSTED_DELEGATOR"
                       "CKT_NSS_MUST_VERIFY_TRUST" "CKT_NSS_MUST_VERIFY_TRUST" ] /\
    obj_get obj "CKA_CLASS" = "CKO_CERTIFICATE" /\
    (<["Acme Root" := mkTrustLevel true false false]> ∅ : gmap string TrustLevel)
      !! obj_get obj "CKA_LABEL" = Some t /\
    ParseCertificateTag (obj_get obj "CKA_VALUE") = Some x /\
    mkCert "Acme Root" sampleDER (mkTrustLevel true false false) (Some sampleDER) =
    mkCert (obj_get obj "CKA_LABEL") (obj_get obj "CKA_VALUE") t (Some x).
Proof.
  apply (ReadTrustedCerts_membership UnquotePlain string ParseCertificateTag 4 sampleTrusted).
  - reflexivity.
  - reflexivity.
  - reflexivity.
Defined.

(** X19. No certificate without a declaration that grants trust: every
    record returned has, among the objects of the input, a certificate
    object with its label and data, and a trust declaration with the same
    label, none of whose fields is CKT_NSS_NOT_TRUSTED, whose
    CKT_NSS_TRUSTED_DELEGATOR fields are the purposes of the record. *)
Theorem ReadTrustedCerts_trust_origin
    (Unquote : string -> option string) (Certificate : Type)
    (ParseCertificate : string -> option Certificate)
    (fuel : nat) (f : string) (objects : list (gmap string string))
    (certs : list (Cert Certificate)) (c : Cert Certificate) :
  ReadObjects Unquote fuel f = Ret (Ok objects) ->
  ReadTrustedCerts Unquote Certificate ParseCertificate fuel f = Ret (Ok certs) ->
  In c certs ->
  exists certObj trustObj,
    In certObj objects /\ In trustObj objects /\
    obj_get certObj "CKA_CLASS" = "CKO_CERTIFICATE" /\
    Label c = obj_get certObj "CKA_LABEL" /\ Data c = obj_get certObj "CKA_VALUE" /\
    grants trustObj = true /\
    obj_get trustObj "CKA_LABEL" = Label c /\ Trust c = levelOf trustObj.
Proof.
  intros Hobjs. unfold ReadTrustedCerts. rewrite Hobjs. cbn [bind].
  destruct (findTrusted objects) as [trusted|e] eqn:Ht; [|discriminate].
  rewrite extract_fold_concat. cbn [app]. intros [= <-] Hin.
  apply in_flat_map in Hin as (obj & Hobj & Hc).
  apply extract_step_member in Hc as (Hcl & t & x & H1 & H2 & ->).
  destruct (findTrusted_loop_entry objects ∅ trusted _ t Ht H1)
    as [[H _]|(pre & tobj & post & Heq & Hg & Hlab & Hlev & _)].
  - rewrite lookup_empty in H. discriminate.
  - exists obj, tobj. cbn [Label Data Trust].
    repeat split; try assumption; try reflexivity.
    rewrite Heq. apply in_or_app. right. left. reflexivity.
Qed.

Lemma ReadTrustedCerts_trust_origin_witness :
  exists certObj trustObj,
    In certObj [ <["CKA_VALUE" := sampleDER]>
                   (<["CKA_LABEL" := "Acme Root"]> (<["CKA_CLASS" := "CKO_CERTIFICATE"]> ∅));
                 trustDecl "Acme Root" "CKT_NSS_TRUSTED_DELEGATOR"
                           "CKT_NSS_MUST_VERIFY_TRUST" "CKT_NSS_MUST_VERIFY_TRUST" ] /\
    In trustObj [ <["CKA_VALUE" := sampleDER]>
                   (<["CKA_LABEL" := "Acme Root"]> (<["CKA_CLASS" := "CKO_CERTIFICATE"]> ∅));
                 trustDecl "Acme Root" "CKT_NSS_TRUSTED_DELEGATOR"
                           "CKT_NSS_MUST_VERIFY_TRUST" "CKT_NSS_MUST_VERIFY_TRUST" ] /\
    obj_get certObj "CKA_CLASS" = "CKO_CERTIFICATE" /\
    Label (mkCert "Acme Root" sampleDER (mkTrustLevel true false false) (Some sampleDER)) =
      obj_get certObj "CKA_LABEL" /\
    Data (mkCert "Acme Root" sampleDER (mkTrustLevel true false false) (Some sampleDER)) =
      obj_get certObj "CKA_VALUE" /\
    grants trustObj = true /\
    obj_get trustObj "CKA_LABEL" =
      Label (mkCert "Acme Root" sampleDER (mkTrustLevel true false false) (Some sampleDER)) /\
    Trust (mkCert "Acme Root" sampleDER (mkTrustLevel true false false) (Some sampleDER)) =
      levelOf trustObj.
Proof.
  apply (ReadTrustedCerts_trust_origin UnquotePlain string ParseCertificateTag 4
           sampleTrusted _
           [mkCert "Acme Root" sampleDER (mkTrustLevel true false false) (Some sampleDER)]).
  - reflexivity.
  - reflexivity.
  - left. reflexivity.
Defined.

(** * gencerts *)

(** X20. hasNeg on what ReadTrustedCerts returns: no record has a nil
    certificate, so hasNeg does not panic; it answers true exactly when a
    record has a certificate with a negative serial number. *)
Theorem hasNeg_on_parsed_certs
    (Unquote : string -> option string) (Certificate : Type)
    (ParseCertificate : string -> option Certificate) (Sign : Certificate -> Z)
    (fuel : nat) (f : string) (certs : list (Cert Certificate)) :
  ReadTrustedCerts Unquote Certificate ParseCertificate fuel f = Ret (Ok certs) ->
  exists b, hasNeg Certificate Sign certs = Ret b /\
            (b = true <-> exists c x, In c certs /\ Cert' c = Some x /\ Sign x < 0).
Proof.
  intros H.
  assert (Hvalid : Forall (validRecord ParseCertificate) certs).
  { revert H. unfold ReadTrustedCerts.
    destruct (ReadObjects Unquote fuel f) as [[objects|e]| |]; cbn [bind]; try discriminate.
    destruct (findTrusted objects) as [trusted|e] eqn:Et; [|discriminate].
    intros [= <-]. apply extract_fold_valid; [|constructor].
    apply (loop_hasPurpose objects ∅ trusted); [apply map_Forall_empty | exact Et]. }
  clear H. induction Hvalid as [|c rest [(x & Hx & _) _] _ (b & Hb & Hiff)];
    cbn [hasNeg].
  - exists false. split; [reflexivity|]. split; [discriminate|].
    intros (c & x & [] & _).
  - rewrite Hx. destruct (Sign x <? 0) eqn:Es.
    + exists true. split; [reflexivity|]. split; [|reflexivity].
      intros _. exists c, x. apply Z.ltb_lt in Es. split; [left; reflexivity | auto].
    + exists b. split; [exact Hb|]. rewrite Hiff. apply Z.ltb_ge in Es. split.
      * intros (c' & x' & Hin & Hc' & Hs). exists c', x'. split; [right; exact Hin | auto].
      * intros (c' & x' & [<-|Hin] & Hc' & Hs).
        -- rewrite Hx in Hc'. injection Hc' as <-. lia.
        -- exists c', x'. auto.
Qed.

Lemma hasNeg_on_parsed_certs_witness :
  exists b,
    hasNeg string (fun der => Z.of_nat (String.length der) - 5)
           [mkCert "Acme Root" sampleDER (mkTrustLevel true false false) (Some sampleDER)] =
    Ret b /\
    (b = true <->
     exists c x,
       In c [mkCert "Acme Root" sampleDER (mkTrustLevel true false false) (Some sampleDER)] /\
       Cert' c = Some x /\ Z.of_nat (String.length x) - 5 < 0).
Proof.
  apply (hasNeg_on_parsed_certs UnquotePlain string ParseCertificateTag
           (fun der => Z.of_nat (String.length der) - 5) 4 sampleTrusted).
  reflexivity.
Defined.

(** ** fmt16name *)

Lemma list_ascii_of_append (a b : string) :
  list_ascii_of_string (a +:+ b) = list_ascii_of_string a ++ list_ascii_of_string b.
Proof.
  induction a as [|c a IH]; [reflexivity|].
  change (list_ascii_of_string (String c a +:+ b))
    with (c :: list_ascii_of_string (a +:+ b)).
  rewrite IH. reflexivity.
Qed.

Lemma length_append (a b : string) :
  String.length (a +:+ b) = (String.length a + String.length b)%nat.
Proof.
  induction a as [|c a IH]; [reflexivity|].
  change (String.length (String c a +:+ b)) with (S (String.length (a +:+ b))).
  rewrite IH. reflexivity.
Qed.

Lemma substring_prefix (a b : string) :
  String.substring 0 (String.length a) (a +:+ b) = a.
Proof.
  induction a as [|c a IH].
  - destruct b; reflexivity.
  - change (String.substring 0 (String.length (String c a)) (String c a +:+ b))
      with (String c (String.substring 0 (String.length a) (a +:+ b))).
    rewrite IH. reflexivity.
Qed.

Lemma ExtLoop_plain (e : string) :
  plainName e = true ->
  forall before acc,
  Filepath.ExtLoop (List.rev (list_ascii_of_string e) ++ before) acc =
  Filepath.ExtLoop before (e +:+ acc).
Proof.
  induction e as [|c e IH]; intros Hp before acc; [reflexivity|].
  cbn [plainName] in Hp.
  apply andb_true_iff in Hp as [Hp He]. apply andb_true_iff in Hp as [Hs Hd].
  apply negb_true_iff in Hs, Hd.
  cbn [list_ascii_of_string List.rev]. rewrite <- app_assoc. cbn [app].
  rewrite (IH He). cbn [Filepath.ExtLoop]. rewrite Hs, Hd. reflexivity.
Qed.

Lemma Ext_of_dotted (stem e : string) :
  plainName e = true ->
  Filepath.Ext (stem +:+ String Filepath.dot e) = String Filepath.dot e.
Proof.
  intros Hp. unfold Filepath.Ext. rewrite list_ascii_of_append.
  cbn [list_ascii_of_string]. rewrite rev_app_distr. cbn [List.rev].
  rewrite <- app_assoc. cbn [app]. rewrite (ExtLoop_plain e Hp).
  cbn [Filepath.ExtLoop]. rewrite append_empty_r. reflexivity.
Qed.

Lemma Ext_of_plain (dir base : string) :
  plainName base = true ->
  Filepath.Ext base = EmptyString /\
  Filepath.Ext (dir +:+ String Filepath.slash base) = EmptyString.
Proof.
  intros Hp. unfold Filepath.Ext. split.
  - rewrite <- (app_nil_r (List.rev _)). rewrite (ExtLoop_plain base Hp). reflexivity.
  - rewrite list_ascii_of_append. cbn [list_ascii_of_string].
    rewrite rev_app_distr. cbn [List.rev]. rewrite <- app_assoc. cbn [app].
    rewrite (ExtLoop_plain base Hp). reflexivity.
Qed.

(** X21. The name of the second output file: a name whose last dot has
    neither a dot nor a slash after it gets [_16] put before that dot
    ([rootcerts.go] gives [rootcerts_16.go]); the slice that takes the part
    before the extension is in range.  The new name has the same extension
    and is three bytes longer, so it is never the name it was made from. *)
Theorem fmt16name_with_extension (stem e : string) :
  plainName e = true ->
  fmt16name (stem +:+ "." +:+ e) = Ret (stem +:+ "_16." +:+ e) /\
  Filepath.Ext (stem +:+ "_16." +:+ e) = Filepath.Ext (stem +:+ "." +:+ e) /\
  String.length (stem +:+ "_16." +:+ e) = (String.length (stem +:+ "." +:+ e) + 3)%nat.
Proof.
  intros Hp.
  change ("." +:+ e) with (String Filepath.dot e).
  split; [|split].
  - unfold fmt16name. rewrite (Ext_of_dotted stem e Hp).
    replace (String.eqb (String Filepath.dot e) EmptyString) with false by reflexivity.
    cbn [negb]. unfold GoString.slice, GoString.len.
    rewrite length_append.
    replace (Z.of_nat (String.length stem + String.length (String Filepath.dot e)) -
             Z.of_nat (String.length (String Filepath.dot e)))
      with (Z.of_nat (String.length stem)) by lia.
    replace (0 <=? 0) with true by reflexivity.
    replace (0 <=? Z.of_nat (String.length stem)) with true
      by (symmetry; apply Z.leb_le; lia).
    replace (Z.of_nat (String.length stem) <=?
             Z.of_nat (String.length stem + String.length (String Filepath.dot e)))
      with true by (symmetry; apply Z.leb_le; lia).
    cbn [andb]. rewrite Z.sub_0_r, Nat2Z.id. change (Z.to_nat 0) with 0%nat.
    rewrite substring_prefix. reflexivity.
  - change (stem +:+ "_16." +:+ e) with (stem +:+ "_16" +:+ String Filepath.dot e).
    rewrite <- append_assoc. rewrite !(Ext_of_dotted _ e Hp). reflexivity.
  - rewrite !length_append. cbn [String.length]. lia.
Qed.

Lemma fmt16name_with_extension_witness :
  fmt16name ("out/rootcerts" +:+ "." +:+ "go") = Ret ("out/rootcerts" +:+ "_16." +:+ "go") /\
  Filepath.Ext ("out/rootcerts" +:+ "_16." +:+ "go") =
    Filepath.Ext ("out/rootcerts" +:+ "." +:+ "go") /\
  String.length ("out/rootcerts" +:+ "_16." +:+ "go") =
    (String.length ("out/rootcerts" +:+ "." +:+ "go") + 3)%nat.
Proof.
  apply (fmt16name_with_extension "out/rootcerts" "go").
  reflexivity.
Defined.

(** X22. A name whose last element has no dot has no second file: the
    result is the empty string, also when a directory before the last
    slash has a dot in its name. *)
Theorem fmt16name_without_extension (dir base : string) :
  plainName base = true ->
  fmt16name base = Ret EmptyString /\
  fmt16name (dir +:+ "/" +:+ base) = Ret EmptyString.
Proof.
  intros Hp. change ("/" +:+ base) with (String Filepath.slash base).
  destruct (Ext_of_plain dir base Hp) as [H1 H2].
  unfold fmt16name. rewrite H1, H2. split; reflexivity.
Qed.

Lemma fmt16name_without_extension_witness :
  fmt16name "rootcerts" = Ret EmptyString /\
  fmt16name ("gen.d" +:+ "/" +:+ "rootcerts") = Ret EmptyString.
Proof.
  apply (fmt16name_without_extension "gen.d" "rootcerts").
  reflexivity.
Defined.

(** ** CertsByTrust *)

Lemma land_all_bits (x t : Z) :
  Z.land x t = t <->
  forall i, 0 <= i -> Z.testbit t i = true -> Z.testbit x i = true.
Proof.
  split.
  - intros H i Hi Hti. rewrite <- H in Hti. rewrite Z.land_spec in Hti.
    apply andb_true_iff in Hti. tauto.
  - intros H. apply Z.bits_inj'. intros i Hi. rewrite Z.land_spec.
    destruct (Z.testbit t i) eqn:E.
    + rewrite (H i Hi E). reflexivity.
    + apply andb_false_r.
Qed.

Lemma matches_lor (x a b : Z) :
  (Z.land x (Z.lor a b) =? Z.lor a b) = (Z.land x a =? a) && (Z.land x b =? b).
Proof.
  apply eq_true_iff_eq. rewrite andb_true_iff, !Z.eqb_eq, !land_all_bits. split.
  - intros H. split; intros i Hi Hb; apply (H i Hi); rewrite Z.lor_spec, Hb;
      [reflexivity | apply orb_true_r].
  - intros [Ha Hb] i Hi Hab. rewrite Z.lor_spec in Hab.
    apply orb_true_iff in Hab as [H|H]; [apply (Ha i Hi H) | apply (Hb i Hi H)].
Qed.

(** X23. CertsByTrust returns, in their order, the certificates that have
    every bit of the level asked for: a certificate is in the result
    exactly when it is in the list and each bit set in the level is set in
    its trust. *)
Theorem CertsByTrust_matches_all_bits (certs : list Generated.Cert) (t : Z)
    (c : Generated.Cert) :
  In c (Generated.CertsByTrust certs t) <->
  In c certs /\
  forall i, 0 <= i -> Z.testbit t i = true -> Z.testbit (Generated.Trust c) i = true.
Proof.
  rewrite <- land_all_bits.
  induction certs as [|c0 rest IH]; cbn [Generated.CertsByTrust In].
  - tauto.
  - destruct (Z.land (Generated.Trust c0) t =? t) eqn:E.
    + apply Z.eqb_eq in E. cbn [In]. rewrite IH. split.
      * intros [<-|[H1 H2]]; auto.
      * intros [[<-|H1] H2]; auto.
    + apply Z.eqb_neq in E. rewrite IH. split.
      * intros [H1 H2]; auto.
      * intros [[<-|H1] H2]; [contradiction | auto].
Qed.

(** X24. Levels combine: asking for the bits of two levels at once gives
    what asking for the second among the certificates of the first gives;
    the level with no bit gives every certificate; and asking twice for
    one level changes nothing. *)
Theorem CertsByTrust_combines (certs : list Generated.Cert) (a b : Z) :
  Generated.CertsByTrust certs (Z.lor a b) =
    Generated.CertsByTrust (Generated.CertsByTrust certs a) b /\
  Generated.CertsByTrust certs 0 = certs /\
  Generated.CertsByTrust (Generated.CertsByTrust certs a) a =
    Generated.CertsByTrust certs a.
Proof.
  assert (Hcomb : forall x y,
             Generated.CertsByTrust certs (Z.lor x y) =
             Generated.CertsByTrust (Generated.CertsByTrust certs x) y).
  { intros x y. induction certs as [|c rest IH]; cbn [Generated.CertsByTrust];
      [reflexivity|].
    rewrite matches_lor.
    destruct (Z.land (Generated.Trust c) x =? x); cbn [andb Generated.CertsByTrust].
    - destruct (Z.land (Generated.Trust c) y =? y); rewrite IH; reflexivity.
    - exact IH. }
  split; [apply Hcomb|]. split.
  - clear Hcomb.
    induction certs as [|c rest IH]; cbn [Generated.CertsByTrust]; [reflexivity|].
    rewrite Z.land_0_r. cbn. f_equal. exact IH.
  - rewrite <- Hcomb, Z.lor_diag. reflexivity.
Qed.

(** ** indentBytes *)

Example indentBytes_short :
  indentBytes sampleDER = Ret (idt +:+ "[]byte{0x30, 0x3, 0x1, 0x2}").
Proof. reflexivity. Qed.

Lemma stripSpace_app (a b : string) :
  stripSpace (a +:+ b) = stripSpace a +:+ stripSpace b.
Proof.
  induction a as [|c a IH]; [reflexivity|].
  change (stripSpace (String c a +:+ b))
    with (if Strings.isSpace c then stripSpace (a +:+ b)
          else String c (stripSpace (a +:+ b))).
  cbn [stripSpace]. rewrite IH. destruct (Strings.isSpace c); reflexivity.
Qed.

Lemma stripSpace_trimLeft (str : string) :
  stripSpace (Strings.trimLeft str) = stripSpace str.
Proof.
  induction str as [|c str IH]; [reflexivity|].
  cbn [Strings.trimLeft stripSpace].
  destruct (Strings.isSpace c) eqn:E; [exact IH|].
  cbn [stripSpace]. rewrite E. reflexivity.
Qed.

Lemma stripSpace_trimRight (str : string) :
  stripSpace (Strings.trimRight str) = stripSpace str.
Proof.
  induction str as [|c str IH]; [reflexivity|].
  cbn [Strings.trimRight stripSpace]. rewrite <- IH.
  destruct (Strings.trimRight str) as [|k kept].
  - destruct (Strings.isSpace c) eqn:E; cbn [stripSpace]; [reflexivity|].
    rewrite E. reflexivity.
  - cbn [stripSpace]. reflexivity.
Qed.

Lemma stripSpace_TrimSpace (str : string) :
  stripSpace (Strings.TrimSpace str) = stripSpace str.
Proof.
  unfold Strings.TrimSpace. rewrite stripSpace_trimRight. apply stripSpace_trimLeft.
Qed.

Lemma substring_split (str : string) :
  forall n, (n <= String.length str)%nat ->
  str = String.substring 0 n str +:+ String.substring n (String.length str - n) str /\
  String.length (String.substring n (String.length str - n) str) =
    (String.length str - n)%nat.
Proof.
  induction str as [|c str IH]; intros n Hn.
  - cbn [String.length] in Hn. assert (n = 0%nat) as -> by lia. split; reflexivity.
  - destruct n as [|n].
    + rewrite Nat.sub_0_r.
      change (String.substring 0 0 (String c str)) with EmptyString.
      rewrite substring_all. split; reflexivity.
    + cbn [String.length] in Hn. destruct (IH n ltac:(lia)) as [H1 H2].
      change (String.length (String c str) - S n)%nat with (String.length str - n)%nat.
      change (String.substring (S n) (String.length str - n) (String c str))
        with (String.substring n (String.length str - n) str).
      change (String.substring 0 (S n) (String c str))
        with (String c (String.substring 0 n str)).
      split; [|exact H2].
      change (String c (String.substring 0 n str) +:+
              String.substring n (String.length str - n) str)
        with (String c (String.substring 0 n str +:+
                        String.substring n (String.length str - n) str)).
      rewrite <- H1. reflexivity.
Qed.

(** A slice point within the text cuts it in two texts, both in range. *)
Lemma slice_split (str : string) (k : Z) :
  0 <= k <= GoString.len str ->
  exists a b,
    GoString.slice str 0 k = Some a /\ GoString.slice_from str k = Some b /\
    str = a +:+ b /\ GoString.len b = GoString.len str - k.
Proof.
  intros [Hk0 Hk]. unfold GoString.slice_from, GoString.slice, GoString.len in *.
  destruct (substring_split str (Z.to_nat k) ltac:(lia)) as [H1 H2].
  exists (String.substring 0 (Z.to_nat k) str),
         (String.substring (Z.to_nat k) (String.length str - Z.to_nat k) str).
  replace (0 <=? 0) with true by reflexivity.
  replace (0 <=? k) with true by (symmetry; apply Z.leb_le; lia).
  replace (k <=? Z.of_nat (String.length str)) with true
    by (symmetry; apply Z.leb_le; lia).
  replace (Z.of_nat (String.length str) <=? Z.of_nat (String.length str)) with true
    by (symmetry; apply Z.leb_le; lia).
  cbn [andb]. change (Z.to_nat 0) with 0%nat. rewrite Z.sub_0_r.
  replace (Z.to_nat (Z.of_nat (String.length str) - k))
    with (String.length str - Z.to_nat k)%nat by lia.
  split; [reflexivity|]. split; [reflexivity|]. split; [exact H1|].
  rewrite H2. lia.
Qed.

Lemma IndexByte_range (str : string) (c : ascii) :
  -1 <= Strings.IndexByte str c < GoString.len str.
Proof.
  unfold GoString.len. induction str as [|x str IH]; cbn [Strings.IndexByte String.length].
  - lia.
  - destruct (Ascii.eqb x c); [lia|].
    destruct (Strings.IndexByte str c <? 0) eqn:E; [lia|]. apply Z.ltb_ge in E. lia.
Qed.

Lemma indentLoop_keeps_text (fuel : nat) :
  forall line str out, (String.length str <= fuel)%nat ->
  exists str' out',
    indentLoop fuel line str out = Ret (str', out') /\
    stripSpace out' +:+ stripSpace str' = stripSpace out +:+ stripSpace str.
Proof.
  induction fuel as [|fuel IH]; intros line str out Hfuel.
  - assert (E : (GoString.len str >? indentWrap) = false).
    { unfold GoString.len, indentWrap. rewrite Z.gtb_ltb. apply Z.ltb_ge. lia. }
    cbn [indentLoop]. rewrite E. eauto.
  - cbn [indentLoop].
    destruct (GoString.len str >? indentWrap) eqn:E; [|eauto].
    assert (Hlen : indentWrap < GoString.len str)
      by (rewrite Z.gtb_ltb in E; apply Z.ltb_lt in E; exact E).
    destruct (slice_split str indentWrap ltac:(unfold indentWrap in *; lia))
      as (a0 & tail & _ & Htail & _ & Htl).
    rewrite Htail.
    pose proof (IndexByte_range tail (Ascii.ascii_of_nat 44)) as Hsp.
    destruct (Strings.IndexByte tail (Ascii.ascii_of_nat 44) >? -1) eqn:Es; [|eauto].
    rewrite Z.gtb_ltb in Es. apply Z.ltb_lt in Es.
    destruct (slice_split str (indentWrap + Strings.IndexByte tail (Ascii.ascii_of_nat 44) + 1)
                ltac:(unfold indentWrap in *; lia))
      as (chunk & rest & Hchunk & Hrest & Hstr & Hrl).
    rewrite Hchunk, Hrest.
    destruct (IH (line + 1) rest
                ((if line >? 0 then out +:+ idt else out) +:+ Strings.TrimSpace chunk
                 +:+ String GoString.newline EmptyString))
      as (str' & out' & Hrun & Heq).
    { unfold GoString.len, indentWrap in *. lia. }
    exists str', out'. split; [exact Hrun|].
    rewrite Heq. rewrite Hstr at 1.
    rewrite !stripSpace_app, stripSpace_TrimSpace.
    replace (stripSpace (String GoString.newline EmptyString)) with EmptyString
      by reflexivity.
    rewrite append_empty_r.
    destruct (line >? 0).
    + rewrite stripSpace_app.
      replace (stripSpace idt) with EmptyString by reflexivity.
      rewrite append_empty_r, append_assoc. reflexivity.
    + rewrite append_assoc. reflexivity.
Qed.

(** X25. indentBytes only moves white space: it returns (its slices are in
    range and its loop ends), and the text it returns is, white space
    apart, the text [%#v] prints for the bytes -- every element and comma,
    in order. *)
Theorem indentBytes_keeps_text (data : string) :
  exists out,
    indentBytes data = Ret out /\
    stripSpace out = stripSpace (Fmt.SprintfSharpV data).
Proof.
  unfold indentBytes.
  destruct (indentLoop_keeps_text (String.length (Fmt.SprintfSharpV data)) 0
              (Fmt.SprintfSharpV data) EmptyString (le_n _))
    as (str' & out' & Hrun & Heq).
  rewrite Hrun. cbn [bind]. eexists. split; [reflexivity|].
  rewrite !stripSpace_app, stripSpace_TrimSpace.
  replace (stripSpace idt) with EmptyString by reflexivity.
  exact Heq.
Qed.

Lemma trimRight_ends_with (a : string) (c : ascii) :
  Strings.isSpace c = false ->
  Strings.trimRight (a +:+ String c EmptyString) = a +:+ String c EmptyString.
Proof.
  intros Hc. induction a as [|x a IH].
  - change (EmptyString +:+ String c EmptyString) with (String c EmptyString).
    cbn [Strings.trimRight]. rewrite Hc. reflexivity.
  - change (String x a +:+ String c EmptyString)
      with (String x (a +:+ String c EmptyString)).
    cbn [Strings.trimRight]. rewrite IH.
    destruct a as [|y a]; reflexivity.
Qed.

Lemma TrimSpace_SprintfSharpV (data : string) :
  Strings.TrimSpace (Fmt.SprintfSharpV data) = Fmt.SprintfSharpV data.
Proof.
  unfold Strings.TrimSpace, Fmt.SprintfSharpV.
  change (Strings.trimLeft ("[]byte{" +:+ Fmt.elements data +:+ "}"))
    with ("[]byte{" +:+ Fmt.elements data +:+ "}").
  rewrite <- append_assoc. apply trimRight_ends_with. reflexivity.
Qed.

(** X26. A text of at most 64 bytes is not wrapped: indentBytes gives it
    after three tabs, on one line. *)
Theorem indentBytes_short_text (data : string) :
  GoString.len (Fmt.SprintfSharpV data) <= indentWrap ->
  indentBytes data = Ret (idt +:+ Fmt.SprintfSharpV data).
Proof.
  intros Hlen. unfold indentBytes.
  assert (E : (GoString.len (Fmt.SprintfSharpV data) >? indentWrap) = false)
    by (rewrite Z.gtb_ltb; apply Z.ltb_ge; exact Hlen).
  destruct (String.length (Fmt.SprintfSharpV data)); cbn [indentLoop]; rewrite E;
    cbn [bind]; rewrite TrimSpace_SprintfSharpV; reflexivity.
Qed.

Lemma indentBytes_short_text_witness :
  indentBytes sampleDER = Ret (idt +:+ Fmt.SprintfSharpV sampleDER).
Proof.
  apply (indentBytes_short_text sampleDER).
  vm_compute. discriminate.
Defined.

(** ** The objects of ReadObjects *)

Lemma ReadObjects_loop_classes (Unquote : string -> option string) (fuel : nat) :
  forall scanner objects scanner' objects',
  Forall (fun o : gmap string string => is_Some (o !! "CKA_CLASS")) objects ->
  ReadObjects_loop Unquote fuel scanner objects = Ret (scanner', objects') ->
  Forall (fun o : gmap string string => is_Some (o !! "CKA_CLASS")) objects'.
Proof.
  induction fuel as [|fuel IH]; intros scanner objects scanner' objects' Hall;
    cbn [ReadObjects_loop]; [discriminate|].
  destruct (ScanObject Unquote scanner) as [[[] sc1]| |] eqn:E; cbn [bind];
    try discriminate.
  - apply IH. apply Forall_app. split; [exact Hall|].
    constructor; [|constructor].
    destruct (ScanObject_true_result Unquote scanner sc1 E) as [[v Hv] _].
    exists v. exact Hv.
  - intros [= <- <-]. exact Hall.
Qed.

(** X27. Every object ReadObjects returns has a CKA_CLASS entry, and so has
    every object ReadTrustedCerts looks at. *)
Theorem ReadObjects_objects_have_class (Unquote : string -> option string)
    (fuel : nat) (f : string) (objects : list (gmap string string)) :
  ReadObjects Unquote fuel f = Ret (Ok objects) ->
  Forall (fun o : gmap string string => is_Some (o !! "CKA_CLASS")) objects.
Proof.
  unfold ReadObjects.
  destruct (ReadObjects_loop Unquote fuel (NewMozScanner f) [])
    as [[scanner objs]| |] eqn:E; cbn [bind]; try discriminate.
  destruct (ScanObjectError scanner); [discriminate|].
  intros [= <-]. eapply ReadObjects_loop_classes; [|exact E]. constructor.
Qed.

Lemma ReadObjects_objects_have_class_witness :
  Forall (fun o : gmap string string => is_Some (o !! "CKA_CLASS"))
         [ <["CKA_TOKEN" := "CK_TRUE"]> (<["CKA_CLASS" := "CKO_CERTIFICATE"]> ∅);
           <["CKA_TOKEN" := "CK_FALSE"]> (<["CKA_CLASS" := "CKO_NSS_TRUST"]> ∅) ].
Proof.
  apply (ReadObjects_objects_have_class UnquotePlain 3 sampleTwoObjects).
  reflexivity.
Defined.

(** ** When ReadObjects returns *)














(** ** When ReadObjects does not return *)










